(** * The inference-job queue of [llm-inference/worker.py]

    A shallow embedding of the SQLite-backed job queue and of the worker's
    [process_job], followed by the properties of the queue engine.

    Modelling conventions.
    - A table is the list of its rows in rowid (insertion) order; an SQL
      statement is a function on the store.  [CURRENT_TIMESTAMP] is an
      explicit [now] argument of every statement that reads it.
    - Timestamps are integers (seconds); SQLite stores them as fixed-width
      text whose order is the order of those integers.
    - The [job_type] and [status] columns, which a [CHECK ... IN (...)]
      confines to a closed set, are enumerations; [provider] stays a
      string, since [create_job] and [process_job] take any string for it
      and the CHECK is what refuses one.  Nullable columns are [option]s.
    - The transcription and summarisation services, the file system and the
      clock are an environment [Env]; every backend invocation is recorded
      in a trace, so that "which backend ran" can be stated.
    - Logging is not modelled. *)

From Stdlib Require Import ZArith List String Bool Lia.
From Stdlib Require Import Floats.SpecFloat.
Import ListNotations.

Open Scope string_scope.
Open Scope list_scope.
Open Scope Z_scope.

(* ------------------------------------------------------------------ *)
(** ** Enumerations *)

Inductive JobStatus := PENDING | PROCESSING | COMPLETED | FAILED.

Inductive JobType := TRANSCRIBE | SUMMARIZE.

(** The status domain of [audio_submissions.status]. *)
Inductive SubmissionStatus :=
  SubPending | SubTranscribing | SubSummarizing | SubCompleted | SubFailed.

Definition JobStatus_eqb (a b : JobStatus) : bool :=
  match a, b with
  | PENDING, PENDING | PROCESSING, PROCESSING
  | COMPLETED, COMPLETED | FAILED, FAILED => true
  | _, _ => false
  end.

Definition timestamp := Z.

(* ------------------------------------------------------------------ *)
(** ** JSON values and Python truthiness *)

#[local] Set Warnings "-register-all".

(** What [json.loads] produces. *)
Inductive json :=
| JNull
| JBool (b : bool)
| JInt (n : Z)
| JFloat (f : spec_float)
| JStr (s : string)
| JArr (items : list json)
| JObj (members : list (string * json)).

(** [bool(v)] for a value produced by [json.loads]. *)
Definition py_truthy (v : json) : bool :=
  match v with
  | JNull => false
  | JBool b => b
  | JInt n => negb (n =? 0)
  | JFloat (S754_zero _) => false
  | JFloat _ => true
  | JStr s => negb (s =? "")%string
  | JArr [] => false
  | JArr (_ :: _) => true
  | JObj [] => false
  | JObj (_ :: _) => true
  end.

(** [d.get(key, default)] on the dict built from an object's members in
    document order: a repeated key keeps its last value. *)
Fixpoint dict_get (key : string) (members : list (string * json))
    (default : json) : json :=
  match members with
  | [] => default
  | (k, v) :: rest =>
      dict_get key rest (if (k =? key)%string then v else default)
  end.

(** [type(v).__name__], as it appears in an [AttributeError] message. *)
Definition py_type_name (v : json) : string :=
  match v with
  | JNull => "NoneType"
  | JBool _ => "bool"
  | JInt _ => "int"
  | JFloat _ => "float"
  | JStr _ => "str"
  | JArr _ => "list"
  | JObj _ => "dict"
  end.

(** The content of a [metadata TEXT] column, up to what [process_job]
    distinguishes: the empty string (falsy), a text that [json.loads]
    parses to [v], or a non-empty text that [json.loads] rejects. *)
Inductive json_text :=
| TextEmpty
| TextJson (v : json)
| TextInvalid.

(** [bool(s)] for an [Optional[str]]. *)
Definition truthy_str (o : option string) : bool :=
  match o with
  | Some s => negb (s =? "")%string
  | None => false
  end.

(* ------------------------------------------------------------------ *)
(** ** Rows and the store *)

Module Job.
(** A row of [jobs].  [created_at] has [DEFAULT CURRENT_TIMESTAMP] and no
    insert of this file overrides it, so it is never NULL here. *)
Record t := mk {
  id : Z;
  job_type : JobType;
  status : JobStatus;
  provider : string;
  input_file_path : option string;
  input_text : option string;
  output_text : option string;
  error_message : option string;
  audio_file_id : option string;
  metadata : option json_text;
  created_at : timestamp;
  started_at : option timestamp;
  completed_at : option timestamp;
  processing_time_ms : option Z;
  model_used : option string
}.
End Job.

Module Submission.
(** A row of [audio_submissions]. *)
Record t := mk {
  id : string;
  filename : string;
  original_filename : option string;
  file_path : string;
  mime_type : option string;
  file_size : option Z;
  duration_seconds : option spec_float;
  transcript : option string;
  transcript_job_id : option Z;
  transcribed_at : option timestamp;
  summary : option string;
  summary_job_id : option Z;
  summarized_at : option timestamp;
  status : SubmissionStatus;
  error_message : option string;
  metadata : option json_text;
  created_at : timestamp;
  updated_at : timestamp
}.
End Submission.

(** The database: both tables, and the [sqlite_sequence] entry that
    [AUTOINCREMENT] keeps for [jobs]. *)
Record store := mkStore {
  jobs : list Job.t;
  jobs_seq : Z;
  audio_submissions : list Submission.t
}.

Definition with_jobs (rows : list Job.t) (s : store) : store :=
  {| jobs := rows; jobs_seq := jobs_seq s;
     audio_submissions := audio_submissions s |}.

Definition with_submissions (rows : list Submission.t) (s : store) : store :=
  {| jobs := jobs s; jobs_seq := jobs_seq s; audio_submissions := rows |}.

(** Largest rowid of the table (0 for an empty one). *)
Definition max_id (rows : list Job.t) : Z :=
  fold_right (fun r m => Z.max (Job.id r) m) 0 rows.

(** The rowid [AUTOINCREMENT] hands out: one more than the largest rowid
    ever used. *)
Definition next_job_id (s : store) : Z :=
  1 + Z.max (jobs_seq s) (max_id (jobs s)).

(* ------------------------------------------------------------------ *)
(** ** Exceptions *)

Inductive exn_class :=
| ValueError
| FileNotFoundError
| AttributeError
| JSONDecodeError
| IntegrityError
| OverflowError
| OtherException.

(** A raised exception; [exn_msg e] is [str(e)]. *)
Record exn := mkExn { exn_cls : exn_class; exn_msg : string }.

(* ------------------------------------------------------------------ *)
(** ** Job queue statements *)

(** [CHECK(provider IN ('local', 'deepgram', 'openai', 'anthropic'))]. *)
Definition provider_allowed (p : string) : bool :=
  ((p =? "local") || (p =? "deepgram") || (p =? "openai")
   || (p =? "anthropic"))%string.

(** [create_job]: one INSERT.  The only way the statement is refused is
    the provider CHECK of the schema (SQLite's message is abbreviated);
    foreign keys are not enforced, the connection never enables them.
    [json.dumps(metadata) if metadata else None]: an empty dict is stored
    as NULL. *)
Definition create_job (now : timestamp) (job_type : JobType)
    (input_file_path input_text audio_file_id : option string)
    (metadata : option (list (string * json))) (provider : string)
    (s : store) : exn + (Z * store) :=
  if provider_allowed provider then
    let job_id := next_job_id s in
    let row :=
      {| Job.id := job_id;
         Job.job_type := job_type;
         Job.status := PENDING;
         Job.provider := provider;
         Job.input_file_path := input_file_path;
         Job.input_text := input_text;
         Job.output_text := None;
         Job.error_message := None;
         Job.audio_file_id := audio_file_id;
         Job.metadata :=
           match metadata with
           | Some (m :: ms) => Some (TextJson (JObj (m :: ms)))
           | _ => None
           end;
         Job.created_at := now;
         Job.started_at := None;
         Job.completed_at := None;
         Job.processing_time_ms := None;
         Job.model_used := None |} in
    inr (job_id,
         {| jobs := jobs s ++ [row];
            jobs_seq := job_id;
            audio_submissions := audio_submissions s |})
  else
    inl (mkExn IntegrityError "CHECK constraint failed: provider").

Definition is_pending (r : Job.t) : bool :=
  JobStatus_eqb (Job.status r) PENDING.

(** [a] comes no later than [b] in the scan of the [(status, created_at)]
    index, whose entries are ordered by [created_at] and then by rowid. *)
Definition scan_before (a b : Job.t) : bool :=
  (Job.created_at a <? Job.created_at b)
  || ((Job.created_at a =? Job.created_at b) && (Job.id a <=? Job.id b)).

(** [SELECT id FROM jobs WHERE status = 'pending' ORDER BY created_at ASC
    LIMIT 1].  The statement itself names no tie-break; SQLite answers it
    from [idx_jobs_status_created], so that among equal [created_at] the
    smallest rowid comes first. *)
Fixpoint oldest_pending (rows : list Job.t) : option Job.t :=
  match rows with
  | [] => None
  | r :: rest =>
      if is_pending r then
        match oldest_pending rest with
        | Some b => if scan_before r b then Some r else Some b
        | None => Some r
        end
      else oldest_pending rest
  end.

(** [SET status = 'processing', started_at = CURRENT_TIMESTAMP]. *)
Definition claimed (now : timestamp) (r : Job.t) : Job.t :=
  {| Job.id := Job.id r;
     Job.job_type := Job.job_type r;
     Job.status := PROCESSING;
     Job.provider := Job.provider r;
     Job.input_file_path := Job.input_file_path r;
     Job.input_text := Job.input_text r;
     Job.output_text := Job.output_text r;
     Job.error_message := Job.error_message r;
     Job.audio_file_id := Job.audio_file_id r;
     Job.metadata := Job.metadata r;
     Job.created_at := Job.created_at r;
     Job.started_at := Some now;
     Job.completed_at := Job.completed_at r;
     Job.processing_time_ms := Job.processing_time_ms r;
     Job.model_used := Job.model_used r |}.

(** [UPDATE jobs SET ... WHERE id = job_id]: rewrite every matching row. *)
Definition update_job (job_id : Z) (f : Job.t -> Job.t)
    (rows : list Job.t) : list Job.t :=
  map (fun r => if Job.id r =? job_id then f r else r) rows.

(** [get_next_pending_job]: one [UPDATE ... WHERE id = (SELECT ...)
    RETURNING *].  [RETURNING] yields the rows as they are after the
    update; [fetchone] takes the first. *)
Definition get_next_pending_job (now : timestamp) (s : store)
    : option Job.t * store :=
  match oldest_pending (jobs s) with
  | None => (None, s)
  | Some j =>
      let hit := fun r => Job.id r =? Job.id j in
      (hd_error (map (claimed now) (filter hit (jobs s))),
       with_jobs (update_job (Job.id j) (claimed now) (jobs s)) s)
  end.

(** The SET clause of [complete_job]. *)
Definition completed (now : timestamp) (output_text model_used : string)
    (processing_time_ms : Z) (r : Job.t) : Job.t :=
  {| Job.id := Job.id r;
     Job.job_type := Job.job_type r;
     Job.status := COMPLETED;
     Job.provider := Job.provider r;
     Job.input_file_path := Job.input_file_path r;
     Job.input_text := Job.input_text r;
     Job.output_text := Some output_text;
     Job.error_message := Job.error_message r;
     Job.audio_file_id := Job.audio_file_id r;
     Job.metadata := Job.metadata r;
     Job.created_at := Job.created_at r;
     Job.started_at := Job.started_at r;
     Job.completed_at := Some now;
     Job.processing_time_ms := Some processing_time_ms;
     Job.model_used := Some model_used |}.

(** The UPDATE statement of [complete_job], keyed by the id alone, once
    its parameters are bound. *)
Definition complete_job_update (now : timestamp) (job_id : Z)
    (output_text model_used : string) (processing_time_ms : Z)
    (s : store) : store :=
  with_jobs
    (update_job job_id
       (completed now output_text model_used processing_time_ms) (jobs s))
    s.

(** A Python [int] binds to an SQLite INTEGER only when it fits a signed
    64-bit word. *)
Definition sqlite_int (z : Z) : bool :=
  (- 2 ^ 63 <=? z) && (z <? 2 ^ 63).

(** What [sqlite3] raises at parameter binding otherwise; the statement is
    then not run. *)
Definition int_too_large : exn :=
  mkExn OverflowError "Python int too large to convert to SQLite INTEGER".

(** [complete_job]: the parameters are bound in the order of the
    placeholders (the duration before the id), then the UPDATE runs. *)
Definition complete_job (now : timestamp) (job_id : Z)
    (output_text model_used : string) (processing_time_ms : Z)
    (s : store) : exn + store :=
  if sqlite_int processing_time_ms && sqlite_int job_id
  then inr (complete_job_update now job_id output_text model_used
              processing_time_ms s)
  else inl int_too_large.

(** The SET clause of [fail_job]. *)
Definition failed (now : timestamp) (error_message : string)
    (r : Job.t) : Job.t :=
  {| Job.id := Job.id r;
     Job.job_type := Job.job_type r;
     Job.status := FAILED;
     Job.provider := Job.provider r;
     Job.input_file_path := Job.input_file_path r;
     Job.input_text := Job.input_text r;
     Job.output_text := Job.output_text r;
     Job.error_message := Some error_message;
     Job.audio_file_id := Job.audio_file_id r;
     Job.metadata := Job.metadata r;
     Job.created_at := Job.created_at r;
     Job.started_at := Job.started_at r;
     Job.completed_at := Some now;
     Job.processing_time_ms := Job.processing_time_ms r;
     Job.model_used := Job.model_used r |}.

(** The UPDATE statement of [fail_job], keyed by the id alone, once its
    parameters are bound. *)
Definition fail_job_update (now : timestamp) (job_id : Z)
    (error_message : string) (s : store) : store :=
  with_jobs (update_job job_id (failed now error_message) (jobs s)) s.

(** [fail_job]: the id is the one integer parameter to bind. *)
Definition fail_job (now : timestamp) (job_id : Z) (error_message : string)
    (s : store) : exn + store :=
  if sqlite_int job_id
  then inr (fail_job_update now job_id error_message s)
  else inl int_too_large.

(** [get_job]. *)
Definition get_job (job_id : Z) (s : store) : option Job.t :=
  find (fun r => Job.id r =? job_id) (jobs s).

(* ------------------------------------------------------------------ *)
(** ** Audio submission statements *)

(** An optional [int] parameter: [None] binds as NULL. *)
Definition bindable (parameter : option Z) : bool :=
  match parameter with
  | Some z => sqlite_int z
  | None => true
  end.

(** [create_audio_submission]: one INSERT; the status column takes its
    default.  The file size is the one integer to bind; a NaN binds as
    NULL.  A second row with the same primary key is refused. *)
Definition create_audio_submission (now : timestamp)
    (submission_id filename file_path : string)
    (original_filename mime_type : option string) (file_size : option Z)
    (duration_seconds : option spec_float)
    (metadata : option (list (string * json)))
    (s : store) : exn + (string * store) :=
  if negb (bindable file_size) then inl int_too_large
  else
  if existsb (fun r => (Submission.id r =? submission_id)%string)
       (audio_submissions s)
  then inl (mkExn IntegrityError "UNIQUE constraint failed")
  else
    let row :=
      {| Submission.id := submission_id;
         Submission.filename := filename;
         Submission.original_filename := original_filename;
         Submission.file_path := file_path;
         Submission.mime_type := mime_type;
         Submission.file_size := file_size;
         Submission.duration_seconds :=
           match duration_seconds with
           | Some S754_nan => None
           | d => d
           end;
         Submission.transcript := None;
         Submission.transcript_job_id := None;
         Submission.transcribed_at := None;
         Submission.summary := None;
         Submission.summary_job_id := None;
         Submission.summarized_at := None;
         Submission.status := SubPending;
         Submission.error_message := None;
         Submission.metadata :=
           match metadata with
           | Some (m :: ms) => Some (TextJson (JObj (m :: ms)))
           | _ => None
           end;
         Submission.created_at := now;
         Submission.updated_at := now |} in
    inr (submission_id,
         with_submissions (audio_submissions s ++ [row]) s).

(** [get_audio_submission]. *)
Definition get_audio_submission (submission_id : string) (s : store)
    : option Submission.t :=
  find (fun r => (Submission.id r =? submission_id)%string)
    (audio_submissions s).

(** [UPDATE audio_submissions SET ... WHERE id = submission_id]. *)
Definition update_submission (submission_id : string)
    (f : Submission.t -> Submission.t) (rows : list Submission.t)
    : list Submission.t :=
  map (fun r => if (Submission.id r =? submission_id)%string
                then f r else r) rows.

(** The SET clause of [update_audio_submission_transcript]. *)
Definition transcribed (now : timestamp) (transcript : string)
    (job_id : Z) (r : Submission.t) : Submission.t :=
  {| Submission.id := Submission.id r;
     Submission.filename := Submission.filename r;
     Submission.original_filename := Submission.original_filename r;
     Submission.file_path := Submission.file_path r;
     Submission.mime_type := Submission.mime_type r;
     Submission.file_size := Submission.file_size r;
     Submission.duration_seconds := Submission.duration_seconds r;
     Submission.transcript := Some transcript;
     Submission.transcript_job_id := Some job_id;
     Submission.transcribed_at := Some now;
     Submission.summary := Submission.summary r;
     Submission.summary_job_id := Submission.summary_job_id r;
     Submission.summarized_at := Submission.summarized_at r;
     Submission.status := SubSummarizing;
     Submission.error_message := Submission.error_message r;
     Submission.metadata := Submission.metadata r;
     Submission.created_at := Submission.created_at r;
     Submission.updated_at := now |}.

Definition update_audio_submission_transcript (now : timestamp)
    (submission_id transcript : string) (job_id : Z) (s : store) : store :=
  with_submissions
    (update_submission submission_id (transcribed now transcript job_id)
       (audio_submissions s))
    s.

(** The SET clause of [update_audio_submission_summary]. *)
Definition summarized (now : timestamp) (summary : string)
    (job_id : Z) (r : Submission.t) : Submission.t :=
  {| Submission.id := Submission.id r;
     Submission.filename := Submission.filename r;
     Submission.original_filename := Submission.original_filename r;
     Submission.file_path := Submission.file_path r;
     Submission.mime_type := Submission.mime_type r;
     Submission.file_size := Submission.file_size r;
     Submission.duration_seconds := Submission.duration_seconds r;
     Submission.transcript := Submission.transcript r;
     Submission.transcript_job_id := Submission.transcript_job_id r;
     Submission.transcribed_at := Submission.transcribed_at r;
     Submission.summary := Some summary;
     Submission.summary_job_id := Some job_id;
     Submission.summarized_at := Some now;
     Submission.status := SubCompleted;
     Submission.error_message := Submission.error_message r;
     Submission.metadata := Submission.metadata r;
     Submission.created_at := Submission.created_at r;
     Submission.updated_at := now |}.

Definition update_audio_submission_summary (now : timestamp)
    (submission_id summary : string) (job_id : Z) (s : store) : store :=
  with_submissions
    (update_submission submission_id (summarized now summary job_id)
       (audio_submissions s))
    s.

(** The two SET clauses of [update_audio_submission_status]: the error
    column is written by the first one only. *)
Definition restated (now : timestamp) (status : SubmissionStatus)
    (error_message : option string) (r : Submission.t) : Submission.t :=
  {| Submission.id := Submission.id r;
     Submission.filename := Submission.filename r;
     Submission.original_filename := Submission.original_filename r;
     Submission.file_path := Submission.file_path r;
     Submission.mime_type := Submission.mime_type r;
     Submission.file_size := Submission.file_size r;
     Submission.duration_seconds := Submission.duration_seconds r;
     Submission.transcript := Submission.transcript r;
     Submission.transcript_job_id := Submission.transcript_job_id r;
     Submission.transcribed_at := Submission.transcribed_at r;
     Submission.summary := Submission.summary r;
     Submission.summary_job_id := Submission.summary_job_id r;
     Submission.summarized_at := Submission.summarized_at r;
     Submission.status := status;
     Submission.error_message :=
       match error_message with
       | Some e => Some e
       | None => Submission.error_message r
       end;
     Submission.metadata := Submission.metadata r;
     Submission.created_at := Submission.created_at r;
     Submission.updated_at := now |}.

(** [update_audio_submission_status]: [if error_message:] is a truthiness
    test, so both [None] and the empty string take the second UPDATE. *)
Definition update_audio_submission_status (now : timestamp)
    (submission_id : string) (status : SubmissionStatus)
    (error_message : option string) (s : store) : store :=
  if truthy_str error_message then
    with_submissions
      (update_submission submission_id (restated now status error_message)
         (audio_submissions s))
      s
  else
    with_submissions
      (update_submission submission_id (restated now status None)
         (audio_submissions s))
      s.

(* ------------------------------------------------------------------ *)
(** ** Queue statistics *)

Record queue_status := mkQueueStatus {
  total_jobs : Z;
  pending : Z;
  processing : Z;
  completed_count : Z;
  failed_count : Z;
  avg_processing_time_ms : option Z
}.

(** [COUNT( * )] of the group of one status; [status_counts.get(st, 0)]
    gives 0 for a status without rows. *)
Definition count_status (st : JobStatus) (rows : list Job.t) : Z :=
  Z.of_nat (List.length (filter (fun r => JobStatus_eqb (Job.status r) st) rows)).

(** The [processing_time_ms] values that the AVG ranges over. *)
Definition completed_times (rows : list Job.t) : list Z :=
  flat_map
    (fun r =>
       match Job.status r, Job.processing_time_ms r with
       | COMPLETED, Some ms => [ms]
       | _, _ => []
       end)
    rows.

(** Python's [round] of the quotient [num / den] ([den > 0]): to the
    nearest integer, a tie to the even one. *)
Definition round_half_even (num den : Z) : Z :=
  let q := num / den in
  let r := num mod den in
  if 2 * r <? den then q
  else if den <? 2 * r then q + 1
  else if Z.even q then q else q + 1.

(** IEEE 754 double precision, the REAL of SQLite and the [float] of
    Python: the conversion of an integer and the division, both rounding
    to nearest, ties to even. *)
Definition double_of_Z (z : Z) : spec_float :=
  binary_normalize 53 1024 z 0 false.

Definition double_div (a b : spec_float) : spec_float :=
  SFdiv 53 1024 a b.

(** Python's [round] of a float, an exact integer: a NaN and an infinity
    have none. *)
Definition py_round (f : spec_float) : option Z :=
  match f with
  | S754_zero _ => Some 0
  | S754_finite sign m e =>
      let magnitude :=
        if 0 <=? e then Z.pos m * 2 ^ e
        else round_half_even (Z.pos m) (2 ^ (- e)) in
      Some (if sign then - magnitude else magnitude)
  | S754_infinity _ | S754_nan => None
  end.

(** [AVG(processing_time_ms)] over the selected rows, then
    [round(avg_time) if avg_time else None].  AVG of no row is NULL;
    otherwise SQLite adds the integers up exactly, converts the sum to a
    double and divides it by the count, itself converted (older
    releases add in doubles, which is the same while the partial sums
    stay below [2 ^ 53]).  A zero average is falsy.  The sum is taken
    over [Z]: one that leaves the signed 64-bit range, where SQLite goes
    over to floating-point summation, is out of reach of durations in
    milliseconds. *)
Definition average_time (times : list Z) : option Z :=
  match times with
  | [] => None
  | _ :: _ =>
      let avg :=
        double_div (double_of_Z (fold_right Z.add 0 times))
          (double_of_Z (Z.of_nat (List.length times))) in
      match avg with
      | S754_zero _ => None
      | _ => py_round avg
      end
  end.

(** [get_queue_status]: three SELECTs.  It returns the store it read, so
    that "performs no writes" is a statement about this function. *)
Definition get_queue_status (s : store) : queue_status * store :=
  ({| total_jobs := Z.of_nat (List.length (jobs s));
      pending := count_status PENDING (jobs s);
      processing := count_status PROCESSING (jobs s);
      completed_count := count_status COMPLETED (jobs s);
      failed_count := count_status FAILED (jobs s);
      avg_processing_time_ms := average_time (completed_times (jobs s)) |},
   s).

(* ------------------------------------------------------------------ *)
(** ** The environment of the worker *)

(** One invocation of an external backend. *)
Inductive backend_call :=
| CallWhisper (file_path : string)
| CallDeepgram (file_path : string)
| CallOllama (text : string).

(** What the worker does not control: the successive readings of
    [CURRENT_TIMESTAMP], [os.path.exists], and the three services, each
    answering with its text and measured milliseconds or raising. *)
Record Env := mkEnv {
  clock : nat -> timestamp;
  path_exists : string -> bool;
  whisper : string -> exn + (string * Z);
  deepgram : string -> exn + (string * Z);
  ollama : string -> exn + (string * Z)
}.

(** The state the worker threads: the database, the number of clock
    readings so far, and the backend invocations so far, oldest first. *)
Record world := mkWorld {
  db : store;
  ticks : nat;
  calls : list backend_call
}.

(** Computations that change the world and either return or raise.  A
    raise keeps the world reached: every statement commits on its own. *)
Definition M (A : Type) : Type := world -> (exn + A) * world.

Definition ret {A : Type} (a : A) : M A := fun w => (inr a, w).

Definition bind {A B : Type} (m : M A) (k : A -> M B) : M B :=
  fun w =>
    match m w with
    | (inl e, w') => (inl e, w')
    | (inr a, w') => k a w'
    end.

Definition raise {A : Type} (e : exn) : M A := fun w => (inl e, w).

(** [try: body / except Exception as e: handler e]. *)
Definition try_except {A : Type} (body : M A) (handler : exn -> M A) : M A :=
  fun w =>
    match body w with
    | (inl e, w') => handler e w'
    | (inr a, w') => (inr a, w')
    end.

Notation "x <- m ;; k" := (bind m (fun x => k))
  (at level 61, m at next level, right associativity).
Notation "m ;; k" := (bind m (fun _ => k))
  (at level 61, right associativity).

(** [audio_file_id] as [if audio_file_id:] sees it: NULL and the empty
    string both mean "not bound". *)
Definition bound_submission (audio_file_id : option string) : option string :=
  match audio_file_id with
  | Some sid => if (sid =? "")%string then None else Some sid
  | None => None
  end.

Section Worker.

Variable E : Env.

(** Run one writing statement at the next clock reading. *)
Definition exec (stmt : timestamp -> store -> store) : M unit :=
  fun w =>
    (inr tt,
     {| db := stmt (clock E (ticks w)) (db w);
        ticks := S (ticks w);
        calls := calls w |}).

(** Run [create_job] at the next clock reading. *)
Definition exec_create_job (job_type : JobType)
    (input_file_path input_text audio_file_id : option string)
    (metadata : option (list (string * json))) (provider : string) : M Z :=
  fun w =>
    match create_job (clock E (ticks w)) job_type input_file_path
            input_text audio_file_id metadata provider (db w) with
    | inl e =>
        (inl e, {| db := db w; ticks := S (ticks w); calls := calls w |})
    | inr (job_id, s') =>
        (inr job_id, {| db := s'; ticks := S (ticks w); calls := calls w |})
    end.

(** Invoke a backend: the call is recorded whether it returns or not. *)
Definition invoke (c : backend_call) (answer : exn + (string * Z))
    (model_name : string) : M (string * string * Z) :=
  fun w =>
    let w' := {| db := db w; ticks := ticks w; calls := calls w ++ [c] |} in
    match answer with
    | inl e => (inl e, w')
    | inr (text, ms) => (inr (text, model_name, ms), w')
    end.

Definition transcribe_audio_local (file_path : string)
    : M (string * string * Z) :=
  invoke (CallWhisper file_path) (whisper E file_path) "whisper-large-v3".

(** An empty transcript from Deepgram is an error. *)
Definition transcribe_audio_deepgram (file_path : string)
    : M (string * string * Z) :=
  r <- invoke (CallDeepgram file_path) (deepgram E file_path)
         "deepgram-nova-2" ;;
  let '(transcript, _, _) := r in
  if (transcript =? "")%string
  then raise (mkExn OtherException "No transcript returned from Deepgram")
  else ret r.

(** [transcribe_audio]: Deepgram when asked for by name, the local model
    for every other provider. *)
Definition transcribe_audio (file_path provider : string)
    : M (string * string * Z) :=
  if (provider =? "deepgram")%string
  then transcribe_audio_deepgram file_path
  else transcribe_audio_local file_path.

Definition summarize_text (text : string) : M (string * string * Z) :=
  invoke (CallOllama text) (ollama E text) "llama3.1:8b".

(** [json.loads(job['metadata']) if job.get('metadata') else {}]. *)
Definition load_metadata (column : option json_text) : M json :=
  match column with
  | Some (TextJson v) => ret v
  | Some TextInvalid => raise (mkExn JSONDecodeError "Expecting value")
  | Some TextEmpty | None => ret (JObj [])
  end.

(** [metadata.get(key, default)]: only a dict has [get]. *)
Definition metadata_get (metadata : json) (key : string) (default : json)
    : M json :=
  match metadata with
  | JObj members => ret (dict_get key members default)
  | v =>
      raise (mkExn AttributeError
               ("'" ++ py_type_name v ++ "' object has no attribute 'get'")
               %string)
  end.

(** The worker hands [complete_job] and [fail_job] the id of a row it read
    from the table and a duration it measured
    ([int((time.time() - start_time) * 1000)]); both bind as SQLite
    integers, so each of its calls is the UPDATE statement
    ([complete_job_update], [fail_job_update]) that the call runs once
    its parameters are bound. *)

(** The [try] block of [process_job] for a transcribe job. *)
Definition run_transcribe (job : Job.t) (metadata : json) : M unit :=
  let job_id := Job.id job in
  if negb (truthy_str (Job.input_file_path job)) then
    raise (mkExn ValueError "No input file path for transcribe job")
  else
    let file_path :=
      match Job.input_file_path job with Some p => p | None => "" end in
    if negb (path_exists E file_path) then
      raise (mkExn FileNotFoundError
               ("Audio file not found: " ++ file_path)%string)
    else
      match bound_submission (Job.audio_file_id job) with
      | Some sid =>
          exec (fun now =>
                  update_audio_submission_status now sid SubTranscribing None)
      | None => ret tt
      end ;;
      r <- transcribe_audio file_path (Job.provider job) ;;
      let '(output, model, time_ms) := r in
      exec (fun now => complete_job_update now job_id output model time_ms) ;;
      match bound_submission (Job.audio_file_id job) with
      | Some sid =>
          exec (fun now =>
                  update_audio_submission_transcript now sid output job_id) ;;
          auto <- metadata_get metadata "autoSummarize" (JBool false) ;;
          if py_truthy auto then
            exec_create_job SUMMARIZE None (Some output) (Some sid)
              (Some [("autoSummarize", JBool true);
                     ("sourceJobId", JInt job_id)])
              "local" ;;
            ret tt
          else ret tt
      | None => ret tt
      end.

(** The [try] block of [process_job] for a summarize job. *)
Definition run_summarize (job : Job.t) : M unit :=
  let job_id := Job.id job in
  if negb (truthy_str (Job.input_text job)) then
    raise (mkExn ValueError "No input text for summarize job")
  else
    let text := match Job.input_text job with Some t => t | None => "" end in
    match bound_submission (Job.audio_file_id job) with
    | Some sid =>
        exec (fun now =>
                update_audio_submission_status now sid SubSummarizing None)
    | None => ret tt
    end ;;
    r <- summarize_text text ;;
    let '(output, model, time_ms) := r in
    exec (fun now => complete_job_update now job_id output model time_ms) ;;
    match bound_submission (Job.audio_file_id job) with
    | Some sid =>
        exec (fun now =>
                update_audio_submission_summary now sid output job_id)
    | None => ret tt
    end.

(** The [except] block of [process_job]. *)
Definition on_failure (job : Job.t) (e : exn) : M unit :=
  exec (fun now => fail_job_update now (Job.id job) (exn_msg e)) ;;
  match bound_submission (Job.audio_file_id job) with
  | Some sid =>
      exec (fun now =>
              update_audio_submission_status now sid SubFailed
                (Some (exn_msg e)))
  | None => ret tt
  end.

(** [process_job].  The metadata is parsed before the [try]; the final
    [else: raise ValueError("Unknown job type")] has no counterpart, the
    [job_type] column admitting the two kinds only. *)
Definition process_job (job : Job.t) : M unit :=
  metadata <- load_metadata (Job.metadata job) ;;
  try_except
    (match Job.job_type job with
     | TRANSCRIBE => run_transcribe job metadata
     | SUMMARIZE => run_summarize job
     end)
    (on_failure job).

End Worker.

(* ------------------------------------------------------------------ *)
(** ** Histories of the queue *)

(** What the schema guarantees of any database: the primary keys. *)
Definition store_wf (s : store) : Prop :=
  NoDup (map Job.id (jobs s))
  /\ NoDup (map Submission.id (audio_submissions s)).

(** The pending rows, in table order. *)
Definition pendings (rows : list Job.t) : list Job.t :=
  filter is_pending rows.

(** Successive calls of [get_next_pending_job], one per clock reading. *)
Fixpoint claim_all (times : list timestamp) (s : store)
    : list (option Job.t) * store :=
  match times with
  | [] => ([], s)
  | now :: rest =>
      let (r, s1) := get_next_pending_job now s in
      let (rs, s2) := claim_all rest s1 in
      (r :: rs, s2)
  end.

(** The arguments of one [create_job] call. *)
Record job_request := mkRequest {
  req_job_type : JobType;
  req_input_file_path : option string;
  req_input_text : option string;
  req_audio_file_id : option string;
  req_metadata : option (list (string * json));
  req_provider : string
}.

Definition enqueue (now : timestamp) (q : job_request) (s : store)
    : exn + (Z * store) :=
  create_job now (req_job_type q) (req_input_file_path q) (req_input_text q)
    (req_audio_file_id q) (req_metadata q) (req_provider q) s.

(** Successive calls of [create_job], each at its own time; the ids are
    returned in call order. *)
Fixpoint enqueue_all (reqs : list (timestamp * job_request)) (s : store)
    : exn + (list Z * store) :=
  match reqs with
  | [] => inr ([], s)
  | (now, q) :: rest =>
      match enqueue now q s with
      | inl e => inl e
      | inr (job_id, s1) =>
          match enqueue_all rest s1 with
          | inl e => inl e
          | inr (ids, s2) => inr (job_id :: ids, s2)
          end
      end
  end.

(** [t1 < t2 < ... < tn]. *)
Fixpoint increasing (ts : list timestamp) : Prop :=
  match ts with
  | [] => True
  | t :: rest =>
      match rest with
      | [] => True
      | u :: _ => t < u
      end /\ increasing rest
  end.

(** *** Concurrent claim attempts

    Every attempt runs the single statement of [get_next_pending_job];
    SQLite executes a writing statement under the database write lock, so
    the statements of concurrent connections take effect one after the
    other, in an order the callers do not choose.  A pool is the shared
    database with the state of each attempt, and a step lets any attempt
    that has not run yet run its statement, at any clock reading. *)

Inductive attempt :=
| Waiting
| Got (r : option Job.t).

Record pool := mkPool {
  shared : store;
  attempts : list attempt
}.

Fixpoint set_nth {A : Type} (i : nat) (x : A) (l : list A) : list A :=
  match l, i with
  | [], _ => []
  | _ :: t, O => x :: t
  | h :: t, S i' => h :: set_nth i' x t
  end.

Inductive claim_step : pool -> pool -> Prop :=
| claim_step_run (p : pool) (i : nat) (now : timestamp) :
    nth_error (attempts p) i = Some Waiting ->
    claim_step p
      {| shared := snd (get_next_pending_job now (shared p));
         attempts :=
           set_nth i (Got (fst (get_next_pending_job now (shared p))))
             (attempts p) |}.

Inductive claim_steps : pool -> pool -> Prop :=
| claim_steps_refl (p : pool) : claim_steps p p
| claim_steps_snoc (p q r : pool) :
    claim_steps p q -> claim_step q r -> claim_steps p r.

(** Every attempt has run. *)
Definition all_done (p : pool) : Prop :=
  Forall (fun a => a <> Waiting) (attempts p).

(** [N] attempts about to run against [s]. *)
Definition start_pool (N : nat) (s : store) : pool :=
  {| shared := s; attempts := repeat Waiting N |}.

(* ------------------------------------------------------------------ *)
(** ** Sample databases

    Concrete rows and stores on which the statements below are run. *)

(** A row as [create_job] makes it, with the given id, kind, status and
    creation time, for the provider "local". *)
Definition sample_job (job_id : Z) (job_type : JobType) (status : JobStatus)
    (created_at : timestamp) : Job.t :=
  {| Job.id := job_id;
     Job.job_type := job_type;
     Job.status := status;
     Job.provider := "local";
     Job.input_file_path := None;
     Job.input_text := None;
     Job.output_text := None;
     Job.error_message := None;
     Job.audio_file_id := None;
     Job.metadata := None;
     Job.created_at := created_at;
     Job.started_at := None;
     Job.completed_at := None;
     Job.processing_time_ms := None;
     Job.model_used := None |}.

Definition empty_store : store :=
  {| jobs := []; jobs_seq := 0; audio_submissions := [] |}.

(** One pending job, created at time 10. *)
Definition one_pending : store :=
  {| jobs := [sample_job 1 SUMMARIZE PENDING 10];
     jobs_seq := 1; audio_submissions := [] |}.

(** A finished job, then three pending ones: the last two were created in
    the same second, and the second row is younger than both. *)
Definition mixed_queue : store :=
  {| jobs := [sample_job 1 SUMMARIZE COMPLETED 5;
              sample_job 2 SUMMARIZE PENDING 30;
              sample_job 3 SUMMARIZE PENDING 20;
              sample_job 4 SUMMARIZE PENDING 20];
     jobs_seq := 4; audio_submissions := [] |}.

Definition sample_request (job_type : JobType) : job_request :=
  {| req_job_type := job_type;
     req_input_file_path := None;
     req_input_text := Some "text";
     req_audio_file_id := None;
     req_metadata := None;
     req_provider := "local" |}.

(** Three enqueues at the times 11 < 12 < 15. *)
Definition three_requests : list (timestamp * job_request) :=
  [(11, sample_request SUMMARIZE);
   (12, sample_request TRANSCRIBE);
   (15, sample_request SUMMARIZE)].

(* ------------------------------------------------------------------ *)
(** ** Reading [process_job]

    Names for what the statements about [process_job] speak of. *)

(** The backend that [transcribe_audio] invokes for a provider. *)
Definition transcribe_call (file_path provider : string) : backend_call :=
  if (provider =? "deepgram")%string
  then CallDeepgram file_path
  else CallWhisper file_path.

Definition fresh_world : world :=
  {| db := {| jobs := []; jobs_seq := 0; audio_submissions := [] |};
     ticks := 0; calls := [] |}.

(** What [transcribe_audio] returns or raises; it depends on the
    environment only. *)
Definition transcription (E : Env) (file_path provider : string)
    : exn + (string * string * Z) :=
  fst (transcribe_audio E file_path provider fresh_world).

(** What [summarize_text] returns or raises. *)
Definition summarization (E : Env) (text : string)
    : exn + (string * string * Z) :=
  fst (summarize_text E text fresh_world).

(** The dict that the first line of [process_job] binds [metadata] to,
    when it is one: [{}] for a NULL or empty column, the parsed object for
    a JSON object; nothing for any other text. *)
Definition metadata_dict (column : option json_text)
    : option (list (string * json)) :=
  match column with
  | None | Some TextEmpty => Some []
  | Some (TextJson (JObj members)) => Some members
  | Some (TextJson _) | Some TextInvalid => None
  end.

(** The world after one more backend call. *)
Definition called (c : backend_call) (w : world) : world :=
  {| db := db w; ticks := ticks w; calls := calls w ++ [c] |}.

(** The world after one more statement. *)
Definition stepped (stmt : timestamp -> store -> store) (E : Env) (w : world)
    : world :=
  {| db := stmt (clock E (ticks w)) (db w);
     ticks := S (ticks w);
     calls := calls w |}.

(** The metadata that [process_job] gives to a chained summarize job. *)
Definition chain_metadata (source_job_id : Z) : list (string * json) :=
  [("autoSummarize", JBool true); ("sourceJobId", JInt source_job_id)].

(** An environment: the clock reads 100, 101, ...; only "a.wav" exists;
    the local model hears "hello world"; Deepgram is unreachable; the
    summariser answers "summary". *)
Definition sample_env : Env :=
  {| clock := fun n => 100 + Z.of_nat n;
     path_exists := fun p => (p =? "a.wav")%string;
     whisper := fun _ => inr ("hello world", 1200);
     deepgram := fun _ => inl (mkExn OtherException "Deepgram API error: 503");
     ollama := fun _ => inr ("summary", 300) |}.

(** A submission as [create_audio_submission] makes it. *)
Definition sample_submission (submission_id : string) : Submission.t :=
  {| Submission.id := submission_id;
     Submission.filename := "a.wav";
     Submission.original_filename := None;
     Submission.file_path := "a.wav";
     Submission.mime_type := None;
     Submission.file_size := None;
     Submission.duration_seconds := None;
     Submission.transcript := None;
     Submission.transcript_job_id := None;
     Submission.transcribed_at := None;
     Submission.summary := None;
     Submission.summary_job_id := None;
     Submission.summarized_at := None;
     Submission.status := SubPending;
     Submission.error_message := None;
     Submission.metadata := None;
     Submission.created_at := 1;
     Submission.updated_at := 1 |}.

(** A claimed transcribe job for "a.wav", bound to submission "S", with
    the given provider and metadata column. *)
Definition transcribe_job (provider : string) (metadata : option json_text)
    : Job.t :=
  {| Job.id := 1;
     Job.job_type := TRANSCRIBE;
     Job.status := PROCESSING;
     Job.provider := provider;
     Job.input_file_path := Some "a.wav";
     Job.input_text := None;
     Job.output_text := None;
     Job.error_message := None;
     Job.audio_file_id := Some "S";
     Job.metadata := metadata;
     Job.created_at := 10;
     Job.started_at := Some 20;
     Job.completed_at := None;
     Job.processing_time_ms := None;
     Job.model_used := None |}.

(** The world in which the worker holds [job], claimed from a queue of
    that one job, with submission "S" on record. *)
Definition world_with (job : Job.t) (sub : Submission.t) : world :=
  {| db := {| jobs := [job]; jobs_seq := Job.id job;
              audio_submissions := [sub] |};
     ticks := 0;
     calls := [] |}.

Definition auto_summarize (v : json) : option json_text :=
  Some (TextJson (JObj [("autoSummarize", v)])).

(** The world after the status announcement that precedes the backend
    call, made for a bound job only. *)
Definition announced (E : Env) (job : Job.t) (st : SubmissionStatus)
    (w : world) : world :=
  match bound_submission (Job.audio_file_id job) with
  | Some sid =>
      stepped (fun now => update_audio_submission_status now sid st None) E w
  | None => w
  end.

(** The world after the [except] block has handled [e]. *)
Definition failed_world (E : Env) (job : Job.t) (e : exn) (w : world)
    : world :=
  let w1 := stepped (fun now => fail_job_update now (Job.id job) (exn_msg e)) E w in
  match bound_submission (Job.audio_file_id job) with
  | Some sid =>
      stepped (fun now =>
                 update_audio_submission_status now sid SubFailed
                   (Some (exn_msg e))) E w1
  | None => w1
  end.

(** A claimed summarize job for the text "hello world", bound to "S". *)
Definition summarize_job : Job.t :=
  {| Job.id := 2;
     Job.job_type := SUMMARIZE;
     Job.status := PROCESSING;
     Job.provider := "local";
     Job.input_file_path := None;
     Job.input_text := Some "hello world";
     Job.output_text := None;
     Job.error_message := None;
     Job.audio_file_id := Some "S";
     Job.metadata := None;
     Job.created_at := 60;
     Job.started_at := Some 70;
     Job.completed_at := None;
     Job.processing_time_ms := None;
     Job.model_used := None |}.

(** [sample_env] with a summariser that raises the given exception. *)
Definition failing_summary_env (e : exn) : Env :=
  {| clock := clock sample_env;
     path_exists := path_exists sample_env;
     whisper := whisper sample_env;
     deepgram := deepgram sample_env;
     ollama := fun _ => inl e |}.

(** Submission "S" once its transcript "hello world" is on record. *)
Definition transcribed_submission : Submission.t :=
  transcribed 50 "hello world" 1 (sample_submission "S").

(* ------------------------------------------------------------------ *)
(** ** Invariants *)

(** The order of the index scan, and tables whose pending rows already
    come in that order. *)
Definition scan_le (a b : Job.t) : Prop := scan_before a b = true.

Inductive scan_sorted : list Job.t -> Prop :=
| scan_sorted_nil : scan_sorted []
| scan_sorted_cons (a : Job.t) (l : list Job.t) :
    Forall (scan_le a) l -> scan_sorted l -> scan_sorted (a :: l).

(** What every reachable pool satisfies: the ids stay unique, a row that
    an attempt received is no longer pending in the shared database, and
    no two attempts received rows with the same id. *)
Definition claims_disjoint (p : pool) : Prop :=
  NoDup (map Job.id (jobs (shared p)))
  /\ (forall i a,
        nth_error (attempts p) i = Some (Got (Some a)) ->
        exists r, In r (jobs (shared p)) /\ Job.id r = Job.id a
                  /\ is_pending r = false)
  /\ (forall i k a b,
        i <> k ->
        nth_error (attempts p) i = Some (Got (Some a)) ->
        nth_error (attempts p) k = Some (Got (Some b)) ->
        Job.id a <> Job.id b).

(** How a pool of [N] attempts on a queue whose only pending job is [j0]
    can look: nobody has run yet, or one attempt holds [j0], nothing is
    pending any more, and every other attempt is still waiting or came
    back empty. *)
Definition one_claim_state (N : nat) (s : store) (j0 : Job.t) (p : pool)
    : Prop :=
  List.length (attempts p) = N
  /\ ((shared p = s /\ attempts p = repeat Waiting N)
      \/ (pendings (jobs (shared p)) = []
          /\ exists i now,
               nth_error (attempts p) i = Some (Got (Some (claimed now j0)))
               /\ forall k, k <> i -> (k < N)%nat ->
                    nth_error (attempts p) k = Some Waiting
                    \/ nth_error (attempts p) k = Some (Got None))).

(* ------------------------------------------------------------------ *)
(** ** The worker loop *)

(** One pass through the body of the [while True] loop of [run_worker]:
    claim, and process what was claimed.  A row dict is never empty, so
    [if job:] tests for [None] only.  An exception that escapes
    [process_job] is caught by the loop's [except Exception], which logs
    and sleeps: the world is the one reached when it was raised.  The
    sleeps are not modelled, the clock being the environment's; neither
    is [KeyboardInterrupt], which only ends the loop between two
    effects. *)
Definition worker_iteration (E : Env) (w : world) : world :=
  let (r, s1) := get_next_pending_job (clock E (ticks w)) (db w) in
  let w1 := {| db := s1; ticks := S (ticks w); calls := calls w |} in
  match r with
  | Some job => snd (process_job E job w1)
  | None => w1
  end.

(** The world after the first [n] passes of the loop. *)
Fixpoint worker_iterations (E : Env) (n : nat) (w : world) : world :=
  match n with
  | O => w
  | S n' => worker_iterations E n' (worker_iteration E w)
  end.

(** The passes a pending row can still cost the worker: one for itself
    and, for a transcribe job, one for the summarize job it may chain. *)
Definition job_work (r : Job.t) : nat :=
  match Job.status r, Job.job_type r with
  | PENDING, TRANSCRIBE => 2
  | PENDING, SUMMARIZE => 1
  | _, _ => 0
  end.

Definition queue_work (rows : list Job.t) : nat :=
  fold_right (fun r n => (job_work r + n)%nat) O rows.

(** What [process_job] may do to the database on behalf of [job]: rewrite
    the rows of its id to a terminal status, append at most one pending
    summarize row under an id above all others, and that only for a
    transcribe job, and keep the submissions' keys. *)
Definition job_effect (job : Job.t) (before after : store) : Prop :=
  exists (g : Job.t -> Job.t) (extra : list Job.t),
    jobs after = update_job (Job.id job) g (jobs before) ++ extra
    /\ (forall r, Job.id (g r) = Job.id r)
    /\ (forall r, Job.status (g r) = COMPLETED \/ Job.status (g r) = FAILED)
    /\ (extra = []
        \/ exists row,
             extra = [row]
             /\ Job.job_type job = TRANSCRIBE
             /\ Job.job_type row = SUMMARIZE
             /\ Job.status row = PENDING
             /\ forall r, In r (jobs before) -> Job.id r < Job.id row)
    /\ map Submission.id (audio_submissions after)
       = map Submission.id (audio_submissions before).

(** The database [s'] differs from [s] at most in the rows of one job id,
    rewritten by some [g], [terminal] telling whether [g] leaves them
    completed or failed; the submissions keep their keys. *)
Definition touched (terminal : bool) (job_id : Z) (s s' : store) : Prop :=
  exists g : Job.t -> Job.t,
    jobs s' = update_job job_id g (jobs s)
    /\ (forall r, Job.id (g r) = Job.id r)
    /\ (terminal = true ->
        forall r, Job.status (g r) = COMPLETED \/ Job.status (g r) = FAILED)
    /\ map Submission.id (audio_submissions s')
       = map Submission.id (audio_submissions s).

(** A queue holding one pending transcribe job for "a.wav", bound to
    submission "S" and asking for a summary, next to a job that another
    worker left in processing. *)
Definition pipeline_world : world :=
  {| db :=
       {| jobs :=
            [sample_job 1 SUMMARIZE PROCESSING 5;
             {| Job.id := 2;
                Job.job_type := TRANSCRIBE;
                Job.status := PENDING;
                Job.provider := "local";
                Job.input_file_path := Some "a.wav";
                Job.input_text := None;
                Job.output_text := None;
                Job.error_message := None;
                Job.audio_file_id := Some "S";
                Job.metadata := auto_summarize (JBool true);
                Job.created_at := 10;
                Job.started_at := None;
                Job.completed_at := None;
                Job.processing_time_ms := None;
                Job.model_used := None |}];
          jobs_seq := 2;
          audio_submissions := [sample_submission "S"] |};
     ticks := 0;
     calls := [] |}.

(** [sample_env] with a Deepgram that answers the given transcript. *)
Definition deepgram_env (transcript : string) : Env :=
  {| clock := clock sample_env;
     path_exists := path_exists sample_env;
     whisper := whisper sample_env;
     deepgram := fun _ => inr (transcript, 800);
     ollama := ollama sample_env |}.

(** Two jobs completed in 2 ms and in 3 ms, and a pending one. *)
Definition timed_queue : store :=
  {| jobs := [completed 50 "a" "llama3.1:8b" 2 (sample_job 1 SUMMARIZE PROCESSING 5);
              completed 60 "b" "llama3.1:8b" 3 (sample_job 2 SUMMARIZE PROCESSING 6);
              sample_job 3 SUMMARIZE PENDING 7];
     jobs_seq := 3; audio_submissions := [] |}.

(** The pending job of [pipeline_world]. *)
Definition pipeline_job : Job.t :=
  {| Job.id := 2;
     Job.job_type := TRANSCRIBE;
     Job.status := PENDING;
     Job.provider := "local";
     Job.input_file_path := Some "a.wav";
     Job.input_text := None;
     Job.output_text := None;
     Job.error_message := None;
     Job.audio_file_id := Some "S";
     Job.metadata := auto_summarize (JBool true);
     Job.created_at := 10;
     Job.started_at := None;
     Job.completed_at := None;
     Job.processing_time_ms := None;
     Job.model_used := None |}.

(** [sample_env] with a local model that hears nothing. *)
Definition silent_env : Env :=
  {| clock := clock sample_env;
     path_exists := path_exists sample_env;
     whisper := fun _ => inr ("", 900);
     deepgram := deepgram sample_env;
     ollama := ollama sample_env |}.

(* ================================================================== *)
(** * Properties *)

(** Well-formedness of a concrete store. *)
Ltac solve_wf :=
  split; simpl;
  repeat (constructor; [simpl; intuition (discriminate || lia) |]);
  constructor.

(** ** Basic facts *)

Lemma JobStatus_eqb_eq (a b : JobStatus) : JobStatus_eqb a b = true <-> a = b.
Proof. destruct a, b; simpl; split; intro H; congruence. Qed.

Lemma is_pending_true (r : Job.t) : is_pending r = true <-> Job.status r = PENDING.
Proof. apply JobStatus_eqb_eq. Qed.

Lemma is_pending_false (r : Job.t) :
  is_pending r = false <-> Job.status r <> PENDING.
Proof.
  unfold is_pending. destruct (Job.status r); simpl; split; intro H; congruence.
Qed.

Lemma scan_before_iff (a b : Job.t) :
  scan_before a b = true <->
  Job.created_at a < Job.created_at b
  \/ (Job.created_at a = Job.created_at b /\ Job.id a <= Job.id b).
Proof.
  unfold scan_before.
  rewrite orb_true_iff, andb_true_iff, Z.ltb_lt, Z.eqb_eq, Z.leb_le.
  reflexivity.
Qed.

Lemma scan_before_total (a b : Job.t) :
  scan_before a b = false -> scan_before b a = true.
Proof.
  intro H. apply scan_before_iff.
  destruct (scan_before_iff a b) as [_ Hba].
  destruct (Z.lt_trichotomy (Job.created_at a) (Job.created_at b))
    as [Hlt | [Heq | Hgt]].
  - rewrite Hba in H by (left; exact Hlt). discriminate.
  - destruct (Z.le_gt_cases (Job.id a) (Job.id b)) as [Hle | Hgt].
    + rewrite Hba in H by (right; split; assumption). discriminate.
    + right. split; lia.
  - left. lia.
Qed.

Lemma scan_before_trans (a b c : Job.t) :
  scan_before a b = true -> scan_before b c = true -> scan_before a c = true.
Proof. rewrite !scan_before_iff. lia. Qed.

Lemma scan_before_refl (a : Job.t) : scan_before a a = true.
Proof. apply scan_before_iff. right. split; lia. Qed.

(** The row picked by the SELECT is a pending row of the table that comes
    first in the index scan. *)
Lemma oldest_pending_some (rows : list Job.t) (j : Job.t) :
  oldest_pending rows = Some j ->
  In j rows /\ is_pending j = true
  /\ forall r, In r rows -> is_pending r = true -> scan_before j r = true.
Proof.
  revert j. induction rows as [| r rest IH]; intros j H; simpl in H.
  - discriminate.
  - destruct (is_pending r) eqn:Hr.
    + destruct (oldest_pending rest) as [b |] eqn:Hb.
      * destruct (IH b eq_refl) as (Hin & Hpb & Hmin).
        destruct (scan_before r b) eqn:Hrb; inversion H; subst j; clear H.
        -- split; [left; reflexivity | split; [exact Hr |]].
           intros x [Hx | Hx] Hpx.
           ++ subst x. apply scan_before_refl.
           ++ apply scan_before_trans with b; auto.
        -- split; [right; exact Hin | split; [exact Hpb |]].
           intros x [Hx | Hx] Hpx.
           ++ subst x. apply scan_before_total. exact Hrb.
           ++ auto.
      * inversion H; subst j; clear H.
        split; [left; reflexivity | split; [exact Hr |]].
        intros x [Hx | Hx] Hpx.
        -- subst x. apply scan_before_refl.
        -- exfalso. clear IH. induction rest as [| y rest IHr].
           ++ destruct Hx.
           ++ simpl in Hb. destruct (is_pending y) eqn:Hy.
              ** destruct (oldest_pending rest) as [b |];
                   [destruct (scan_before y b) |]; discriminate.
              ** destruct Hx as [Hx | Hx]; [subst; congruence | auto].
    + destruct (IH j H) as (Hin & Hpj & Hmin).
      split; [right; exact Hin | split; [exact Hpj |]].
      intros x [Hx | Hx] Hpx; [subst; congruence | auto].
Qed.

Lemma oldest_pending_none (rows : list Job.t) :
  oldest_pending rows = None <->
  forall r, In r rows -> is_pending r = false.
Proof.
  induction rows as [| r rest IH]; simpl.
  - split; [intros _ x [] | reflexivity].
  - destruct (is_pending r) eqn:Hr.
    + split.
      * destruct (oldest_pending rest) as [b |];
          [destruct (scan_before r b) |]; discriminate.
      * intro H. rewrite (H r) in Hr by (left; reflexivity). discriminate.
    + rewrite IH. split.
      * intros H x [Hx | Hx]; [subst; exact Hr | auto].
      * intros H x Hx. apply H. right. exact Hx.
Qed.

Lemma update_job_ids (job_id : Z) (f : Job.t -> Job.t) (rows : list Job.t) :
  (forall r, Job.id (f r) = Job.id r) ->
  map Job.id (update_job job_id f rows) = map Job.id rows.
Proof.
  intro Hf. unfold update_job. rewrite map_map. apply map_ext.
  intro r. destruct (Job.id r =? job_id); [apply Hf | reflexivity].
Qed.

Lemma update_job_absent (job_id : Z) (f : Job.t -> Job.t) (rows : list Job.t) :
  ~ In job_id (map Job.id rows) -> update_job job_id f rows = rows.
Proof.
  intro H. unfold update_job. rewrite <- (map_id rows) at 2.
  apply map_ext_in. intros r Hr.
  destruct (Job.id r =? job_id) eqn:He; [| reflexivity].
  exfalso. apply H. apply Z.eqb_eq in He. subst job_id.
  apply in_map. exact Hr.
Qed.

Lemma update_job_length (job_id : Z) (f : Job.t -> Job.t) (rows : list Job.t) :
  List.length (update_job job_id f rows) = List.length rows.
Proof. apply length_map. Qed.

(** With unique ids, the rows an id selects are the one row carrying it. *)
Lemma filter_id_unique (rows : list Job.t) (j : Job.t) :
  NoDup (map Job.id rows) -> In j rows ->
  filter (fun r => Job.id r =? Job.id j) rows = [j].
Proof.
  induction rows as [| r rest IH]; intros Hnd Hin; simpl in *.
  - destruct Hin.
  - inversion Hnd as [| x l Hnotin Hnd']; subst.
    destruct Hin as [Hin | Hin].
    + subst r. rewrite Z.eqb_refl. f_equal.
      clear IH Hnd Hnd'. induction rest as [| y rest IHr]; simpl.
      * reflexivity.
      * destruct (Job.id y =? Job.id j) eqn:He.
        -- exfalso. apply Hnotin. left. apply Z.eqb_eq. exact He.
        -- apply IHr. intro H. apply Hnotin. right. exact H.
    + destruct (Job.id r =? Job.id j) eqn:He.
      * exfalso. apply Hnotin. apply Z.eqb_eq in He. rewrite He.
        apply in_map. exact Hin.
      * apply IH; assumption.
Qed.

(** A row found in the table is rewritten to [f j] by the UPDATE, and a
    row with another id is kept. *)
Lemma update_job_in (job_id : Z) (f : Job.t -> Job.t) (rows : list Job.t)
    (r : Job.t) :
  In r rows ->
  In (if Job.id r =? job_id then f r else r) (update_job job_id f rows).
Proof.
  intro H. unfold update_job.
  apply (in_map (fun r => if Job.id r =? job_id then f r else r)) in H.
  exact H.
Qed.

Lemma update_job_inv (job_id : Z) (f : Job.t -> Job.t) (rows : list Job.t)
    (x : Job.t) :
  In x (update_job job_id f rows) ->
  exists r, In r rows /\ x = (if Job.id r =? job_id then f r else r).
Proof.
  unfold update_job. rewrite in_map_iff. intros (r & Hx & Hr).
  exists r. split; [exact Hr | symmetry; exact Hx].
Qed.

(** ** Claiming *)

Lemma claimed_id (now : timestamp) (r : Job.t) :
  Job.id (claimed now r) = Job.id r.
Proof. reflexivity. Qed.

Lemma no_pending_rows (rows : list Job.t) :
  (forall r, In r rows -> Job.status r <> PENDING) <-> pendings rows = [].
Proof.
  unfold pendings. induction rows as [| r rest IH]; simpl.
  - split; [reflexivity | intros _ x []].
  - destruct (is_pending r) eqn:Hr.
    + split; [| discriminate].
      intro H. exfalso. apply (H r); [left; reflexivity |].
      apply is_pending_true. exact Hr.
    + rewrite <- IH. split.
      * intros H x Hx. apply H. right. exact Hx.
      * intros H x [Hx | Hx]; [subst; apply is_pending_false; exact Hr | auto].
Qed.

(** A claim on a table without pending rows. *)
Lemma claim_none (now : timestamp) (s : store) :
  pendings (jobs s) = [] -> get_next_pending_job now s = (None, s).
Proof.
  intro H. unfold get_next_pending_job.
  assert (Hn : oldest_pending (jobs s) = None).
  { apply oldest_pending_none. intros r Hr. apply is_pending_false.
    apply (proj2 (no_pending_rows (jobs s)) H). exact Hr. }
  rewrite Hn. reflexivity.
Qed.

(** A claim on a table where the SELECT finds [j]. *)
Lemma claim_some (now : timestamp) (s : store) (j : Job.t) :
  NoDup (map Job.id (jobs s)) ->
  oldest_pending (jobs s) = Some j ->
  get_next_pending_job now s
  = (Some (claimed now j),
     with_jobs (update_job (Job.id j) (claimed now) (jobs s)) s).
Proof.
  intros Hnd Hj. unfold get_next_pending_job. rewrite Hj.
  destruct (oldest_pending_some _ _ Hj) as (Hin & _ & _).
  rewrite (filter_id_unique _ _ Hnd Hin). reflexivity.
Qed.

Lemma claim_keeps_wf (now : timestamp) (s : store) :
  store_wf s -> store_wf (snd (get_next_pending_job now s)).
Proof.
  intros [Hj Hs]. unfold get_next_pending_job.
  destruct (oldest_pending (jobs s)) as [j |]; cbn [snd].
  - split; cbn [jobs audio_submissions with_jobs]; [| exact Hs].
    rewrite update_job_ids; [exact Hj | intro r; reflexivity].
  - split; assumption.
Qed.

Lemma scan_sorted_snoc (l : list Job.t) (x : Job.t) :
  scan_sorted l -> Forall (fun a => scan_le a x) l -> scan_sorted (l ++ [x]).
Proof.
  induction 1 as [| a l Ha Hs IH]; intro Hx; simpl.
  - constructor; [constructor | constructor].
  - inversion Hx; subst. constructor.
    + apply Forall_app. split; [exact Ha | constructor; [assumption | constructor]].
    + apply IH. assumption.
Qed.

Lemma oldest_pending_head (rows : list Job.t) :
  scan_sorted (pendings rows) ->
  oldest_pending rows = hd_error (pendings rows).
Proof.
  unfold pendings. induction rows as [| r rest IH]; simpl; intro Hs.
  - reflexivity.
  - destruct (is_pending r) eqn:Hr.
    + inversion Hs as [| a l Ha Hs']; subst.
      rewrite (IH Hs'). simpl.
      destruct (filter is_pending rest) as [| b tl]; simpl.
      * reflexivity.
      * inversion Ha as [| x y Hab _]; subst.
        unfold scan_le in Hab. rewrite Hab. reflexivity.
    + apply IH. exact Hs.
Qed.

Lemma pendings_after_claim (now : timestamp) (job_id : Z)
    (rows : list Job.t) :
  pendings (update_job job_id (claimed now) rows)
  = filter (fun r => negb (Job.id r =? job_id)) (pendings rows).
Proof.
  unfold pendings, update_job. induction rows as [| r rest IH]; simpl.
  - reflexivity.
  - destruct (Job.id r =? job_id) eqn:He.
    + change (is_pending (claimed now r)) with false. cbv iota.
      destruct (is_pending r); simpl; [rewrite He; simpl |]; exact IH.
    + destruct (is_pending r); simpl; [rewrite He; simpl; f_equal |]; exact IH.
Qed.

Lemma pendings_ids_unique (rows : list Job.t) :
  NoDup (map Job.id rows) -> NoDup (map Job.id (pendings rows)).
Proof.
  unfold pendings. induction rows as [| r rest IH]; simpl; intro H.
  - constructor.
  - inversion H as [| x y Hnotin Hnd]; subst.
    destruct (is_pending r); simpl; [constructor |]; auto.
    intro Hin. apply Hnotin. apply in_map_iff in Hin.
    destruct Hin as (x & Hx & Hxin). apply filter_In in Hxin.
    rewrite <- Hx. apply in_map. tauto.
Qed.

Lemma pendings_tail_after_claim (now : timestamp) (rows : list Job.t)
    (j : Job.t) (tl : list Job.t) :
  NoDup (map Job.id rows) -> pendings rows = j :: tl ->
  pendings (update_job (Job.id j) (claimed now) rows) = tl.
Proof.
  intros Hnd Hp. rewrite pendings_after_claim, Hp. simpl.
  rewrite Z.eqb_refl. simpl.
  assert (Hnd' : NoDup (map Job.id (j :: tl))).
  { rewrite <- Hp. apply pendings_ids_unique. exact Hnd. }
  simpl in Hnd'. inversion Hnd' as [| x y Hnotin _]; subst.
  clear Hnd' Hp. induction tl as [| a tl IH]; simpl.
  - reflexivity.
  - destruct (Job.id a =? Job.id j) eqn:He.
    + exfalso. apply Hnotin. left. apply Z.eqb_eq. exact He.
    + simpl. f_equal. apply IH. intro H. apply Hnotin. right. exact H.
Qed.

(** Successive claims hand out the pending rows of a scan-ordered table
    from its head. *)
Lemma claim_all_in_order (times : list timestamp) (s : store) :
  NoDup (map Job.id (jobs s)) ->
  scan_sorted (pendings (jobs s)) ->
  (List.length times <= List.length (pendings (jobs s)))%nat ->
  map (option_map Job.id) (fst (claim_all times s))
  = map (fun j => Some (Job.id j))
      (firstn (List.length times) (pendings (jobs s))).
Proof.
  revert s. induction times as [| now rest IH]; intros s Hnd Hs Hlen; simpl.
  - reflexivity.
  - destruct (pendings (jobs s)) as [| j tl] eqn:Hp; simpl in Hlen; [lia |].
    assert (Hs' : scan_sorted tl) by (inversion Hs; assumption).
    assert (Hj : oldest_pending (jobs s) = Some j).
    { rewrite oldest_pending_head by (rewrite Hp; exact Hs).
      rewrite Hp. reflexivity. }
    rewrite (claim_some now s j Hnd Hj).
    set (s1 := with_jobs (update_job (Job.id j) (claimed now) (jobs s)) s).
    assert (Hp1 : pendings (jobs s1) = tl).
    { apply pendings_tail_after_claim; assumption. }
    assert (Hnd1 : NoDup (map Job.id (jobs s1))).
    { simpl. rewrite update_job_ids; [exact Hnd | intro r; reflexivity]. }
    specialize (IH s1 Hnd1).
    rewrite Hp1 in IH. specialize (IH Hs' ltac:(lia)).
    destruct (claim_all rest s1) as [rs s2]. simpl in *.
    f_equal. exact IH.
Qed.

(** ** Enqueuing *)

Lemma max_id_bound (rows : list Job.t) (r : Job.t) :
  In r rows -> Job.id r <= max_id rows.
Proof.
  unfold max_id. induction rows as [| a rest IH]; simpl; intro H.
  - destruct H.
  - destruct H as [H | H]; [subst; lia | specialize (IH H); lia].
Qed.

Lemma NoDup_snoc {A : Type} (l : list A) (x : A) :
  NoDup l -> ~ In x l -> NoDup (l ++ [x]).
Proof.
  induction l as [| a l IH]; simpl; intros Hnd Hx.
  - constructor; [intros [] | constructor].
  - inversion Hnd as [| y z Hnotin Hnd']; subst. constructor.
    + rewrite in_app_iff. intros [H | [H | []]]; [auto | subst; auto].
    + apply IH; auto.
Qed.

Lemma next_job_id_fresh (s : store) (r : Job.t) :
  In r (jobs s) -> Job.id r < next_job_id s.
Proof.
  intro H. apply max_id_bound in H. unfold next_job_id. lia.
Qed.

(** What an accepted [create_job] does to the database: one row appended,
    pending, carrying the arguments, under a fresh id. *)
Lemma create_job_accepted (now : timestamp) (job_type : JobType)
    (input_file_path input_text audio_file_id : option string)
    (metadata : option (list (string * json))) (provider : string)
    (s : store) :
  provider_allowed provider = true ->
  exists row,
    create_job now job_type input_file_path input_text audio_file_id
      metadata provider s
    = inr (next_job_id s,
           {| jobs := jobs s ++ [row]; jobs_seq := next_job_id s;
              audio_submissions := audio_submissions s |})
    /\ Job.id row = next_job_id s
    /\ Job.status row = PENDING
    /\ Job.job_type row = job_type
    /\ Job.provider row = provider
    /\ Job.input_file_path row = input_file_path
    /\ Job.input_text row = input_text
    /\ Job.audio_file_id row = audio_file_id
    /\ Job.created_at row = now
    /\ Job.metadata row
       = match metadata with
         | Some (m :: ms) => Some (TextJson (JObj (m :: ms)))
         | _ => None
         end
    /\ metadata_dict (Job.metadata row)
       = Some (match metadata with Some m => m | None => [] end)
    /\ Job.output_text row = None
    /\ Job.error_message row = None
    /\ Job.started_at row = None
    /\ Job.completed_at row = None
    /\ Job.processing_time_ms row = None
    /\ Job.model_used row = None.
Proof.
  intro Hp. unfold create_job. rewrite Hp.
  eexists. split; [reflexivity |]. simpl.
  repeat split; try reflexivity.
  destruct metadata as [[| m ms] |]; reflexivity.
Qed.

Lemma create_job_rejected (now : timestamp) (job_type : JobType)
    (input_file_path input_text audio_file_id : option string)
    (metadata : option (list (string * json))) (provider : string)
    (s : store) :
  provider_allowed provider = false ->
  exists e,
    create_job now job_type input_file_path input_text audio_file_id
      metadata provider s = inl e
    /\ exn_cls e = IntegrityError.
Proof.
  intro Hp. unfold create_job. rewrite Hp. eexists. split; reflexivity.
Qed.

Lemma create_job_keeps_wf (now : timestamp) (job_type : JobType)
    (input_file_path input_text audio_file_id : option string)
    (metadata : option (list (string * json))) (provider : string)
    (s s' : store) (job_id : Z) :
  store_wf s ->
  create_job now job_type input_file_path input_text audio_file_id
    metadata provider s = inr (job_id, s') ->
  store_wf s'.
Proof.
  intros [Hj Hs] H. unfold create_job in H.
  destruct (provider_allowed provider); [| discriminate].
  inversion H; subst; clear H. split; simpl; [| exact Hs].
  rewrite map_app. simpl. apply NoDup_snoc; [exact Hj |].
  intro Hin. apply in_map_iff in Hin. destruct Hin as (r & Hr & Hin).
  apply next_job_id_fresh in Hin. lia.
Qed.

Lemma pendings_app (l1 l2 : list Job.t) :
  pendings (l1 ++ l2) = pendings l1 ++ pendings l2.
Proof. apply filter_app. Qed.

Lemma pendings_in (rows : list Job.t) (r : Job.t) :
  In r (pendings rows) <-> In r rows /\ Job.status r = PENDING.
Proof.
  unfold pendings. rewrite filter_In, is_pending_true. reflexivity.
Qed.

(** Enqueuing at increasing times, none earlier than a pending row, keeps
    the pending rows in scan order and appends the new ids to them. *)
Lemma enqueue_all_pendings (reqs : list (timestamp * job_request)) :
  forall (s s1 : store) (ids : list Z),
    enqueue_all reqs s = inr (ids, s1) ->
    NoDup (map Job.id (jobs s)) ->
    scan_sorted (pendings (jobs s)) ->
    increasing (map fst reqs) ->
    (forall t r, hd_error (map fst reqs) = Some t ->
                 In r (pendings (jobs s)) -> Job.created_at r <= t) ->
    NoDup (map Job.id (jobs s1))
    /\ scan_sorted (pendings (jobs s1))
    /\ map Job.id (pendings (jobs s1))
       = map Job.id (pendings (jobs s)) ++ ids.
Proof.
  induction reqs as [| [now q] rest IH]; intros s s1 ids He Hnd Hs Hinc Hold.
  - simpl in He. inversion He; subst. rewrite app_nil_r. auto.
  - simpl in He. destruct (enqueue now q s) as [e | [job_id s']] eqn:Hq;
      [discriminate |].
    destruct (enqueue_all rest s') as [e | [ids' s2]] eqn:Hrest;
      [discriminate |].
    inversion He; subst; clear He.
    unfold enqueue, create_job in Hq.
    destruct (provider_allowed (req_provider q)); [| discriminate].
    inversion Hq; subst; clear Hq.
    set (row := Job.mk (next_job_id s) (req_job_type q) PENDING
                  (req_provider q) (req_input_file_path q)
                  (req_input_text q) None None (req_audio_file_id q)
                  match req_metadata q with
                  | Some (m :: ms) => Some (TextJson (JObj (m :: ms)))
                  | _ => None
                  end
                  now None None None None) in *.
    assert (Hp : pendings (jobs s ++ [row]) = pendings (jobs s) ++ [row]).
    { rewrite pendings_app. reflexivity. }
    simpl in Hinc. destruct Hinc as [Hnext Hinc].
    specialize (IH _ _ _ Hrest). cbn [jobs] in IH. rewrite Hp in IH.
    destruct IH as (Hnd1 & Hs1 & Hids).
    + rewrite map_app. simpl. apply NoDup_snoc; [exact Hnd |].
      intro Hin. apply in_map_iff in Hin. destruct Hin as (r & Hr & Hin).
      apply next_job_id_fresh in Hin. lia.
    + apply scan_sorted_snoc; [exact Hs |].
      apply Forall_forall. intros a Ha.
      apply scan_before_iff.
      assert (Hle : Job.created_at a <= now) by (apply Hold; [reflexivity | exact Ha]).
      apply pendings_in in Ha. destruct Ha as [Ha _].
      apply next_job_id_fresh in Ha. simpl. lia.
    + exact Hinc.
    + intros t r Ht Hr. destruct (map fst rest) as [| u us] eqn:Hm;
        [discriminate |].
      simpl in Ht. inversion Ht; subst u.
      apply in_app_iff in Hr. destruct Hr as [Hr | [Hr | []]].
      * assert (Job.created_at r <= now) by (apply Hold; [reflexivity | exact Hr]).
        lia.
      * subst r. simpl. lia.
    + split; [exact Hnd1 | split; [exact Hs1 |]].
      rewrite Hids, map_app, <- app_assoc. reflexivity.
Qed.

(** First in, first out: jobs enqueued at increasing times into a queue
    without pending rows are claimed in the order of their enqueuing. *)
Lemma claims_follow_enqueue_order (s s1 : store)
    (reqs : list (timestamp * job_request)) (ids : list Z)
    (times : list timestamp) :
  NoDup (map Job.id (jobs s)) ->
  pendings (jobs s) = [] ->
  increasing (map fst reqs) ->
  enqueue_all reqs s = inr (ids, s1) ->
  List.length times = List.length reqs ->
  map (option_map Job.id) (fst (claim_all times s1)) = map Some ids.
Proof.
  intros Hnd Hnone Hinc He Hlen.
  destruct (enqueue_all_pendings reqs s s1 ids He Hnd) as (Hnd1 & Hs1 & Hids).
  - rewrite Hnone. constructor.
  - exact Hinc.
  - intros t r _ Hr. rewrite Hnone in Hr. destruct Hr.
  - rewrite Hnone in Hids. simpl in Hids.
    assert (Hn : List.length ids = List.length reqs).
    { clear - He. revert s s1 ids He.
      induction reqs as [| [now q] rest IH]; intros s s1 ids He; simpl in He.
      - inversion He. reflexivity.
      - destruct (enqueue now q s) as [e | [job_id s']]; [discriminate |].
        destruct (enqueue_all rest s') as [e | [ids' s2]] eqn:Hrest;
          [discriminate |].
        inversion He; subst. simpl. f_equal. eapply IH. exact Hrest. }
    assert (Hl : List.length (pendings (jobs s1)) = List.length times).
    { rewrite <- (length_map Job.id), Hids. lia. }
    rewrite claim_all_in_order; [| exact Hnd1 | exact Hs1 | lia].
    rewrite <- Hl, firstn_all, <- Hids, map_map. reflexivity.
Qed.

(** *** Claims on any queue come out oldest first *)

Lemma claim_all_step (now : timestamp) (rest : list timestamp) (s : store) :
  claim_all (now :: rest) s
  = (fst (get_next_pending_job now s)
       :: fst (claim_all rest (snd (get_next_pending_job now s))),
     snd (claim_all rest (snd (get_next_pending_job now s)))).
Proof.
  simpl. destruct (get_next_pending_job now s) as [r s1]. simpl.
  destruct (claim_all rest s1) as [rs s2]. reflexivity.
Qed.

(** Every row that successive claims return is a pending row of the
    queue they started from, as claimed. *)
Lemma claim_all_from_pendings (times : list timestamp) :
  forall (s : store) (a : Job.t),
    NoDup (map Job.id (jobs s)) ->
    In (Some a) (fst (claim_all times s)) ->
    exists r t, In r (pendings (jobs s)) /\ a = claimed t r.
Proof.
  induction times as [| now rest IH]; intros s a Hnd Hin.
  - destruct Hin.
  - rewrite claim_all_step in Hin. cbn [fst] in Hin.
    destruct (oldest_pending (jobs s)) as [j |] eqn:Hj.
    + rewrite (claim_some now s j Hnd Hj) in Hin. cbn [fst snd] in Hin.
      destruct (oldest_pending_some _ _ Hj) as (Hjin & Hpj & _).
      destruct Hin as [Hin | Hin].
      * inversion Hin; subst a. exists j, now. split; [| reflexivity].
        apply pendings_in. split; [exact Hjin |].
        apply is_pending_true. exact Hpj.
      * apply IH in Hin.
        -- destruct Hin as (r & t & Hr & Ha). exists r, t.
           split; [| exact Ha].
           cbn [with_jobs jobs] in Hr. rewrite pendings_after_claim in Hr.
           apply filter_In in Hr. tauto.
        -- cbn [with_jobs jobs]. rewrite update_job_ids by reflexivity.
           exact Hnd.
    + unfold get_next_pending_job in Hin. rewrite Hj in Hin.
      cbn [fst snd] in Hin. destruct Hin as [Hin | Hin]; [discriminate |].
      apply (IH s a Hnd Hin).
Qed.

Lemma claim_all_oldest_first (times : list timestamp) :
  forall (s : store) (i k : nat) (a b : Job.t),
    NoDup (map Job.id (jobs s)) ->
    (i < k)%nat ->
    nth_error (fst (claim_all times s)) i = Some (Some a) ->
    nth_error (fst (claim_all times s)) k = Some (Some b) ->
    scan_before a b = true /\ Job.id a <> Job.id b.
Proof.
  induction times as [| now rest IH]; intros s i k a b Hnd Hik Ha Hb.
  - destruct i; discriminate Ha.
  - rewrite claim_all_step in Ha, Hb. cbn [fst] in Ha, Hb.
    destruct k as [| k]; [lia |]. cbn [nth_error] in Hb.
    assert (Hnd1 : NoDup (map Job.id
                            (jobs (snd (get_next_pending_job now s))))).
    { unfold get_next_pending_job.
      destruct (oldest_pending (jobs s)); cbn [snd with_jobs jobs];
        [rewrite update_job_ids by reflexivity |]; exact Hnd. }
    destruct i as [| i].
    + cbn [nth_error] in Ha.
      destruct (oldest_pending (jobs s)) as [j |] eqn:Hj.
      * rewrite (claim_some now s j Hnd Hj) in Ha, Hb. cbn [fst snd] in Ha, Hb.
        inversion Ha; subst a; clear Ha.
        destruct (oldest_pending_some _ _ Hj) as (Hjin & Hpj & Hmin).
        apply nth_error_In in Hb.
        apply claim_all_from_pendings in Hb;
          [| cbn [with_jobs jobs]; rewrite update_job_ids by reflexivity;
             exact Hnd].
        destruct Hb as (r & t & Hr & Hb). subst b.
        cbn [with_jobs jobs] in Hr. rewrite pendings_after_claim in Hr.
        apply filter_In in Hr. destruct Hr as [Hr Hne].
        apply pendings_in in Hr. destruct Hr as [Hrin Hrp].
        split.
        -- change (scan_before (claimed now j) (claimed t r))
             with (scan_before j r).
           apply Hmin; [exact Hrin | apply is_pending_true; exact Hrp].
        -- cbn [claimed Job.id]. intro He. rewrite <- He in Hne.
           rewrite Z.eqb_refl in Hne. discriminate.
      * unfold get_next_pending_job in Ha. rewrite Hj in Ha. discriminate.
    + cbn [nth_error] in Ha.
      apply (IH (snd (get_next_pending_job now s)) i k a b Hnd1);
        [lia | exact Ha | exact Hb].
Qed.

(** ** Claim order (C1) *)

Lemma same_id_same_row (rows : list Job.t) (a b : Job.t) :
  NoDup (map Job.id rows) -> In a rows -> In b rows ->
  Job.id a = Job.id b -> a = b.
Proof.
  induction rows as [| r rest IH]; simpl; intros Hnd Ha Hb He.
  - destruct Ha.
  - inversion Hnd as [| x y Hnotin Hnd']; subst.
    destruct Ha as [Ha | Ha], Hb as [Hb | Hb].
    + congruence.
    + subst r. exfalso. apply Hnotin. rewrite He. apply in_map. exact Hb.
    + subst r. exfalso. apply Hnotin. rewrite <- He. apply in_map. exact Ha.
    + apply IH; assumption.
Qed.

(** C1, as written, fails: the row that [get_next_pending_job] returns is
    not the row as it was before the transition.  On a queue holding one
    pending job, the returned row already has status processing and the
    start timestamp of the claim. *)
Lemma claim_returns_updated_row :
  let j := sample_job 1 SUMMARIZE PENDING 10 in
  pendings (jobs one_pending) = [j]
  /\ fst (get_next_pending_job 100 one_pending) <> Some j
  /\ exists j',
       fst (get_next_pending_job 100 one_pending) = Some j'
       /\ Job.status j' = PROCESSING
       /\ Job.started_at j' = Some 100.
Proof.
  split; [reflexivity |]. split.
  - vm_compute. discriminate.
  - eexists. split; [vm_compute; reflexivity |]. split; reflexivity.
Qed.

(** C1 (amended): on every well-formed queue, [get_next_pending_job]
    returns none and writes nothing when no job is pending; otherwise it
    picks the pending job with the oldest creation time, the smallest id
    among equally old ones, rewrites that row (and no other) to processing
    with the start timestamp of the call, and returns the row as it is
    after that update.  Hence jobs enqueued at increasing times into a
    queue without pending jobs are returned by successive calls in the
    order of their enqueuing; and on any queue, of two jobs that
    successive calls return, the one returned first is the older one, or
    as old with the smaller id. *)
Theorem claim_next_oldest_first (now : timestamp) (s : store)
    (reqs : list (timestamp * job_request)) (times : list timestamp) :
  store_wf s ->
  ((forall r, In r (jobs s) -> Job.status r <> PENDING) ->
   get_next_pending_job now s = (None, s))
  /\ ((exists r, In r (jobs s) /\ Job.status r = PENDING) ->
      exists j,
        In j (jobs s) /\ Job.status j = PENDING
        /\ (forall r, In r (jobs s) -> Job.status r = PENDING ->
              Job.created_at j < Job.created_at r
              \/ (Job.created_at j = Job.created_at r
                  /\ Job.id j <= Job.id r))
        /\ get_next_pending_job now s
           = (Some (claimed now j),
              with_jobs (update_job (Job.id j) (claimed now) (jobs s)) s)
        /\ Job.status (claimed now j) = PROCESSING
        /\ Job.started_at (claimed now j) = Some now
        /\ In (claimed now j) (jobs (snd (get_next_pending_job now s)))
        /\ (forall r, In r (jobs s) -> r <> j ->
              In r (jobs (snd (get_next_pending_job now s))))
        /\ audio_submissions (snd (get_next_pending_job now s))
           = audio_submissions s)
  /\ ((forall r, In r (jobs s) -> Job.status r <> PENDING) ->
      increasing (map fst reqs) ->
      forall ids s1,
        enqueue_all reqs s = inr (ids, s1) ->
        List.length times = List.length reqs ->
        map (option_map Job.id) (fst (claim_all times s1)) = map Some ids)
  /\ (forall i k a b,
        (i < k)%nat ->
        nth_error (fst (claim_all times s)) i = Some (Some a) ->
        nth_error (fst (claim_all times s)) k = Some (Some b) ->
        Job.created_at a < Job.created_at b
        \/ (Job.created_at a = Job.created_at b /\ Job.id a < Job.id b)).
Proof.
  intros [Hnd Hsub]. split; [| split; [| split]].
  - intro Hnone. apply claim_none. apply no_pending_rows. exact Hnone.
  - intros (r0 & Hr0 & Hp0).
    destruct (oldest_pending (jobs s)) as [j |] eqn:Hj.
    + destruct (oldest_pending_some _ _ Hj) as (Hin & Hpj & Hmin).
      exists j. split; [exact Hin |].
      split; [apply is_pending_true; exact Hpj |].
      split.
      { intros r Hr Hpr. apply scan_before_iff. apply Hmin; [exact Hr |].
        apply is_pending_true. exact Hpr. }
      rewrite (claim_some now s j Hnd Hj). cbn [snd with_jobs jobs audio_submissions].
      split; [reflexivity |]. split; [reflexivity |]. split; [reflexivity |].
      split; [| split; [| reflexivity]].
      * pose proof (update_job_in (Job.id j) (claimed now) _ _ Hin) as H.
        rewrite Z.eqb_refl in H. exact H.
      * intros r Hr Hne.
        pose proof (update_job_in (Job.id j) (claimed now) _ _ Hr) as H.
        destruct (Job.id r =? Job.id j) eqn:He; [| exact H].
        exfalso. apply Hne. apply Z.eqb_eq in He.
        apply (same_id_same_row (jobs s)); assumption.
    + exfalso. rewrite oldest_pending_none in Hj.
      specialize (Hj r0 Hr0). apply is_pending_false in Hj. contradiction.
  - intros Hnone Hinc ids s1 He Hlen.
    apply (claims_follow_enqueue_order s s1 reqs ids times); auto.
    apply no_pending_rows. exact Hnone.
  - intros i k a b Hik Ha Hb.
    destruct (claim_all_oldest_first times s i k a b Hnd Hik Ha Hb)
      as [Hle Hne].
    apply scan_before_iff in Hle. lia.
Qed.

(** The statement of C1 at work: on [mixed_queue] the claim returns job 3,
    and the three jobs enqueued into [empty_store] come back in order. *)
Lemma claim_next_oldest_first_witness :
  store_wf mixed_queue
  /\ (exists j,
        Job.id j = 3
        /\ get_next_pending_job 100 mixed_queue
           = (Some (claimed 100 j),
              with_jobs (update_job 3 (claimed 100) (jobs mixed_queue))
                mixed_queue))
  /\ store_wf empty_store
  /\ get_next_pending_job 100 empty_store = (None, empty_store)
  /\ exists ids s1,
       enqueue_all three_requests empty_store = inr (ids, s1)
       /\ map (option_map Job.id) (fst (claim_all [20; 20; 21] s1))
          = map Some ids.
Proof.
  assert (Hw : store_wf mixed_queue) by solve_wf.
  assert (Hw0 : store_wf empty_store) by solve_wf.
  split; [exact Hw |]. split; [| split; [exact Hw0 | split]].
  - destruct (claim_next_oldest_first 100 mixed_queue [] [] Hw)
      as (_ & Hsome & _).
    destruct Hsome as (j & Hin & Hp & Hmin & Hget & _).
    + exists (sample_job 2 SUMMARIZE PENDING 30).
      split; [simpl; tauto | reflexivity].
    + exists j.
      assert (Hid : Job.id j = 3).
      { simpl in Hin.
        destruct Hin as [Hin | [Hin | [Hin | [Hin | []]]]]; subst j.
        - discriminate Hp.
        - destruct (Hmin (sample_job 3 SUMMARIZE PENDING 20)
                      ltac:(simpl; tauto) eq_refl) as [H | [H1 H2]];
            simpl in *; lia.
        - reflexivity.
        - destruct (Hmin (sample_job 3 SUMMARIZE PENDING 20)
                      ltac:(simpl; tauto) eq_refl) as [H | [H1 H2]];
            simpl in *; lia. }
      split; [exact Hid |]. rewrite Hget, Hid. reflexivity.
  - apply (claim_next_oldest_first 100 empty_store [] [] Hw0).
    intros r [].
  - eexists. eexists. split; [vm_compute; reflexivity |].
    apply (claim_next_oldest_first 100 empty_store three_requests
             [20; 20; 21] Hw0).
    + intros r [].
    + simpl. lia.
    + vm_compute. reflexivity.
    + reflexivity.
Defined.

(** ** Terminal updates (C2, C9) *)

Lemma with_jobs_same (s : store) : with_jobs (jobs s) s = s.
Proof. destruct s. reflexivity. Qed.

Lemma get_job_update (job_id k : Z) (f : Job.t -> Job.t) (s : store) :
  (forall r, Job.id (f r) = Job.id r) ->
  get_job k (with_jobs (update_job job_id f (jobs s)) s)
  = if k =? job_id then option_map f (get_job k s) else get_job k s.
Proof.
  intro Hf. unfold get_job, update_job. cbn [jobs with_jobs].
  induction (jobs s) as [| r rest IH]; simpl.
  - destruct (k =? job_id); reflexivity.
  - destruct (Job.id r =? job_id) eqn:Hr.
    + rewrite Hf. destruct (Job.id r =? k) eqn:Hk.
      * apply Z.eqb_eq in Hr, Hk. subst.
        rewrite Z.eqb_refl. reflexivity.
      * exact IH.
    + destruct (Job.id r =? k) eqn:Hk.
      * apply Z.eqb_eq in Hk. subst k. rewrite Hr. reflexivity.
      * exact IH.
Qed.

(** With unique ids, looking a row up by its id finds that row. *)
Lemma get_job_in (s : store) (j : Job.t) :
  NoDup (map Job.id (jobs s)) -> In j (jobs s) ->
  get_job (Job.id j) s = Some j.
Proof.
  intros Hnd Hin. unfold get_job.
  destruct (find (fun r => Job.id r =? Job.id j) (jobs s)) as [x |] eqn:Hf.
  - apply find_some in Hf. destruct Hf as [Hx He]. apply Z.eqb_eq in He.
    f_equal. apply (same_id_same_row (jobs s)); assumption.
  - exfalso. apply (find_none _ _ Hf) in Hin.
    rewrite Z.eqb_refl in Hin. discriminate.
Qed.

(** Binding the parameters of the two terminal updates: with integers
    that SQLite can hold, each call is its UPDATE statement. *)
Lemma complete_job_bound (now : timestamp) (job_id : Z)
    (output_text model_used : string) (processing_time_ms : Z) (s : store) :
  sqlite_int processing_time_ms && sqlite_int job_id = true ->
  complete_job now job_id output_text model_used processing_time_ms s
  = inr (complete_job_update now job_id output_text model_used
           processing_time_ms s).
Proof. intro H. unfold complete_job. rewrite H. reflexivity. Qed.

Lemma complete_job_overflow (now : timestamp) (job_id : Z)
    (output_text model_used : string) (processing_time_ms : Z) (s : store) :
  sqlite_int processing_time_ms && sqlite_int job_id = false ->
  complete_job now job_id output_text model_used processing_time_ms s
  = inl int_too_large.
Proof. intro H. unfold complete_job. rewrite H. reflexivity. Qed.

Lemma fail_job_bound (now : timestamp) (job_id : Z) (error_message : string)
    (s : store) :
  sqlite_int job_id = true ->
  fail_job now job_id error_message s
  = inr (fail_job_update now job_id error_message s).
Proof. intro H. unfold fail_job. rewrite H. reflexivity. Qed.

Lemma fail_job_overflow (now : timestamp) (job_id : Z)
    (error_message : string) (s : store) :
  sqlite_int job_id = false ->
  fail_job now job_id error_message s = inl int_too_large.
Proof. intro H. unfold fail_job. rewrite H. reflexivity. Qed.

(** The job row once the UPDATE of [complete_job] has run. *)
Lemma get_job_completed (s : store) (job : Job.t) (t1 : timestamp)
    (out model : string) (ms : Z) :
  NoDup (map Job.id (jobs s)) -> In job (jobs s) ->
  get_job (Job.id job) (complete_job_update t1 (Job.id job) out model ms s)
  = Some (completed t1 out model ms job).
Proof.
  intros Hnd Hin. unfold complete_job_update.
  rewrite get_job_update by reflexivity.
  rewrite Z.eqb_refl, (get_job_in _ _ Hnd Hin). reflexivity.
Qed.

(** The row of a terminal update, and the rows it passes over. *)
Lemma get_job_failed (s : store) (job : Job.t) (t1 : timestamp)
    (msg : string) :
  NoDup (map Job.id (jobs s)) -> In job (jobs s) ->
  get_job (Job.id job) (fail_job_update t1 (Job.id job) msg s)
  = Some (failed t1 msg job).
Proof.
  intros Hnd Hin. unfold fail_job_update.
  rewrite get_job_update by reflexivity.
  rewrite Z.eqb_refl, (get_job_in _ _ Hnd Hin). reflexivity.
Qed.

Lemma get_job_complete_other (s : store) (job_id k : Z) (t1 : timestamp)
    (out model : string) (ms : Z) :
  k <> job_id ->
  get_job k (complete_job_update t1 job_id out model ms s) = get_job k s.
Proof.
  intro Hk. unfold complete_job_update.
  rewrite get_job_update by reflexivity.
  destruct (k =? job_id) eqn:He; [| reflexivity].
  apply Z.eqb_eq in He. contradiction.
Qed.

Lemma get_job_fail_other (s : store) (job_id k : Z) (t1 : timestamp)
    (msg : string) :
  k <> job_id ->
  get_job k (fail_job_update t1 job_id msg s) = get_job k s.
Proof.
  intro Hk. unfold fail_job_update.
  rewrite get_job_update by reflexivity.
  destruct (k =? job_id) eqn:He; [| reflexivity].
  apply Z.eqb_eq in He. contradiction.
Qed.

Lemma complete_job_update_wf (s : store) (job_id : Z) (t1 : timestamp)
    (out model : string) (ms : Z) :
  store_wf s -> store_wf (complete_job_update t1 job_id out model ms s).
Proof.
  intros [Hnd Hsub]. split; [| exact Hsub].
  unfold complete_job_update. cbn [jobs with_jobs].
  rewrite update_job_ids; [exact Hnd | reflexivity].
Qed.

Lemma fail_job_update_wf (s : store) (job_id : Z) (t1 : timestamp)
    (msg : string) :
  store_wf s -> store_wf (fail_job_update t1 job_id msg s).
Proof.
  intros [Hnd Hsub]. split; [| exact Hsub].
  unfold fail_job_update. cbn [jobs with_jobs].
  rewrite update_job_ids; [exact Hnd | reflexivity].
Qed.

Lemma get_job_absent (s : store) (job_id : Z) :
  ~ In job_id (map Job.id (jobs s)) -> get_job job_id s = None.
Proof.
  intro H. unfold get_job.
  destruct (find _ (jobs s)) as [x |] eqn:Hf; [| reflexivity].
  apply find_some in Hf. destruct Hf as [Hx He]. apply Z.eqb_eq in He.
  exfalso. apply H. rewrite <- He. apply in_map. exact Hx.
Qed.

(** C2, as written, fails: neither [complete_job] nor [fail_job] looks at
    the status.  A pending job that was never claimed is completed, and a
    completed job is turned into a failed one; neither call is refused. *)
Lemma terminal_update_ignores_status :
  option_map Job.status (get_job 1 one_pending) = Some PENDING
  /\ (exists s1,
        complete_job 50 1 "out" "m" 7 one_pending = inr s1
        /\ option_map Job.status (get_job 1 s1) = Some COMPLETED
        /\ option_map Job.output_text (get_job 1 s1) = Some (Some "out")
        /\ jobs s1 <> jobs one_pending)
  /\ option_map Job.status (get_job 1 mixed_queue) = Some COMPLETED
  /\ (exists s2,
        fail_job 60 1 "late" mixed_queue = inr s2
        /\ option_map Job.status (get_job 1 s2) = Some FAILED
        /\ option_map Job.error_message (get_job 1 s2) = Some (Some "late")
        /\ jobs s2 <> jobs mixed_queue).
Proof.
  split; [reflexivity |]. split.
  - eexists. split; [reflexivity |].
    split; [reflexivity |]. split; [reflexivity |].
    vm_compute. discriminate.
  - split; [reflexivity |].
    eexists. split; [reflexivity |].
    split; [reflexivity |]. split; [reflexivity |].
    vm_compute. discriminate.
Qed.

(** C2 (amended): [complete_job] and [fail_job] apply to the row with the
    given id whatever its current status; no call is refused on account
    of the status.  For every row [j] of a well-formed queue, pending,
    processing, completed or failed: when the id and the duration are
    integers SQLite can hold, [complete_job] returns and leaves [j]
    completed with the given output, model, duration and completion time,
    every other column as it was; when the id is, [fail_job] returns and
    leaves [j] failed with the given error message and completion time,
    every other column as it was; all other rows and the submissions are
    unchanged.  The one refusal is that of an integer outside the signed
    64-bit range, an [OverflowError] whatever the status, with nothing
    written. *)
Theorem terminal_update_unconditional (now : timestamp) (s : store)
    (j : Job.t) (output_text model_used error_message : string)
    (processing_time_ms : Z) :
  store_wf s -> In j (jobs s) ->
  (sqlite_int processing_time_ms && sqlite_int (Job.id j) = true ->
   exists s1 done,
     complete_job now (Job.id j) output_text model_used
       processing_time_ms s = inr s1
     /\ get_job (Job.id j) s1 = Some done
     /\ Job.status done = COMPLETED
     /\ Job.output_text done = Some output_text
     /\ Job.model_used done = Some model_used
     /\ Job.processing_time_ms done = Some processing_time_ms
     /\ Job.completed_at done = Some now
     /\ Job.id done = Job.id j
     /\ Job.job_type done = Job.job_type j
     /\ Job.provider done = Job.provider j
     /\ Job.input_file_path done = Job.input_file_path j
     /\ Job.input_text done = Job.input_text j
     /\ Job.error_message done = Job.error_message j
     /\ Job.audio_file_id done = Job.audio_file_id j
     /\ Job.metadata done = Job.metadata j
     /\ Job.created_at done = Job.created_at j
     /\ Job.started_at done = Job.started_at j
     /\ (forall k, k <> Job.id j -> get_job k s1 = get_job k s)
     /\ List.length (jobs s1) = List.length (jobs s)
     /\ audio_submissions s1 = audio_submissions s
     /\ store_wf s1)
  /\ (sqlite_int (Job.id j) = true ->
      exists s2 lost,
        fail_job now (Job.id j) error_message s = inr s2
        /\ get_job (Job.id j) s2 = Some lost
        /\ Job.status lost = FAILED
        /\ Job.error_message lost = Some error_message
        /\ Job.completed_at lost = Some now
        /\ Job.id lost = Job.id j
        /\ Job.job_type lost = Job.job_type j
        /\ Job.provider lost = Job.provider j
        /\ Job.input_file_path lost = Job.input_file_path j
        /\ Job.input_text lost = Job.input_text j
        /\ Job.output_text lost = Job.output_text j
        /\ Job.audio_file_id lost = Job.audio_file_id j
        /\ Job.metadata lost = Job.metadata j
        /\ Job.created_at lost = Job.created_at j
        /\ Job.started_at lost = Job.started_at j
        /\ Job.processing_time_ms lost = Job.processing_time_ms j
        /\ Job.model_used lost = Job.model_used j
        /\ (forall k, k <> Job.id j -> get_job k s2 = get_job k s)
        /\ List.length (jobs s2) = List.length (jobs s)
        /\ audio_submissions s2 = audio_submissions s
        /\ store_wf s2)
  /\ (sqlite_int processing_time_ms && sqlite_int (Job.id j) = false ->
      complete_job now (Job.id j) output_text model_used
        processing_time_ms s = inl int_too_large)
  /\ (sqlite_int (Job.id j) = false ->
      fail_job now (Job.id j) error_message s = inl int_too_large)
  /\ exn_cls int_too_large = OverflowError.
Proof.
  intros Hwf Hin. pose proof Hwf as [Hnd Hsub].
  split; [| split; [| split; [| split]]].
  - intro Hb.
    exists (complete_job_update now (Job.id j) output_text model_used
              processing_time_ms s),
           (completed now output_text model_used processing_time_ms j).
    split; [apply complete_job_bound; exact Hb |].
    split; [apply get_job_completed; assumption |].
    do 15 (split; [reflexivity |]).
    split; [intros k Hk; apply get_job_complete_other; exact Hk |].
    split; [apply update_job_length |].
    split; [reflexivity |].
    apply complete_job_update_wf. exact Hwf.
  - intro Hb.
    exists (fail_job_update now (Job.id j) error_message s),
           (failed now error_message j).
    split; [apply fail_job_bound; exact Hb |].
    split; [apply get_job_failed; assumption |].
    do 15 (split; [reflexivity |]).
    split; [intros k Hk; apply get_job_fail_other; exact Hk |].
    split; [apply update_job_length |].
    split; [reflexivity |].
    apply fail_job_update_wf. exact Hwf.
  - apply complete_job_overflow.
  - apply fail_job_overflow.
  - reflexivity.
Qed.

(** The amended C2 on the completed first row of [mixed_queue]: failing
    it afterwards is accepted and overwrites the status. *)
Lemma terminal_update_unconditional_witness :
  store_wf mixed_queue
  /\ In (sample_job 1 SUMMARIZE COMPLETED 5) (jobs mixed_queue)
  /\ exists s2 lost,
       fail_job 60 1 "late" mixed_queue = inr s2
       /\ get_job 1 s2 = Some lost
       /\ Job.status lost = FAILED
       /\ Job.error_message lost = Some "late"
       /\ Job.completed_at lost = Some 60.
Proof.
  assert (Hw : store_wf mixed_queue) by solve_wf.
  assert (Hin : In (sample_job 1 SUMMARIZE COMPLETED 5) (jobs mixed_queue))
    by (simpl; tauto).
  split; [exact Hw |]. split; [exact Hin |].
  destruct (terminal_update_unconditional 60 mixed_queue
              (sample_job 1 SUMMARIZE COMPLETED 5) "out" "m" "late" 7 Hw Hin)
    as (_ & Hf & _).
  destruct (Hf eq_refl) as (s2 & lost & H1 & H2 & H3 & H4 & H5 & _).
  exists s2, lost. repeat split; assumption.
Defined.

(** C9, as written, fails: an id that no row carries does not make the
    call silent when an integer argument is too large for SQLite.  On
    [mixed_queue], whose ids are 1 to 4, [complete_job] for the id 99
    with the duration [2 ^ 63], and [fail_job] for the id [2 ^ 63], raise
    [OverflowError]. *)
Lemma terminal_update_absent_id_raises :
  ~ In 99 (map Job.id (jobs mixed_queue))
  /\ ~ In (2 ^ 63) (map Job.id (jobs mixed_queue))
  /\ complete_job 50 99 "out" "m" (2 ^ 63) mixed_queue = inl int_too_large
  /\ fail_job 50 (2 ^ 63) "err" mixed_queue = inl int_too_large
  /\ exn_cls int_too_large = OverflowError
  /\ exn_msg int_too_large
     = "Python int too large to convert to SQLite INTEGER".
Proof.
  split; [| split].
  - simpl. intros [H | [H | [H | [H | []]]]]; discriminate H.
  - simpl. intros [H | [H | [H | [H | []]]]]; discriminate H.
  - repeat split.
Qed.

(** C9 (amended): for an id that no row of [jobs] carries, [complete_job]
    and [fail_job] write nothing.  When the id (and, for [complete_job],
    the duration) is an integer SQLite can hold, the call returns
    normally and the database, rows and row count included, is the one
    it was given; otherwise the call raises [OverflowError], the
    database again being left as it was. *)
Theorem terminal_update_unknown_id (now : timestamp) (s : store)
    (job_id : Z) (output_text model_used error_message : string)
    (processing_time_ms : Z) :
  ~ In job_id (map Job.id (jobs s)) ->
  complete_job now job_id output_text model_used processing_time_ms s
  = (if sqlite_int processing_time_ms && sqlite_int job_id
     then inr s else inl int_too_large)
  /\ fail_job now job_id error_message s
     = (if sqlite_int job_id then inr s else inl int_too_large)
  /\ exn_cls int_too_large = OverflowError
  /\ (forall s',
        complete_job now job_id output_text model_used
          processing_time_ms s = inr s'
        \/ fail_job now job_id error_message s = inr s' ->
        s' = s /\ jobs s' = jobs s /\ get_job job_id s' = None).
Proof.
  intro H.
  assert (Hc : complete_job_update now job_id output_text model_used
                 processing_time_ms s = s).
  { unfold complete_job_update.
    rewrite update_job_absent by exact H. apply with_jobs_same. }
  assert (Hf : fail_job_update now job_id error_message s = s).
  { unfold fail_job_update.
    rewrite update_job_absent by exact H. apply with_jobs_same. }
  assert (Hc' : complete_job now job_id output_text model_used
                  processing_time_ms s
                = (if sqlite_int processing_time_ms && sqlite_int job_id
                   then inr s else inl int_too_large)).
  { unfold complete_job. rewrite Hc. reflexivity. }
  assert (Hf' : fail_job now job_id error_message s
                = (if sqlite_int job_id then inr s else inl int_too_large)).
  { unfold fail_job. rewrite Hf. reflexivity. }
  split; [exact Hc' |]. split; [exact Hf' |]. split; [reflexivity |].
  intros s' [Hs | Hs].
  - rewrite Hc' in Hs.
    destruct (sqlite_int processing_time_ms && sqlite_int job_id);
      [| discriminate Hs].
    injection Hs as <-.
    split; [reflexivity |]. split; [reflexivity |].
    apply get_job_absent. exact H.
  - rewrite Hf' in Hs.
    destruct (sqlite_int job_id); [| discriminate Hs].
    injection Hs as <-.
    split; [reflexivity |]. split; [reflexivity |].
    apply get_job_absent. exact H.
Qed.

(** The amended C9 on [mixed_queue] and the unused id 9. *)
Lemma terminal_update_unknown_id_witness :
  ~ In 9 (map Job.id (jobs mixed_queue))
  /\ complete_job 50 9 "out" "m" 7 mixed_queue = inr mixed_queue
  /\ fail_job 50 9 "err" mixed_queue = inr mixed_queue
  /\ complete_job 50 9 "out" "m" (- 2 ^ 63 - 1) mixed_queue
     = inl int_too_large.
Proof.
  assert (H : ~ In 9 (map Job.id (jobs mixed_queue))).
  { simpl. intros [H | [H | [H | [H | []]]]]; discriminate H. }
  split; [exact H |].
  split; [| split].
  - exact (proj1 (terminal_update_unknown_id 50 mixed_queue 9 "out" "m"
                    "err" 7 H)).
  - exact (proj1 (proj2 (terminal_update_unknown_id 50 mixed_queue 9 "out"
                           "m" "err" 7 H))).
  - exact (proj1 (terminal_update_unknown_id 50 mixed_queue 9 "out" "m"
                    "err" (- 2 ^ 63 - 1) H)).
Defined.

(** ** Running [process_job] *)

Lemma transcribe_audio_run (E : Env) (file_path provider : string)
    (w : world) :
  transcribe_audio E file_path provider w
  = (transcription E file_path provider,
     called (transcribe_call file_path provider) w).
Proof.
  unfold transcription, transcribe_audio, transcribe_call,
    transcribe_audio_deepgram, transcribe_audio_local, invoke, bind, called.
  destruct (provider =? "deepgram")%string.
  - destruct (deepgram E file_path) as [e | [t ms]]; simpl; [reflexivity |].
    destruct (t =? "")%string; reflexivity.
  - destruct (whisper E file_path) as [e | [t ms]]; reflexivity.
Qed.

Lemma summarize_text_run (E : Env) (text : string) (w : world) :
  summarize_text E text w
  = (summarization E text, called (CallOllama text) w).
Proof.
  unfold summarization, summarize_text, invoke, called.
  destruct (ollama E text) as [e | [t ms]]; reflexivity.
Qed.

Lemma load_metadata_dict (column : option json_text)
    (m : list (string * json)) (w : world) :
  metadata_dict column = Some m ->
  load_metadata column w = (inr (JObj m), w).
Proof.
  destruct column as [[| v |] |]; simpl; intro H; try discriminate.
  - inversion H; reflexivity.
  - destruct v; try discriminate. inversion H; reflexivity.
  - inversion H; reflexivity.
Qed.

Lemma truthy_str_some (s : string) :
  s <> "" -> truthy_str (Some s) = true.
Proof.
  intro H. simpl. destruct (s =? "")%string eqn:He; [| reflexivity].
  apply String.eqb_eq in He. contradiction.
Qed.

Lemma exec_run (E : Env) (stmt : timestamp -> store -> store) (w : world) :
  exec E stmt w = (inr tt, stepped stmt E w).
Proof. reflexivity. Qed.

(** A transcribe job bound to a submission, with a file that exists and a
    backend that answers: the four or five statements that run, in their
    order. *)
Lemma process_transcribe_bound (E : Env) (w : world) (job : Job.t)
    (path sid out model : string) (ms : Z) (m : list (string * json)) :
  Job.job_type job = TRANSCRIBE ->
  Job.input_file_path job = Some path -> path <> "" ->
  path_exists E path = true ->
  bound_submission (Job.audio_file_id job) = Some sid ->
  metadata_dict (Job.metadata job) = Some m ->
  transcription E path (Job.provider job) = inr (out, model, ms) ->
  let w1 := stepped (fun now =>
              update_audio_submission_status now sid SubTranscribing None)
              E w in
  let w2 := called (transcribe_call path (Job.provider job)) w1 in
  let w3 := stepped (fun now =>
              complete_job_update now (Job.id job) out model ms) E w2 in
  let w4 := stepped (fun now =>
              update_audio_submission_transcript now sid out (Job.id job))
              E w3 in
  process_job E job w
  = if py_truthy (dict_get "autoSummarize" m (JBool false))
    then
      match create_job (clock E (ticks w4)) SUMMARIZE None (Some out)
              (Some sid) (Some (chain_metadata (Job.id job))) "local"
              (db w4) with
      | inr (_, s5) =>
          (inr tt, {| db := s5; ticks := S (ticks w4); calls := calls w4 |})
      | inl e => (inl e, w4)
      end
    else (inr tt, w4).
Proof.
  intros Hty Hpath Hne Hex Hsid Hmeta Hans w1 w2 w3 w4.
  unfold process_job, bind, try_except.
  rewrite (load_metadata_dict _ _ _ Hmeta), Hty.
  unfold run_transcribe, bind.
  rewrite Hpath, (truthy_str_some _ Hne), Hex, Hsid. cbn [negb].
  rewrite exec_run, transcribe_audio_run, Hans, exec_run, exec_run.
  fold w1. fold w2. fold w3. fold w4.
  unfold metadata_get, ret.
  destruct (py_truthy (dict_get "autoSummarize" m (JBool false)));
    [| reflexivity].
  unfold exec_create_job, create_job, chain_metadata. simpl. reflexivity.
Qed.

Lemma get_submission_update (sid k : string)
    (f : Submission.t -> Submission.t) (s : store) :
  (forall r, Submission.id (f r) = Submission.id r) ->
  get_audio_submission k
    (with_submissions (update_submission sid f (audio_submissions s)) s)
  = if (k =? sid)%string then option_map f (get_audio_submission k s)
    else get_audio_submission k s.
Proof.
  intro Hf. unfold get_audio_submission, update_submission.
  cbn [audio_submissions with_submissions].
  induction (audio_submissions s) as [| r rest IH]; simpl.
  - destruct (k =? sid)%string; reflexivity.
  - destruct (Submission.id r =? sid)%string eqn:Hr.
    + rewrite Hf. destruct (Submission.id r =? k)%string eqn:Hk.
      * apply String.eqb_eq in Hr, Hk. subst.
        rewrite String.eqb_refl. reflexivity.
      * exact IH.
    + destruct (Submission.id r =? k)%string eqn:Hk.
      * apply String.eqb_eq in Hk. subst k. rewrite Hr. reflexivity.
      * exact IH.
Qed.

Lemma get_submission_in (s : store) (sub : Submission.t) :
  NoDup (map Submission.id (audio_submissions s)) ->
  In sub (audio_submissions s) ->
  get_audio_submission (Submission.id sub) s = Some sub.
Proof.
  unfold get_audio_submission.
  induction (audio_submissions s) as [| r rest IH]; simpl; intros Hnd Hin.
  - destruct Hin.
  - inversion Hnd as [| x y Hnotin Hnd']; subst.
    destruct Hin as [Hin | Hin].
    + subst r. rewrite String.eqb_refl. reflexivity.
    + destruct (Submission.id r =? Submission.id sub)%string eqn:He.
      * exfalso. apply Hnotin. apply String.eqb_eq in He. rewrite He.
        apply in_map. exact Hin.
      * apply IH; assumption.
Qed.

Lemma update_status_jobs (now : timestamp) (sid : string)
    (st : SubmissionStatus) (err : option string) (s : store) :
  jobs (update_audio_submission_status now sid st err s) = jobs s.
Proof.
  unfold update_audio_submission_status.
  destruct (truthy_str err); reflexivity.
Qed.

Lemma get_job_update_status (now : timestamp) (sid : string)
    (st : SubmissionStatus) (err : option string) (s : store) (k : Z) :
  get_job k (update_audio_submission_status now sid st err s) = get_job k s.
Proof. unfold get_job. rewrite update_status_jobs. reflexivity. Qed.

(** A status update that carries no error text, or an empty one, leaves
    the error column alone. *)
Lemma get_submission_update_status (now : timestamp) (sid : string)
    (st : SubmissionStatus) (err : option string) (s : store) :
  get_audio_submission sid (update_audio_submission_status now sid st err s)
  = option_map
      (restated now st (if truthy_str err then err else None))
      (get_audio_submission sid s).
Proof.
  unfold update_audio_submission_status.
  destruct (truthy_str err);
    rewrite get_submission_update by (intro r; reflexivity);
    rewrite String.eqb_refl; reflexivity.
Qed.

(** ** Chaining (C3) *)

Lemma get_job_appended (k : Z) (s : store) (r : Job.t) (l : list Job.t)
    (seq : Z) (subs : list Submission.t) :
  get_job k s = Some r ->
  get_job k {| jobs := jobs s ++ l; jobs_seq := seq;
               audio_submissions := subs |} = Some r.
Proof.
  unfold get_job. cbn [jobs]. induction (jobs s) as [| x rest IH]; simpl.
  - discriminate.
  - destruct (Job.id x =? k); [trivial | exact IH].
Qed.

(** C3: a transcribe job bound to submission [sub], whose metadata has
    [autoSummarize] true, whose file exists and whose backend answers
    [out].  [process_job] returns normally, and there is a database
    [before], holding the same jobs as at the start, in which this job is
    found with status completed, carrying [out], the model name, the
    duration and a completion time, and in which the submission is
    summarizing and carries [out] as its transcript, such that the final
    database is [create_job] applied to [before]: exactly one row [row]
    is appended, a pending summarize job under a fresh id, with input
    text [out], bound to the submission, with metadata marking it
    auto-chained and naming the source job; the transcribe job is still
    found completed afterwards. *)
Theorem chain_after_transcript (E : Env) (w : world) (job : Job.t)
    (sub : Submission.t) (path out model : string) (ms : Z)
    (m : list (string * json)) :
  store_wf (db w) ->
  In job (jobs (db w)) ->
  In sub (audio_submissions (db w)) ->
  bound_submission (Job.audio_file_id job) = Some (Submission.id sub) ->
  Job.job_type job = TRANSCRIBE ->
  Job.input_file_path job = Some path -> path <> "" ->
  path_exists E path = true ->
  metadata_dict (Job.metadata job) = Some m ->
  dict_get "autoSummarize" m (JBool false) = JBool true ->
  transcription E path (Job.provider job) = inr (out, model, ms) ->
  exists (before : store) (row done : Job.t) (sub' : Submission.t),
    map Job.id (jobs before) = map Job.id (jobs (db w))
    /\ get_job (Job.id job) before = Some done
    /\ done = completed (clock E (S (ticks w))) out model ms job
    /\ Job.status done = COMPLETED
    /\ Job.output_text done = Some out
    /\ Job.model_used done = Some model
    /\ Job.processing_time_ms done = Some ms
    /\ Job.completed_at done = Some (clock E (S (ticks w)))
    /\ get_job (Job.id job) (db (snd (process_job E job w))) = Some done
    /\ get_audio_submission (Submission.id sub) before = Some sub'
    /\ Submission.status sub' = SubSummarizing
    /\ Submission.transcript sub' = Some out
    /\ Submission.transcript_job_id sub' = Some (Job.id job)
    /\ fst (process_job E job w) = inr tt
    /\ create_job (clock E (S (S (S (ticks w))))) SUMMARIZE None (Some out)
         (Some (Submission.id sub)) (Some (chain_metadata (Job.id job)))
         "local" before
       = inr (Job.id row, db (snd (process_job E job w)))
    /\ jobs (db (snd (process_job E job w))) = jobs before ++ [row]
    /\ audio_submissions (db (snd (process_job E job w)))
       = audio_submissions before
    /\ ~ In (Job.id row) (map Job.id (jobs before))
    /\ Job.job_type row = SUMMARIZE
    /\ Job.status row = PENDING
    /\ Job.input_text row = Some out
    /\ Job.audio_file_id row = Some (Submission.id sub)
    /\ Job.metadata row
       = Some (TextJson (JObj [("autoSummarize", JBool true);
                               ("sourceJobId", JInt (Job.id job))])).
Proof.
  intros [Hnd Hsnd] Hjob Hsub Hsid Hty Hpath Hne Hex Hmeta Hauto Hans.
  rewrite (process_transcribe_bound E w job path (Submission.id sub) out
             model ms m Hty Hpath Hne Hex Hsid Hmeta Hans).
  rewrite Hauto. cbn [py_truthy].
  set (s1 := update_audio_submission_status (clock E (ticks w))
               (Submission.id sub) SubTranscribing None (db w)).
  set (s2 := complete_job_update (clock E (S (ticks w))) (Job.id job) out model ms s1).
  set (s3 := update_audio_submission_transcript (clock E (S (S (ticks w))))
               (Submission.id sub) out (Job.id job) s2).
  cbn [stepped called db ticks calls]. fold s1. fold s2. fold s3.
  unfold create_job. cbn [provider_allowed String.eqb Ascii.eqb Bool.eqb orb].
  cbn [fst snd db].
  assert (Hids : map Job.id (jobs s3) = map Job.id (jobs (db w))).
  { subst s3 s2. cbn [update_audio_submission_transcript with_submissions jobs].
    unfold complete_job_update. cbn [with_jobs jobs].
    rewrite update_job_ids by reflexivity.
    subst s1. rewrite update_status_jobs. reflexivity. }
  exists s3,
    (Job.mk (next_job_id s3) SUMMARIZE PENDING "local" None (Some out) None
       None (Some (Submission.id sub))
       (Some (TextJson (JObj (chain_metadata (Job.id job)))))
       (clock E (S (S (S (ticks w))))) None None None None),
    (completed (clock E (S (ticks w))) out model ms job),
    (transcribed (clock E (S (S (ticks w)))) out (Job.id job)
       (restated (clock E (ticks w)) SubTranscribing None sub)).
  split; [exact Hids |].
  assert (Hdone : get_job (Job.id job) s3
                  = Some (completed (clock E (S (ticks w))) out model ms job)).
  { subst s3. unfold update_audio_submission_transcript, get_job.
    cbn [with_submissions jobs]. fold (get_job (Job.id job) s2).
    subst s2. unfold complete_job_update.
    rewrite get_job_update by reflexivity. rewrite Z.eqb_refl.
    subst s1. rewrite get_job_update_status.
    rewrite (get_job_in _ _ Hnd Hjob). reflexivity. }
  split; [exact Hdone |].
  do 6 (split; [reflexivity |]).
  split; [apply get_job_appended; exact Hdone |].
  split.
  { subst s3. unfold update_audio_submission_transcript.
    rewrite get_submission_update by reflexivity.
    rewrite String.eqb_refl.
    subst s2. unfold complete_job_update, get_audio_submission.
    cbn [with_jobs audio_submissions].
    fold (get_audio_submission (Submission.id sub) s1).
    subst s1. rewrite get_submission_update_status.
    rewrite (get_submission_in _ _ Hsnd Hsub). reflexivity. }
  do 4 (split; [reflexivity |]).
  split; [cbn [Job.id]; reflexivity |].
  split; [reflexivity |]. split; [reflexivity |].
  split.
  { cbn [Job.id]. rewrite Hids. intro Hin. apply in_map_iff in Hin.
    destruct Hin as (r & Hr & Hin).
    assert (Hx : In (Job.id r) (map Job.id (jobs s3)))
      by (rewrite Hids; apply in_map; exact Hin).
    apply in_map_iff in Hx. destruct Hx as (x & Hx & Hxin).
    apply max_id_bound in Hxin. unfold next_job_id in Hr. lia. }
  repeat split; reflexivity.
Qed.

(** C3 on the spec's example: the local model hears "hello world" for a
    job bound to "S" whose metadata asks for a summary. *)
Lemma chain_after_transcript_witness :
  let job := transcribe_job "local" (auto_summarize (JBool true)) in
  let w := world_with job (sample_submission "S") in
  store_wf (db w)
  /\ exists before row done sub',
       get_job 1 before = Some done
       /\ Job.status done = COMPLETED
       /\ Job.output_text done = Some "hello world"
       /\ get_audio_submission "S" before = Some sub'
       /\ Submission.status sub' = SubSummarizing
       /\ Submission.transcript sub' = Some "hello world"
       /\ jobs (db (snd (process_job sample_env job w))) = jobs before ++ [row]
       /\ Job.job_type row = SUMMARIZE
       /\ Job.status row = PENDING
       /\ Job.input_text row = Some "hello world"
       /\ Job.audio_file_id row = Some "S".
Proof.
  intros job w.
  assert (Hw : store_wf (db w)) by solve_wf.
  split; [exact Hw |].
  destruct (chain_after_transcript sample_env w job (sample_submission "S")
              "a.wav" "hello world" "whisper-large-v3" 1200
              [("autoSummarize", JBool true)])
    as (before & row & done & sub' & H);
    try reflexivity; try exact Hw; try (simpl; tauto); try discriminate.
  exists before, row, done, sub'. simpl in H. tauto.
Defined.

(** ** The other paths of [process_job] *)

Lemma on_failure_run (E : Env) (job : Job.t) (e : exn) (w : world) :
  on_failure E job e w = (inr tt, failed_world E job e w).
Proof.
  unfold on_failure, failed_world, bind. rewrite exec_run.
  destruct (bound_submission (Job.audio_file_id job)); reflexivity.
Qed.

Lemma load_metadata_ok (column : option json_text) :
  column <> Some TextInvalid ->
  exists v, forall w, load_metadata column w = (inr v, w).
Proof.
  destruct column as [[| v |] |]; intro H.
  - exists (JObj []). reflexivity.
  - exists v. reflexivity.
  - contradiction.
  - exists (JObj []). reflexivity.
Qed.

Lemma metadata_dict_valid (column : option json_text)
    (m : list (string * json)) :
  metadata_dict column = Some m -> column <> Some TextInvalid.
Proof. intros H He. subst column. discriminate H. Qed.

Lemma announce_run (E : Env) (job : Job.t) (st : SubmissionStatus)
    (w : world) :
  match bound_submission (Job.audio_file_id job) with
  | Some sid =>
      exec E (fun now => update_audio_submission_status now sid st None)
  | None => ret tt
  end w
  = (inr tt, announced E job st w).
Proof.
  unfold announced.
  destruct (bound_submission (Job.audio_file_id job)); reflexivity.
Qed.

(** A transcribe job whose backend raises [e]. *)
Lemma process_transcribe_raises (E : Env) (w : world) (job : Job.t)
    (path : string) (e : exn) :
  Job.job_type job = TRANSCRIBE ->
  Job.input_file_path job = Some path -> path <> "" ->
  path_exists E path = true ->
  Job.metadata job <> Some TextInvalid ->
  transcription E path (Job.provider job) = inl e ->
  process_job E job w
  = (inr tt,
     failed_world E job e
       (called (transcribe_call path (Job.provider job))
          (announced E job SubTranscribing w))).
Proof.
  intros Hty Hpath Hne Hex Hmeta Hans.
  destruct (load_metadata_ok _ Hmeta) as [v Hv].
  unfold process_job, bind, try_except. rewrite Hv, Hty.
  unfold run_transcribe, bind.
  rewrite Hpath, (truthy_str_some _ Hne), Hex. cbn [negb].
  rewrite announce_run, transcribe_audio_run, Hans.
  apply on_failure_run.
Qed.

(** A transcribe job that is not bound to a submission. *)
Lemma process_transcribe_unbound (E : Env) (w : world) (job : Job.t)
    (path out model : string) (ms : Z) :
  Job.job_type job = TRANSCRIBE ->
  Job.input_file_path job = Some path -> path <> "" ->
  path_exists E path = true ->
  Job.metadata job <> Some TextInvalid ->
  bound_submission (Job.audio_file_id job) = None ->
  transcription E path (Job.provider job) = inr (out, model, ms) ->
  process_job E job w
  = (inr tt,
     stepped (fun now => complete_job_update now (Job.id job) out model ms) E
       (called (transcribe_call path (Job.provider job)) w)).
Proof.
  intros Hty Hpath Hne Hex Hmeta Hsid Hans.
  destruct (load_metadata_ok _ Hmeta) as [v Hv].
  unfold process_job, bind, try_except. rewrite Hv, Hty.
  unfold run_transcribe, bind.
  rewrite Hpath, (truthy_str_some _ Hne), Hex, Hsid. cbn [negb].
  unfold ret at 1. rewrite transcribe_audio_run, Hans, exec_run.
  reflexivity.
Qed.

(** A summarize job with a text, whatever its provider. *)
Lemma process_summarize_run (E : Env) (w : world) (job : Job.t)
    (text : string) :
  Job.job_type job = SUMMARIZE ->
  Job.input_text job = Some text -> text <> "" ->
  Job.metadata job <> Some TextInvalid ->
  let w2 := called (CallOllama text) (announced E job SubSummarizing w) in
  process_job E job w
  = (inr tt,
     match summarization E text with
     | inl e => failed_world E job e w2
     | inr (out, model, ms) =>
         let w3 := stepped (fun now =>
                     complete_job_update now (Job.id job) out model ms) E w2 in
         match bound_submission (Job.audio_file_id job) with
         | Some sid =>
             stepped (fun now =>
                        update_audio_submission_summary now sid out
                          (Job.id job)) E w3
         | None => w3
         end
     end).
Proof.
  intros Hty Htext Hne Hmeta w2.
  destruct (load_metadata_ok _ Hmeta) as [v Hv].
  unfold process_job, bind, try_except. rewrite Hv, Hty.
  unfold run_summarize, bind.
  rewrite Htext, (truthy_str_some _ Hne). cbn [negb].
  rewrite announce_run, summarize_text_run. fold w2.
  destruct (summarization E text) as [e | [[out model] ms]].
  - apply on_failure_run.
  - rewrite exec_run.
    destruct (bound_submission (Job.audio_file_id job)); reflexivity.
Qed.

(** A job without its input is failed at processing time, before any
    backend is invoked. *)
Lemma process_without_input (E : Env) (w : world) (job : Job.t) :
  Job.metadata job <> Some TextInvalid ->
  (Job.job_type job = TRANSCRIBE ->
   truthy_str (Job.input_file_path job) = false ->
   process_job E job w
   = (inr tt,
      failed_world E job
        (mkExn ValueError "No input file path for transcribe job") w))
  /\ (Job.job_type job = SUMMARIZE ->
      truthy_str (Job.input_text job) = false ->
      process_job E job w
      = (inr tt,
         failed_world E job
           (mkExn ValueError "No input text for summarize job") w)).
Proof.
  intro Hmeta. destruct (load_metadata_ok _ Hmeta) as [v Hv].
  split; intros Hty Hin; unfold process_job, bind, try_except;
    rewrite Hv, Hty.
  - unfold run_transcribe. rewrite Hin. cbn [negb]. unfold raise.
    apply on_failure_run.
  - unfold run_summarize. rewrite Hin. cbn [negb]. unfold raise.
    apply on_failure_run.
Qed.

Lemma failed_world_calls (E : Env) (job : Job.t) (e : exn) (w : world) :
  calls (failed_world E job e w) = calls w.
Proof.
  unfold failed_world.
  destruct (bound_submission (Job.audio_file_id job)); reflexivity.
Qed.

Lemma announced_calls (E : Env) (job : Job.t) (st : SubmissionStatus)
    (w : world) :
  calls (announced E job st w) = calls w.
Proof.
  unfold announced.
  destruct (bound_submission (Job.audio_file_id job)); reflexivity.
Qed.

Lemma announced_jobs (E : Env) (job : Job.t) (st : SubmissionStatus)
    (w : world) :
  jobs (db (announced E job st w)) = jobs (db w).
Proof.
  unfold announced.
  destruct (bound_submission (Job.audio_file_id job)); [| reflexivity].
  cbn [stepped db]. apply update_status_jobs.
Qed.

(** The job row after the [except] block: failed, with [str(e)]. *)
Lemma failed_world_job (E : Env) (job : Job.t) (e : exn) (w : world) :
  NoDup (map Job.id (jobs (db w))) -> In job (jobs (db w)) ->
  get_job (Job.id job) (db (failed_world E job e w))
  = Some (failed (clock E (ticks w)) (exn_msg e) job).
Proof.
  intros Hnd Hin. unfold failed_world.
  destruct (bound_submission (Job.audio_file_id job));
    cbn [stepped db ticks]; rewrite ?get_job_update_status;
    unfold fail_job_update; rewrite get_job_update by reflexivity;
    rewrite Z.eqb_refl, (get_job_in _ _ Hnd Hin); reflexivity.
Qed.

(** ** Enqueue (C5) *)

(** C5, as written, fails: [create_job] accepts a transcribe job without
    a media locator and a summarize job without text, and persists each as
    a pending row. *)
Lemma enqueue_without_input_accepted :
  (exists s',
     create_job 5 TRANSCRIBE None None None None "local" empty_store
     = inr (1, s')
     /\ option_map Job.status (get_job 1 s') = Some PENDING
     /\ option_map Job.input_file_path (get_job 1 s') = Some None)
  /\ (exists s',
        create_job 5 SUMMARIZE None None None None "local" empty_store
        = inr (1, s')
        /\ option_map Job.status (get_job 1 s') = Some PENDING
        /\ option_map Job.input_text (get_job 1 s') = Some None).
Proof.
  split; eexists; (split; [vm_compute; reflexivity |]); split; reflexivity.
Qed.

(** C5 (amended): [create_job] does not validate the input.  Whatever the
    kind and the inputs, an enqueue whose provider is one of the four the
    schema admits is accepted: it appends exactly one row, pending, under
    a fresh id, carrying the arguments; of the metadata, a dict with a
    member is stored as its JSON text and an empty or absent one as NULL,
    either way read back by [process_job] as the dict that was given; the
    result columns are NULL.  An enqueue with another provider is refused
    by the store with an integrity error, and no row is created.  A
    missing input is found when the job is processed: a job whose
    metadata column can be parsed, as that of every row [create_job]
    writes, is then found with status failed and the [ValueError]
    message of its kind, and no backend is invoked. *)
Theorem enqueue_checks_provider_only (now : timestamp) (job_type : JobType)
    (input_file_path input_text audio_file_id : option string)
    (metadata : option (list (string * json))) (provider : string)
    (s : store) (E : Env) (w : world) (job : Job.t) :
  (provider_allowed provider = true ->
   exists row,
     create_job now job_type input_file_path input_text audio_file_id
       metadata provider s
     = inr (next_job_id s,
            {| jobs := jobs s ++ [row]; jobs_seq := next_job_id s;
               audio_submissions := audio_submissions s |})
     /\ Job.id row = next_job_id s
     /\ ~ In (Job.id row) (map Job.id (jobs s))
     /\ Job.status row = PENDING
     /\ Job.job_type row = job_type
     /\ Job.provider row = provider
     /\ Job.input_file_path row = input_file_path
     /\ Job.input_text row = input_text
     /\ Job.audio_file_id row = audio_file_id
     /\ Job.created_at row = now
     /\ Job.metadata row
        = match metadata with
          | Some (m :: ms) => Some (TextJson (JObj (m :: ms)))
          | _ => None
          end
     /\ metadata_dict (Job.metadata row)
        = Some (match metadata with Some m => m | None => [] end)
     /\ Job.output_text row = None
     /\ Job.error_message row = None
     /\ Job.started_at row = None
     /\ Job.completed_at row = None
     /\ Job.processing_time_ms row = None
     /\ Job.model_used row = None)
  /\ (provider_allowed provider = false ->
      exists e,
        create_job now job_type input_file_path input_text audio_file_id
          metadata provider s = inl e
        /\ exn_cls e = IntegrityError)
  /\ (store_wf (db w) -> In job (jobs (db w)) ->
      Job.metadata job <> Some TextInvalid ->
      forall msg,
        (Job.job_type job = TRANSCRIBE
         /\ truthy_str (Job.input_file_path job) = false
         /\ msg = "No input file path for transcribe job"
         \/ Job.job_type job = SUMMARIZE
            /\ truthy_str (Job.input_text job) = false
            /\ msg = "No input text for summarize job") ->
        fst (process_job E job w) = inr tt
        /\ calls (snd (process_job E job w)) = calls w
        /\ exists lost,
             get_job (Job.id job) (db (snd (process_job E job w)))
             = Some lost
             /\ lost = failed (clock E (ticks w)) msg job
             /\ Job.status lost = FAILED
             /\ Job.error_message lost = Some msg
             /\ Job.completed_at lost = Some (clock E (ticks w))
             /\ Job.output_text lost = Job.output_text job).
Proof.
  split; [| split].
  - intro Hp.
    destruct (create_job_accepted now job_type input_file_path input_text
                audio_file_id metadata provider s Hp)
      as (row & Hc & Hid & Hrest).
    exists row. split; [exact Hc |]. split; [exact Hid |].
    split; [| exact Hrest].
    rewrite Hid. intro Hin. apply in_map_iff in Hin.
    destruct Hin as (r & Hr & Hin). apply next_job_id_fresh in Hin. lia.
  - apply create_job_rejected.
  - intros [Hnd _] Hin Hmeta msg Hcase.
    destruct (process_without_input E w job Hmeta) as [Ht Hs].
    destruct Hcase as [(Hty & Hno & ->) | (Hty & Hno & ->)].
    + rewrite (Ht Hty Hno). cbn [fst snd].
      split; [reflexivity |]. split; [apply failed_world_calls |].
      eexists. split; [apply failed_world_job; assumption |].
      repeat split.
    + rewrite (Hs Hty Hno). cbn [fst snd].
      split; [reflexivity |]. split; [apply failed_world_calls |].
      eexists. split; [apply failed_world_job; assumption |].
      repeat split.
Qed.

(** The amended C5 at work: a transcribe job without a file is enqueued
    with its metadata, an unknown provider is refused, and a claimed job
    without its input is failed without a backend call. *)
Lemma enqueue_checks_provider_only_witness :
  let job := sample_job 1 TRANSCRIBE PROCESSING 10 in
  let w := world_with job (sample_submission "S") in
  (exists row,
     create_job 5 TRANSCRIBE None None None
       (Some [("autoSummarize", JBool true)]) "local" empty_store
     = inr (1, {| jobs := [row]; jobs_seq := 1; audio_submissions := [] |})
     /\ Job.status row = PENDING
     /\ Job.input_file_path row = None
     /\ Job.metadata row
        = Some (TextJson (JObj [("autoSummarize", JBool true)])))
  /\ (exists e,
        create_job 5 TRANSCRIBE (Some "a.wav") None None None "nonexistent"
          empty_store = inl e
        /\ exn_cls e = IntegrityError)
  /\ fst (process_job sample_env job w) = inr tt
  /\ calls (snd (process_job sample_env job w)) = []
  /\ exists lost,
       get_job 1 (db (snd (process_job sample_env job w))) = Some lost
       /\ Job.status lost = FAILED
       /\ Job.error_message lost
          = Some "No input file path for transcribe job".
Proof.
  intros job w. split; [| split].
  - destruct (enqueue_checks_provider_only 5 TRANSCRIBE None None None
                (Some [("autoSummarize", JBool true)])
                "local" empty_store sample_env w job) as (Hacc & _ & _).
    destruct (Hacc eq_refl)
      as (row & Hc & _ & _ & Hst & _ & _ & Hin & _ & _ & _ & Hmd & _).
    exists row.
    split; [exact Hc | split; [exact Hst | split; [exact Hin | exact Hmd]]].
  - destruct (enqueue_checks_provider_only 5 TRANSCRIBE (Some "a.wav") None
                None None "nonexistent" empty_store sample_env w job)
      as (_ & Hrej & _).
    exact (Hrej eq_refl).
  - destruct (enqueue_checks_provider_only 5 TRANSCRIBE None None None None
                "local" empty_store sample_env w job) as (_ & _ & Hrun).
    assert (Hw : store_wf (db w)) by solve_wf.
    assert (Hin : In job (jobs (db w))) by (simpl; tauto).
    assert (Hmd : Job.metadata job <> Some TextInvalid) by discriminate.
    destruct (Hrun Hw Hin Hmd "No input file path for transcribe job"
                (or_introl (conj eq_refl (conj eq_refl eq_refl))))
      as (Hret & Hcalls & lost & Hl & _ & Hst & Hmsg & _).
    split; [exact Hret |]. split; [exact Hcalls |].
    exists lost. split; [exact Hl | split; [exact Hst | exact Hmsg]].
Defined.

(** ** The chaining condition (C10) *)

Lemma dict_get_missing (key : string) (members : list (string * json))
    (default : json) :
  (forall k v, In (k, v) members -> k <> key) ->
  dict_get key members default = default.
Proof.
  revert default. induction members as [| [k v] rest IH];
    intros default H; simpl.
  - reflexivity.
  - destruct (k =? key)%string eqn:He.
    + apply String.eqb_eq in He. exfalso.
      apply (H k v); [left; reflexivity | exact He].
    + apply IH. intros k' v' Hin. apply (H k' v'). right. exact Hin.
Qed.

(** C10: for a transcribe job bound to a submission that completes, the
    chained summarize job is created exactly when the value that
    [metadata.get('autoSummarize', False)] yields is truthy.  Any non-zero
    number and any non-empty string, the string "false" among them, is
    truthy; [false], 0, a missing key and an absent metadata column are
    not. *)
Theorem chain_condition_is_truthiness (E : Env) (w : world) (job : Job.t)
    (path sid out model : string) (ms : Z) (m : list (string * json)) :
  Job.job_type job = TRANSCRIBE ->
  Job.input_file_path job = Some path -> path <> "" ->
  path_exists E path = true ->
  bound_submission (Job.audio_file_id job) = Some sid ->
  metadata_dict (Job.metadata job) = Some m ->
  transcription E path (Job.provider job) = inr (out, model, ms) ->
  (exists before,
     map Job.id (jobs before) = map Job.id (jobs (db w))
     /\ fst (process_job E job w) = inr tt
     /\ (py_truthy (dict_get "autoSummarize" m (JBool false)) = true ->
         exists row,
           jobs (db (snd (process_job E job w))) = jobs before ++ [row]
           /\ Job.job_type row = SUMMARIZE
           /\ Job.status row = PENDING
           /\ Job.input_text row = Some out
           /\ Job.audio_file_id row = Some sid)
     /\ (py_truthy (dict_get "autoSummarize" m (JBool false)) = false ->
         db (snd (process_job E job w)) = before))
  /\ (forall n, n <> 0 -> py_truthy (JInt n) = true)
  /\ (forall s, s <> "" -> py_truthy (JStr s) = true)
  /\ py_truthy (JStr "false") = true
  /\ py_truthy (JBool true) = true
  /\ py_truthy (JBool false) = false
  /\ py_truthy (JInt 0) = false
  /\ py_truthy JNull = false
  /\ (forall members,
        (forall k v, In (k, v) members -> k <> "autoSummarize") ->
        py_truthy (dict_get "autoSummarize" members (JBool false)) = false)
  /\ metadata_dict None = Some [].
Proof.
  intros Hty Hpath Hne Hex Hsid Hmeta Hans. split.
  - rewrite (process_transcribe_bound E w job path sid out model ms m
               Hty Hpath Hne Hex Hsid Hmeta Hans).
    set (s1 := update_audio_submission_status (clock E (ticks w)) sid
                 SubTranscribing None (db w)).
    set (s2 := complete_job_update (clock E (S (ticks w))) (Job.id job) out model
                 ms s1).
    set (s3 := update_audio_submission_transcript
                 (clock E (S (S (ticks w)))) sid out (Job.id job) s2).
    cbn [stepped called db ticks calls]. fold s1. fold s2. fold s3.
    exists s3. split.
    { subst s3 s2.
      cbn [update_audio_submission_transcript with_submissions jobs].
      unfold complete_job_update. cbn [with_jobs jobs].
      rewrite update_job_ids by reflexivity.
      subst s1. rewrite update_status_jobs. reflexivity. }
    destruct (py_truthy (dict_get "autoSummarize" m (JBool false))).
    + unfold create_job.
      cbn [provider_allowed String.eqb Ascii.eqb Bool.eqb orb fst snd db].
      split; [reflexivity |]. split; [| discriminate].
      intros _. eexists. split; [reflexivity |].
      repeat split; reflexivity.
    + cbn [fst snd]. split; [reflexivity |]. split; [discriminate |].
      reflexivity.
  - split.
    { intros n Hn. simpl. destruct (n =? 0) eqn:He; [| reflexivity].
      apply Z.eqb_eq in He. contradiction. }
    split.
    { intros s Hs. simpl. destruct (s =? "")%string eqn:He; [| reflexivity].
      apply String.eqb_eq in He. contradiction. }
    do 5 (split; [reflexivity |]).
    split; [| reflexivity].
    intros members Hm. rewrite dict_get_missing by exact Hm. reflexivity.
Qed.

(** C10 on the string "false": the summarize job is created. *)
Lemma chain_condition_is_truthiness_witness :
  let job := transcribe_job "local" (auto_summarize (JStr "false")) in
  let w := world_with job (sample_submission "S") in
  exists before row,
    jobs before = [completed 101 "hello world" "whisper-large-v3" 1200 job]
    /\ jobs (db (snd (process_job sample_env job w))) = jobs before ++ [row]
    /\ Job.job_type row = SUMMARIZE
    /\ Job.input_text row = Some "hello world".
Proof.
  intros job w.
  destruct (chain_condition_is_truthiness sample_env w job "a.wav" "S"
              "hello world" "whisper-large-v3" 1200
              [("autoSummarize", JStr "false")])
    as [(before & Hids & Hret & Hyes & Hno) _];
    try reflexivity; try discriminate.
  destruct (Hyes eq_refl) as (row & Hjobs & Hty & _ & Hin & _).
  exists before, row. split; [| split; [exact Hjobs | split; assumption]].
  assert (Hc : removelast (jobs (db (snd (process_job sample_env job w))))
               = [completed 101 "hello world" "whisper-large-v3" 1200 job])
    by (vm_compute; reflexivity).
  rewrite Hjobs, removelast_last in Hc. exact Hc.
Defined.

(** ** Provider selection (C4) *)

Lemma transcription_local (E : Env) (path provider : string) :
  provider <> "deepgram" ->
  transcribe_call path provider = CallWhisper path
  /\ transcription E path provider
     = match whisper E path with
       | inl e => inl e
       | inr (text, ms) => inr (text, "whisper-large-v3", ms)
       end.
Proof.
  intro Hp. unfold transcribe_call, transcription, transcribe_audio.
  destruct (provider =? "deepgram")%string eqn:He.
  - apply String.eqb_eq in He. contradiction.
  - split; [reflexivity |].
    unfold transcribe_audio_local, invoke.
    destruct (whisper E path) as [e | [t ms]]; reflexivity.
Qed.

Lemma summarization_ollama (E : Env) (text : string) :
  summarization E text
  = match ollama E text with
    | inl e => inl e
    | inr (out, ms) => inr (out, "llama3.1:8b", ms)
    end.
Proof.
  unfold summarization, summarize_text, invoke.
  destruct (ollama E text) as [e | [t ms]]; reflexivity.
Qed.

(** C4, as written, fails: a transcribe job whose provider has no
    strategy of its own is not failed.  For the provider "nonexistent",
    and for "openai", which the schema admits, the local model is
    invoked and the job is completed with its output. *)
Lemma unknown_provider_runs_local_model :
  let run := fun provider =>
    let job := transcribe_job provider None in
    snd (process_job sample_env job
           (world_with job (sample_submission "S"))) in
  calls (run "nonexistent") = [CallWhisper "a.wav"]
  /\ option_map Job.status (get_job 1 (db (run "nonexistent")))
     = Some COMPLETED
  /\ option_map Job.output_text (get_job 1 (db (run "nonexistent")))
     = Some (Some "hello world")
  /\ provider_allowed "openai" = true
  /\ calls (run "openai") = [CallWhisper "a.wav"]
  /\ option_map Job.status (get_job 1 (db (run "openai"))) = Some COMPLETED.
Proof.
  repeat split; vm_compute; reflexivity.
Qed.

(** C4 (amended): no provider is unknown to the dispatch.  For a job of
    the table whose metadata column is NULL, empty or a JSON object: a
    transcribe job with a non-empty path of a file that exists and any
    provider other than "deepgram" is run on the local model, and a
    summarize job with a non-empty text is run on the one summarisation
    backend whatever its provider;
    exactly that one backend call is made.  The job is then found with
    status completed, the backend's output, model name and duration, if
    the backend answers, and with status failed and the backend's own
    error message if the backend raises. *)
Theorem unlisted_provider_uses_default (E : Env) (w : world) (job : Job.t)
    (m : list (string * json)) :
  store_wf (db w) ->
  In job (jobs (db w)) ->
  metadata_dict (Job.metadata job) = Some m ->
  (forall path,
     Job.job_type job = TRANSCRIBE ->
     Job.provider job <> "deepgram" ->
     Job.input_file_path job = Some path -> path <> "" ->
     path_exists E path = true ->
     fst (process_job E job w) = inr tt
     /\ calls (snd (process_job E job w)) = calls w ++ [CallWhisper path]
     /\ (forall out ms, whisper E path = inr (out, ms) ->
           exists t done,
             get_job (Job.id job) (db (snd (process_job E job w)))
             = Some done
             /\ done = completed t out "whisper-large-v3" ms job
             /\ Job.status done = COMPLETED
             /\ Job.output_text done = Some out
             /\ Job.model_used done = Some "whisper-large-v3"
             /\ Job.processing_time_ms done = Some ms
             /\ Job.error_message done = Job.error_message job)
     /\ (forall e, whisper E path = inl e ->
           exists t lost,
             get_job (Job.id job) (db (snd (process_job E job w)))
             = Some lost
             /\ lost = failed t (exn_msg e) job
             /\ Job.status lost = FAILED
             /\ Job.error_message lost = Some (exn_msg e)
             /\ Job.output_text lost = Job.output_text job))
  /\ (forall text,
        Job.job_type job = SUMMARIZE ->
        Job.input_text job = Some text -> text <> "" ->
        fst (process_job E job w) = inr tt
        /\ calls (snd (process_job E job w)) = calls w ++ [CallOllama text]
        /\ (forall out ms, ollama E text = inr (out, ms) ->
              exists t done,
                get_job (Job.id job) (db (snd (process_job E job w)))
                = Some done
                /\ done = completed t out "llama3.1:8b" ms job
                /\ Job.status done = COMPLETED
                /\ Job.output_text done = Some out
                /\ Job.model_used done = Some "llama3.1:8b"
                /\ Job.processing_time_ms done = Some ms
                /\ Job.error_message done = Job.error_message job)
        /\ (forall e, ollama E text = inl e ->
              exists t lost,
                get_job (Job.id job) (db (snd (process_job E job w)))
                = Some lost
                /\ lost = failed t (exn_msg e) job
                /\ Job.status lost = FAILED
                /\ Job.error_message lost = Some (exn_msg e)
                /\ Job.output_text lost = Job.output_text job)).
Proof.
  intros [Hnd _] Hin Hmeta.
  pose proof (metadata_dict_valid _ _ Hmeta) as Hvalid.
  split.
  - intros path Hty Hprov Hpath Hne Hex.
    destruct (transcription_local E path (Job.provider job) Hprov)
      as [Hcall Htr].
    destruct (whisper E path) as [e | [out ms]] eqn:Hw.
    + rewrite (process_transcribe_raises E w job path e Hty Hpath Hne Hex
                 Hvalid Htr).
      cbn [fst snd]. split; [reflexivity |].
      rewrite failed_world_calls, Hcall. cbn [called calls].
      rewrite announced_calls. split; [reflexivity |].
      split; [intros out ms H; discriminate H |].
      intros e' He'. inversion He'; subst e'. eexists. eexists.
      split; [| repeat split].
      apply failed_world_job; cbn [called db]; rewrite announced_jobs;
        assumption.
    + assert (Hgoal :
        fst (process_job E job w) = inr tt
        /\ calls (snd (process_job E job w)) = calls w ++ [CallWhisper path]
        /\ exists t,
             get_job (Job.id job) (db (snd (process_job E job w)))
             = Some (completed t out "whisper-large-v3" ms job)).
      { destruct (bound_submission (Job.audio_file_id job)) as [sid |] eqn:Hsid.
        - rewrite (process_transcribe_bound E w job path sid out
                     "whisper-large-v3" ms m Hty Hpath Hne Hex Hsid Hmeta Htr).
          rewrite Hcall.
          assert (Hrow :
            get_job (Job.id job)
              (update_audio_submission_transcript
                 (clock E (S (S (ticks w)))) sid out (Job.id job)
                 (complete_job_update (clock E (S (ticks w))) (Job.id job) out
                    "whisper-large-v3" ms
                    (update_audio_submission_status (clock E (ticks w)) sid
                       SubTranscribing None (db w))))
            = Some (completed (clock E (S (ticks w))) out
                      "whisper-large-v3" ms job)).
          { unfold update_audio_submission_transcript, get_job.
            cbn [with_submissions jobs].
            match goal with
            | |- find _ (jobs ?s) = _ => fold (get_job (Job.id job) s)
            end.
            unfold complete_job_update. rewrite get_job_update by reflexivity.
            rewrite Z.eqb_refl, get_job_update_status,
              (get_job_in _ _ Hnd Hin).
            reflexivity. }
          destruct (py_truthy (dict_get "autoSummarize" m (JBool false))).
          + unfold create_job.
            cbn [provider_allowed String.eqb Ascii.eqb Bool.eqb orb
                 fst snd db stepped called ticks calls].
            split; [reflexivity |]. split; [reflexivity |].
            eexists. apply get_job_appended. exact Hrow.
          + cbn [fst snd db stepped called ticks calls].
            split; [reflexivity |]. split; [reflexivity |].
            eexists. exact Hrow.
        - rewrite (process_transcribe_unbound E w job path out
                     "whisper-large-v3" ms Hty Hpath Hne Hex Hvalid Hsid Htr).
          rewrite Hcall. cbn [fst snd db stepped called ticks calls].
          split; [reflexivity |]. split; [reflexivity |].
          eexists. apply get_job_completed; assumption. }
      destruct Hgoal as (Hret & Hcalls & t & Hrow).
      split; [exact Hret |]. split; [exact Hcalls |]. split.
      * intros out' ms' H. inversion H; subst. exists t. eexists.
        split; [exact Hrow | repeat split].
      * intros e H. discriminate H.
  - intros text Hty Htext Hne.
    rewrite (process_summarize_run E w job text Hty Htext Hne Hvalid).
    rewrite summarization_ollama. cbn [fst snd].
    split; [reflexivity |].
    destruct (ollama E text) as [e | [out ms]] eqn:Ho.
    + rewrite failed_world_calls. cbn [called calls].
      rewrite announced_calls. split; [reflexivity |].
      split; [intros out ms H; discriminate H |].
      intros e' He'. inversion He'; subst e'. eexists. eexists.
      split; [| repeat split].
      apply failed_world_job; cbn [called db]; rewrite announced_jobs;
        assumption.
    + assert (Hrow :
        get_job (Job.id job)
          (complete_job_update (clock E (ticks (announced E job SubSummarizing w)))
             (Job.id job) out "llama3.1:8b" ms
             (db (announced E job SubSummarizing w)))
        = Some (completed
                  (clock E (ticks (announced E job SubSummarizing w)))
                  out "llama3.1:8b" ms job)).
      { apply get_job_completed; rewrite announced_jobs; assumption. }
      split; [| split].
      * destruct (bound_submission (Job.audio_file_id job));
          cbn [stepped called calls]; rewrite announced_calls; reflexivity.
      * intros out' ms' H. inversion H; subst. eexists. eexists.
        split; [| repeat split].
        destruct (bound_submission (Job.audio_file_id job)) eqn:Hb;
          cbn [stepped called db ticks]; exact Hrow.
      * intros e H. discriminate H.
Qed.

(** The amended C4 on a transcribe job for the provider "openai". *)
Lemma unlisted_provider_uses_default_witness :
  let job := transcribe_job "openai" None in
  let w := world_with job (sample_submission "S") in
  store_wf (db w)
  /\ calls (snd (process_job sample_env job w)) = [CallWhisper "a.wav"]
  /\ exists done,
       get_job 1 (db (snd (process_job sample_env job w))) = Some done
       /\ Job.status done = COMPLETED
       /\ Job.output_text done = Some "hello world"
       /\ Job.model_used done = Some "whisper-large-v3"
       /\ Job.processing_time_ms done = Some 1200.
Proof.
  intros job w.
  assert (Hw : store_wf (db w)) by solve_wf.
  split; [exact Hw |].
  destruct (unlisted_provider_uses_default sample_env w job [] Hw)
    as [Ht _]; [simpl; tauto | reflexivity |].
  destruct (Ht "a.wav") as (_ & Hcalls & Hok & _);
    try reflexivity; try discriminate.
  split; [exact Hcalls |].
  destruct (Hok "hello world" 1200 eq_refl)
    as (t & done & H1 & _ & H3 & H4 & H5 & H6 & _).
  exists done. repeat split; assumption.
Defined.

(** ** Failure propagation (C6) *)

(** Where the code agrees with C6: when the error message is not empty,
    the [except] block leaves the submission failed with that message,
    whatever its status and transcript were. *)
Lemma failure_reaches_submission (E : Env) (w : world) (job : Job.t)
    (sub : Submission.t) (e : exn) :
  store_wf (db w) ->
  In sub (audio_submissions (db w)) ->
  bound_submission (Job.audio_file_id job) = Some (Submission.id sub) ->
  exn_msg e <> "" ->
  get_audio_submission (Submission.id sub) (db (failed_world E job e w))
  = Some (restated (clock E (S (ticks w))) SubFailed (Some (exn_msg e)) sub).
Proof.
  intros [_ Hnd] Hin Hsid Hmsg. unfold failed_world. rewrite Hsid.
  cbn [stepped db ticks]. rewrite get_submission_update_status.
  rewrite (truthy_str_some _ Hmsg).
  unfold fail_job_update, get_audio_submission. cbn [with_jobs audio_submissions].
  fold (get_audio_submission (Submission.id sub) (db w)).
  rewrite (get_submission_in _ _ Hnd Hin).
  reflexivity.
Qed.

(** Metadata that is not JSON makes [process_job] raise before its [try]:
    nothing is written, the job stays as claimed. *)
Lemma invalid_metadata_escapes (E : Env) (w : world) (job : Job.t) :
  Job.metadata job = Some TextInvalid ->
  exists e,
    process_job E job w = (inl e, w) /\ exn_cls e = JSONDecodeError.
Proof.
  intro H. unfold process_job, bind. rewrite H. simpl.
  eexists. split; reflexivity.
Qed.

(** C6 at its failing input: a summarize job bound to "S" whose backend
    raises an exception with an empty message.  The job is failed and its
    error message is the empty string, the submission is failed, but the
    submission's error detail is not written: it is still NULL, or still
    the text of an earlier error. *)
Theorem empty_error_message_not_copied :
  let env := failing_summary_env (mkExn OtherException "") in
  let run := fun sub =>
    db (snd (process_job env summarize_job (world_with summarize_job sub))) in
  let stale := restated 55 SubSummarizing (Some "stale") transcribed_submission in
  option_map Job.status (get_job 2 (run transcribed_submission))
  = Some FAILED
  /\ option_map Job.error_message (get_job 2 (run transcribed_submission))
     = Some (Some "")
  /\ option_map Submission.status
       (get_audio_submission "S" (run transcribed_submission))
     = Some SubFailed
  /\ option_map Submission.error_message
       (get_audio_submission "S" (run transcribed_submission))
     = Some None
  /\ option_map Submission.error_message
       (get_audio_submission "S" (run stale))
     = Some (Some "stale").
Proof.
  repeat split; vm_compute; reflexivity.
Qed.

(** ** Queue statistics (C8) *)

(** C8: [get_queue_status] writes nothing, so a second call right after
    the first reads the same database and returns the same counts, total
    and average; and its result is a function of the [jobs] table
    alone. *)
Theorem status_snapshot_read_only (s : store) :
  snd (get_queue_status s) = s
  /\ fst (get_queue_status (snd (get_queue_status s)))
     = fst (get_queue_status s)
  /\ (forall s', jobs s' = jobs s ->
        fst (get_queue_status s') = fst (get_queue_status s))
  /\ pending (fst (get_queue_status s))
     + processing (fst (get_queue_status s))
     + completed_count (fst (get_queue_status s))
     + failed_count (fst (get_queue_status s))
     = total_jobs (fst (get_queue_status s)).
Proof.
  split; [reflexivity |]. split; [reflexivity |]. split.
  - intros s' H. unfold get_queue_status. cbn [fst]. rewrite H. reflexivity.
  - unfold get_queue_status, count_status. cbn [fst pending processing
      completed_count failed_count total_jobs].
    induction (jobs s) as [| r rest IH]; [reflexivity |].
    cbn [filter List.length]. destruct (Job.status r); cbn [JobStatus_eqb];
      cbn [List.length]; lia.
Qed.

(** [get_queue_status] on [mixed_queue], with and without a submission
    on record. *)
Lemma status_snapshot_read_only_witness :
  fst (get_queue_status
         (with_submissions [sample_submission "S"] mixed_queue))
  = fst (get_queue_status mixed_queue)
  /\ pending (fst (get_queue_status mixed_queue)) = 3
  /\ total_jobs (fst (get_queue_status mixed_queue)) = 4.
Proof.
  split.
  - apply (status_snapshot_read_only mixed_queue). reflexivity.
  - split; reflexivity.
Defined.

(** ** Concurrent claims (C7) *)

Lemma set_nth_length {A : Type} (i : nat) (x : A) (l : list A) :
  List.length (set_nth i x l) = List.length l.
Proof.
  revert i. induction l as [| a l IH]; intros [| i]; simpl; auto.
Qed.

Lemma set_nth_same {A : Type} (i : nat) (x a : A) (l : list A) :
  nth_error l i = Some a -> nth_error (set_nth i x l) i = Some x.
Proof.
  revert i. induction l as [| b l IH]; intros [| i]; simpl; intro H;
    try discriminate; auto.
Qed.

Lemma set_nth_other {A : Type} (i k : nat) (x : A) (l : list A) :
  i <> k -> nth_error (set_nth i x l) k = nth_error l k.
Proof.
  revert i k. induction l as [| b l IH]; intros [| i] [| k] H; simpl;
    try reflexivity.
  - contradiction.
  - apply IH. intro He. apply H. f_equal. exact He.
Qed.

Lemma nth_error_waiting (N k : nat) :
  (k < N)%nat -> nth_error (repeat Waiting N) k = Some Waiting.
Proof.
  revert k. induction N as [| N IH]; intros [| k] H; simpl;
    try (exfalso; lia); [reflexivity | apply IH; lia].
Qed.

Lemma claims_disjoint_step (p q : pool) :
  claims_disjoint p -> claim_step p q -> claims_disjoint q.
Proof.
  intros (Hnd & Hgot & Hdis) Hstep.
  destruct Hstep as [p i0 now Hwait].
  unfold claims_disjoint, get_next_pending_job.
  destruct (oldest_pending (jobs (shared p))) as [j |] eqn:Hj;
    cbn [fst snd shared attempts].
  - destruct (oldest_pending_some _ _ Hj) as (Hin & Hpj & _).
    rewrite (filter_id_unique _ _ Hnd Hin). cbn [map hd_error].
    assert (Hold : forall k b,
              k <> i0 ->
              nth_error (set_nth i0 (Got (Some (claimed now j)))
                           (attempts p)) k = Some (Got (Some b)) ->
              nth_error (attempts p) k = Some (Got (Some b))).
    { intros k b Hk H. rewrite set_nth_other in H by auto. exact H. }
    split; [| split].
    + cbn [with_jobs jobs]. rewrite update_job_ids by reflexivity. exact Hnd.
    + intros i a Ha. cbn [with_jobs jobs].
      destruct (Nat.eq_dec i i0) as [-> | Hne].
      * rewrite (set_nth_same _ _ _ _ Hwait) in Ha. inversion Ha; subst a.
        exists (claimed now j).
        split; [| split; reflexivity].
        pose proof (update_job_in (Job.id j) (claimed now) _ _ Hin) as H.
        rewrite Z.eqb_refl in H. exact H.
      * apply Hold in Ha; [| exact Hne].
        destruct (Hgot i a Ha) as (r & Hr & Hid & Hnp).
        exists (if Job.id r =? Job.id j then claimed now r else r).
        split; [apply update_job_in; exact Hr |].
        destruct (Job.id r =? Job.id j); split; auto.
    + intros i k a b Hik Ha Hb.
      assert (Hfresh : forall x c,
                nth_error (attempts p) x = Some (Got (Some c)) ->
                Job.id c <> Job.id j).
      { intros x c Hc He. destruct (Hgot x c Hc) as (r & Hr & Hid & Hnp).
        assert (r = j)
          by (apply (same_id_same_row (jobs (shared p))); auto; congruence).
        subst r. congruence. }
      destruct (Nat.eq_dec i i0) as [-> | Hi].
      * rewrite (set_nth_same _ _ _ _ Hwait) in Ha. inversion Ha; subst a.
        apply Hold in Hb; [| auto]. cbn [claimed Job.id].
        intro He. apply (Hfresh k b Hb). symmetry. exact He.
      * apply Hold in Ha; [| exact Hi].
        destruct (Nat.eq_dec k i0) as [-> | Hk].
        -- rewrite (set_nth_same _ _ _ _ Hwait) in Hb. inversion Hb; subst b.
           cbn [claimed Job.id]. apply (Hfresh i a Ha).
        -- apply Hold in Hb; [| exact Hk]. apply (Hdis i k); assumption.
  - assert (Hold : forall k b,
              nth_error (set_nth i0 (Got None) (attempts p)) k
              = Some (Got (Some b)) ->
              nth_error (attempts p) k = Some (Got (Some b))).
    { intros k b H. destruct (Nat.eq_dec k i0) as [-> | Hk].
      - rewrite (set_nth_same _ _ _ _ Hwait) in H. discriminate.
      - rewrite set_nth_other in H by auto. exact H. }
    split; [exact Hnd | split].
    + intros i a Ha. apply (Hgot i). apply Hold. exact Ha.
    + intros i k a b Hik Ha Hb. apply (Hdis i k); auto.
Qed.

Lemma claims_disjoint_reachable (N : nat) (s : store) (p : pool) :
  NoDup (map Job.id (jobs s)) ->
  claim_steps (start_pool N s) p -> claims_disjoint p.
Proof.
  intros Hnd Hsteps. remember (start_pool N s) as p0 eqn:Hp0.
  induction Hsteps as [p | p q r Hpq IH Hqr].
  - subst p. split; [exact Hnd | split].
    + intros i a H. cbn [start_pool attempts] in H.
      apply nth_error_In, repeat_spec in H. discriminate.
    + intros i k a b _ H. cbn [start_pool attempts] in H.
      apply nth_error_In, repeat_spec in H. discriminate.
  - apply (claims_disjoint_step q r); [apply IH; exact Hp0 | exact Hqr].
Qed.

Lemma one_claim_state_step (N : nat) (s : store) (j0 : Job.t) (p q : pool) :
  NoDup (map Job.id (jobs s)) ->
  pendings (jobs s) = [j0] ->
  one_claim_state N s j0 p -> claim_step p q -> one_claim_state N s j0 q.
Proof.
  intros Hnd Hone [Hlen Hstate] Hstep.
  destruct Hstep as [p i0 now Hwait]. unfold one_claim_state.
  cbn [shared attempts]. rewrite set_nth_length.
  split; [exact Hlen |]. right.
  assert (Hi0 : (i0 < N)%nat).
  { rewrite <- Hlen. apply nth_error_Some. rewrite Hwait. discriminate. }
  destruct Hstate as [[Hs Ha] | (Hnone & i & t & Hi & Hrest)].
  - rewrite Hs.
    assert (Hj : oldest_pending (jobs s) = Some j0).
    { rewrite oldest_pending_head; rewrite Hone;
        [reflexivity | constructor; constructor]. }
    rewrite (claim_some now s j0 Hnd Hj). cbn [fst snd with_jobs jobs].
    split; [apply pendings_tail_after_claim; assumption |].
    exists i0, now. split; [apply (set_nth_same _ _ _ _ Hwait) |].
    intros k Hk HkN. left. rewrite set_nth_other by auto.
    rewrite Ha. apply nth_error_waiting. exact HkN.
  - rewrite (claim_none now (shared p) Hnone). cbn [fst snd].
    split; [exact Hnone |].
    assert (Hne : i0 <> i) by (intro He; subst i0; congruence).
    exists i, t. split; [rewrite set_nth_other by exact Hne; exact Hi |].
    intros k Hk HkN. destruct (Nat.eq_dec k i0) as [-> | Hk0].
    + right. apply (set_nth_same _ _ _ _ Hwait).
    + rewrite set_nth_other by auto. apply Hrest; assumption.
Qed.

Lemma one_claim_state_reachable (N : nat) (s : store) (j0 : Job.t)
    (p : pool) :
  NoDup (map Job.id (jobs s)) ->
  pendings (jobs s) = [j0] ->
  claim_steps (start_pool N s) p -> one_claim_state N s j0 p.
Proof.
  intros Hnd Hone Hsteps. remember (start_pool N s) as p0 eqn:Hp0.
  induction Hsteps as [p | p q r Hpq IH Hqr].
  - subst p. split; [apply repeat_length |]. left. split; reflexivity.
  - apply (one_claim_state_step N s j0 q r); auto.
Qed.

(** C7: [N] concurrent attempts, the statements of which the store runs
    one at a time in any order.  On every well-formed queue, in every
    pool the attempts can reach, no two attempts hold rows with the same
    id.  If exactly one job [j0] is pending and all attempts have run,
    one attempt holds [j0], as claimed, and every other attempt holds
    none. *)
Theorem exactly_one_claim (N : nat) (s : store) (p : pool) :
  store_wf s ->
  claim_steps (start_pool N s) p ->
  (forall i k a b,
     i <> k ->
     nth_error (attempts p) i = Some (Got (Some a)) ->
     nth_error (attempts p) k = Some (Got (Some b)) ->
     Job.id a <> Job.id b)
  /\ (forall j0,
        pendings (jobs s) = [j0] -> all_done p -> (0 < N)%nat ->
        exists i now,
          (i < N)%nat
          /\ nth_error (attempts p) i = Some (Got (Some (claimed now j0)))
          /\ forall k, k <> i -> (k < N)%nat ->
               nth_error (attempts p) k = Some (Got None)).
Proof.
  intros [Hnd _] Hsteps. split.
  - apply (claims_disjoint_reachable N s p Hnd Hsteps).
  - intros j0 Hone Hdone HN.
    destruct (one_claim_state_reachable N s j0 p Hnd Hone Hsteps)
      as [Hlen [[_ Ha] | (_ & i & now & Hi & Hrest)]].
    + exfalso. unfold all_done in Hdone. rewrite Ha in Hdone.
      destruct N as [| N]; [lia |]. simpl in Hdone.
      inversion Hdone as [| x l Hx _]. apply Hx. reflexivity.
    + exists i, now. split; [| split; [exact Hi |]].
      * rewrite <- Hlen. apply nth_error_Some. rewrite Hi. discriminate.
      * intros k Hk HkN. destruct (Hrest k Hk HkN) as [Hw | Hg];
          [| exact Hg].
        exfalso. unfold all_done in Hdone.
        rewrite Forall_forall in Hdone.
        apply (Hdone Waiting); [| reflexivity].
        apply nth_error_In with k. exact Hw.
Qed.

(** C7 on three attempts against [one_pending], the second of which
    happens to run first. *)
Lemma exactly_one_claim_witness :
  exists p,
    claim_steps (start_pool 3 one_pending) p
    /\ all_done p
    /\ attempts p
       = [Got None;
          Got (Some (claimed 100 (sample_job 1 SUMMARIZE PENDING 10)));
          Got None]
    /\ exists i now,
         nth_error (attempts p) i
         = Some (Got (Some (claimed now (sample_job 1 SUMMARIZE PENDING 10))))
         /\ forall k, k <> i -> (k < 3)%nat ->
              nth_error (attempts p) k = Some (Got None).
Proof.
  pose (p0 := start_pool 3 one_pending).
  pose proof (claim_step_run p0 1 100 eq_refl) as H1.
  set (p1 := mkPool _ _) in H1.
  pose proof (claim_step_run p1 0 101 eq_refl) as H2.
  set (p2 := mkPool _ _) in H2.
  pose proof (claim_step_run p2 2 101 eq_refl) as H3.
  set (p3 := mkPool _ _) in H3.
  assert (Hsteps : claim_steps p0 p3).
  { apply claim_steps_snoc with p2; [| exact H3].
    apply claim_steps_snoc with p1; [| exact H2].
    apply claim_steps_snoc with p0; [| exact H1].
    apply claim_steps_refl. }
  assert (Hdone : all_done p3).
  { unfold all_done. vm_compute.
    repeat (constructor; [discriminate |]). constructor. }
  exists p3. split; [exact Hsteps |]. split; [exact Hdone |].
  split; [vm_compute; reflexivity |].
  assert (Hw : store_wf one_pending) by solve_wf.
  destruct (exactly_one_claim 3 one_pending p3 Hw Hsteps) as [_ Hone].
  destruct (Hone (sample_job 1 SUMMARIZE PENDING 10) eq_refl Hdone
              ltac:(lia)) as (i & now & _ & Hi & Hrest).
  exists i, now. split; assumption.
Defined.

(* ================================================================== *)
(** * Further properties of the queue and of the worker *)

(** ** What [process_job] does to the tables *)

Lemma truthy_str_inv (o : option string) :
  truthy_str o = true -> exists s, o = Some s /\ s <> "".
Proof.
  destruct o as [s |]; simpl; intro H; [| discriminate].
  exists s. split; [reflexivity |]. intro He. subst s. discriminate H.
Qed.

(** A transcribe job whose file is not there. *)
Lemma process_transcribe_missing_file (E : Env) (w : world) (job : Job.t)
    (path : string) :
  Job.job_type job = TRANSCRIBE ->
  Job.input_file_path job = Some path -> path <> "" ->
  path_exists E path = false ->
  Job.metadata job <> Some TextInvalid ->
  process_job E job w
  = (inr tt,
     failed_world E job
       (mkExn FileNotFoundError ("Audio file not found: " ++ path)%string)
       w).
Proof.
  intros Hty Hpath Hne Hex Hmeta.
  destruct (load_metadata_ok _ Hmeta) as [v Hv].
  unfold process_job, bind, try_except. rewrite Hv, Hty.
  unfold run_transcribe.
  rewrite Hpath, (truthy_str_some _ Hne), Hex. cbn [negb]. unfold raise.
  apply on_failure_run.
Qed.

(** A bound transcribe job whose metadata is JSON but not an object: the
    job is completed, the transcript recorded, and then
    [metadata.get] raises. *)
Lemma process_transcribe_bad_metadata (E : Env) (w : world) (job : Job.t)
    (path sid out model : string) (ms : Z) (v : json) :
  Job.job_type job = TRANSCRIBE ->
  Job.input_file_path job = Some path -> path <> "" ->
  path_exists E path = true ->
  bound_submission (Job.audio_file_id job) = Some sid ->
  Job.metadata job = Some (TextJson v) ->
  (forall m, v <> JObj m) ->
  transcription E path (Job.provider job) = inr (out, model, ms) ->
  process_job E job w
  = (inr tt,
     failed_world E job
       (mkExn AttributeError
          ("'" ++ py_type_name v ++ "' object has no attribute 'get'")%string)
       (stepped (fun now =>
                   update_audio_submission_transcript now sid out (Job.id job))
          E
          (stepped (fun now => complete_job_update now (Job.id job) out model ms) E
             (called (transcribe_call path (Job.provider job))
                (stepped (fun now =>
                            update_audio_submission_status now sid
                              SubTranscribing None) E w))))).
Proof.
  intros Hty Hpath Hne Hex Hsid Hmeta Hv Hans.
  unfold process_job, bind, try_except. rewrite Hmeta, Hty.
  cbn [load_metadata ret].
  unfold run_transcribe, bind.
  rewrite Hpath, (truthy_str_some _ Hne), Hex, Hsid. cbn [negb].
  rewrite exec_run, transcribe_audio_run, Hans, exec_run, exec_run.
  destruct v; try (exfalso; eapply Hv; reflexivity);
    cbn [metadata_get raise]; apply on_failure_run.
Qed.

Lemma update_job_compose (job_id : Z) (f g : Job.t -> Job.t)
    (rows : list Job.t) :
  (forall r, Job.id (g r) = Job.id r) ->
  update_job job_id f (update_job job_id g rows)
  = update_job job_id (fun r => f (g r)) rows.
Proof.
  intro Hg. unfold update_job. rewrite map_map. apply map_ext. intro r.
  destruct (Job.id r =? job_id) eqn:He.
  - rewrite Hg, He. reflexivity.
  - rewrite He. reflexivity.
Qed.

Lemma update_job_identity (job_id : Z) (rows : list Job.t) :
  update_job job_id (fun r => r) rows = rows.
Proof.
  unfold update_job. rewrite <- (map_id rows) at 2. apply map_ext.
  intro r. destruct (Job.id r =? job_id); reflexivity.
Qed.

Lemma update_submission_ids (sid : string)
    (f : Submission.t -> Submission.t) (rows : list Submission.t) :
  (forall r, Submission.id (f r) = Submission.id r) ->
  map Submission.id (update_submission sid f rows) = map Submission.id rows.
Proof.
  intro Hf. unfold update_submission. rewrite map_map. apply map_ext.
  intro r. destruct (Submission.id r =? sid)%string; [apply Hf | reflexivity].
Qed.

Lemma update_status_submission_ids (now : timestamp) (sid : string)
    (st : SubmissionStatus) (err : option string) (s : store) :
  map Submission.id
    (audio_submissions (update_audio_submission_status now sid st err s))
  = map Submission.id (audio_submissions s).
Proof.
  unfold update_audio_submission_status.
  destruct (truthy_str err); cbn [with_submissions audio_submissions];
    apply update_submission_ids; reflexivity.
Qed.

Lemma max_id_of_ids (a b : list Job.t) :
  map Job.id a = map Job.id b -> max_id a = max_id b.
Proof.
  unfold max_id. revert b. induction a as [| x a IH]; intros [| y b] H;
    simpl in *; try discriminate H; try reflexivity.
  inversion H as [[Hx Hrest]]. rewrite Hx, (IH b Hrest). reflexivity.
Qed.

Lemma touched_refl (job_id : Z) (s : store) : touched false job_id s s.
Proof.
  exists (fun r => r). rewrite update_job_identity.
  repeat split; auto. discriminate.
Qed.

Lemma touched_status (b : bool) (job_id : Z) (s s' : store)
    (now : timestamp) (sid : string) (st : SubmissionStatus)
    (err : option string) :
  touched b job_id s s' ->
  touched b job_id s (update_audio_submission_status now sid st err s').
Proof.
  intros (g & Hj & Hid & Ht & Hs). exists g.
  rewrite update_status_jobs, update_status_submission_ids. auto.
Qed.

Lemma touched_transcript (b : bool) (job_id : Z) (s s' : store)
    (now : timestamp) (sid out : string) (k : Z) :
  touched b job_id s s' ->
  touched b job_id s (update_audio_submission_transcript now sid out k s').
Proof.
  intros (g & Hj & Hid & Ht & Hs). exists g.
  unfold update_audio_submission_transcript.
  cbn [with_submissions jobs audio_submissions].
  rewrite update_submission_ids by reflexivity. auto.
Qed.

Lemma touched_summary (b : bool) (job_id : Z) (s s' : store)
    (now : timestamp) (sid out : string) (k : Z) :
  touched b job_id s s' ->
  touched b job_id s (update_audio_submission_summary now sid out k s').
Proof.
  intros (g & Hj & Hid & Ht & Hs). exists g.
  unfold update_audio_submission_summary.
  cbn [with_submissions jobs audio_submissions].
  rewrite update_submission_ids by reflexivity. auto.
Qed.

Lemma touched_complete (b : bool) (job_id : Z) (s s' : store)
    (now : timestamp) (out model : string) (ms : Z) :
  touched b job_id s s' ->
  touched true job_id s (complete_job_update now job_id out model ms s').
Proof.
  intros (g & Hj & Hid & _ & Hs).
  exists (fun r => completed now out model ms (g r)).
  unfold complete_job_update. cbn [with_jobs jobs audio_submissions].
  rewrite Hj, update_job_compose by exact Hid.
  split; [reflexivity |]. split; [intro r; apply Hid |].
  split; [intros _ r; left; reflexivity | exact Hs].
Qed.

Lemma touched_fail (b : bool) (job_id : Z) (s s' : store)
    (now : timestamp) (msg : string) :
  touched b job_id s s' ->
  touched true job_id s (fail_job_update now job_id msg s').
Proof.
  intros (g & Hj & Hid & _ & Hs).
  exists (fun r => failed now msg (g r)).
  unfold fail_job_update. cbn [with_jobs jobs audio_submissions].
  rewrite Hj, update_job_compose by exact Hid.
  split; [reflexivity |]. split; [intro r; apply Hid |].
  split; [intros _ r; right; reflexivity | exact Hs].
Qed.

Lemma touched_announced (b : bool) (E : Env) (job : Job.t) (s : store)
    (st : SubmissionStatus) (w : world) :
  touched b (Job.id job) s (db w) ->
  touched b (Job.id job) s (db (announced E job st w)).
Proof.
  intro H. unfold announced.
  destruct (bound_submission (Job.audio_file_id job)); [| exact H].
  cbn [stepped db]. apply touched_status. exact H.
Qed.

Lemma touched_failed_world (b : bool) (E : Env) (job : Job.t) (s : store)
    (e : exn) (w : world) :
  touched b (Job.id job) s (db w) ->
  touched true (Job.id job) s (db (failed_world E job e w)).
Proof.
  intro H. unfold failed_world.
  destruct (bound_submission (Job.audio_file_id job)); cbn [stepped db].
  - apply touched_status. apply touched_fail with b. exact H.
  - apply touched_fail with b. exact H.
Qed.

Lemma touched_effect (job : Job.t) (s s' : store) :
  touched true (Job.id job) s s' -> job_effect job s s'.
Proof.
  intros (g & Hj & Hid & Ht & Hs). exists g, [].
  rewrite app_nil_r. repeat split; auto.
Qed.

(** The chained [create_job] on top of a touched database. *)
Lemma touched_chain_effect (job : Job.t) (s s3 s5 : store)
    (now : timestamp) (out sid : string) (new_id : Z) :
  Job.job_type job = TRANSCRIBE ->
  touched true (Job.id job) s s3 ->
  create_job now SUMMARIZE None (Some out) (Some sid)
    (Some (chain_metadata (Job.id job))) "local" s3 = inr (new_id, s5) ->
  job_effect job s s5.
Proof.
  intros Hty (g & Hj & Hid & Ht & Hs) Hc.
  unfold create_job in Hc. cbn [provider_allowed String.eqb Ascii.eqb
    Bool.eqb orb] in Hc.
  inversion Hc; subst new_id s5; clear Hc.
  exists g. eexists. cbn [jobs audio_submissions]. rewrite Hj.
  split; [reflexivity |]. split; [exact Hid |].
  split; [apply Ht; reflexivity |]. split; [| exact Hs].
  right. eexists. split; [reflexivity |].
  repeat split; try assumption; try reflexivity.
  intros r Hr. cbn [Job.id]. unfold next_job_id.
  rewrite Hj, (max_id_of_ids (update_job (Job.id job) g (jobs s)) (jobs s))
    by (apply update_job_ids; exact Hid).
  apply max_id_bound in Hr. lia.
Qed.

(** Whatever the job and the environment, as long as the metadata column
    can be parsed: [process_job] returns, and its effect on the tables
    is the one described by [job_effect]. *)
Lemma process_job_effect (E : Env) (w : world) (job : Job.t) :
  Job.metadata job <> Some TextInvalid ->
  fst (process_job E job w) = inr tt
  /\ job_effect job (db w) (db (snd (process_job E job w))).
Proof.
  intro Hmeta.
  pose proof (touched_refl (Job.id job) (db w)) as H0.
  destruct (process_without_input E w job Hmeta) as [Hnt Hns].
  destruct (Job.job_type job) eqn:Hty.
  - destruct (truthy_str (Job.input_file_path job)) eqn:Hin.
    2:{ rewrite (Hnt eq_refl eq_refl). split; [reflexivity |].
        apply touched_effect. apply touched_failed_world with false.
        exact H0. }
    destruct (truthy_str_inv _ Hin) as (path & Hpath & Hne).
    destruct (path_exists E path) eqn:Hex.
    2:{ rewrite (process_transcribe_missing_file E w job path Hty Hpath Hne
                   Hex Hmeta).
        split; [reflexivity |].
        apply touched_effect. apply touched_failed_world with false.
        exact H0. }
    destruct (transcription E path (Job.provider job))
      as [e | [[out model] ms]] eqn:Hans.
    { rewrite (process_transcribe_raises E w job path e Hty Hpath Hne Hex
                 Hmeta Hans).
      split; [reflexivity |].
      apply touched_effect. apply touched_failed_world with false.
      cbn [called db]. apply touched_announced. exact H0. }
    destruct (bound_submission (Job.audio_file_id job)) as [sid |] eqn:Hsid.
    2:{ rewrite (process_transcribe_unbound E w job path out model ms Hty
                   Hpath Hne Hex Hmeta Hsid Hans).
        split; [reflexivity |].
        apply touched_effect. cbn [stepped called db snd].
        apply touched_complete with false. exact H0. }
    assert (H3 : touched true (Job.id job) (db w)
                   (update_audio_submission_transcript
                      (clock E (S (S (ticks w)))) sid out (Job.id job)
                      (complete_job_update (clock E (S (ticks w))) (Job.id job) out
                         model ms
                         (update_audio_submission_status (clock E (ticks w))
                            sid SubTranscribing None (db w))))).
    { apply touched_transcript. apply touched_complete with false.
      apply touched_status. exact H0. }
    destruct (metadata_dict (Job.metadata job)) as [m |] eqn:Hm.
    + rewrite (process_transcribe_bound E w job path sid out model ms m Hty
                 Hpath Hne Hex Hsid Hm Hans).
      cbn [stepped called db ticks calls].
      destruct (py_truthy (dict_get "autoSummarize" m (JBool false))).
      * destruct (create_job _ SUMMARIZE None (Some out) (Some sid) _ "local" _)
          as [e | [new_id s5]] eqn:Hc.
        -- unfold create_job in Hc. discriminate Hc.
        -- cbn [fst snd db]. split; [reflexivity |].
           apply (touched_chain_effect job (db w) _ s5 _ out sid new_id Hty H3
                    Hc).
      * cbn [fst snd db]. split; [reflexivity |].
        apply touched_effect. exact H3.
    + destruct (Job.metadata job) as [[| v |] |] eqn:Hcol;
        try discriminate Hm; [| contradiction].
      assert (Hv : forall m, v <> JObj m)
        by (intros m He; subst v; discriminate Hm).
      rewrite (process_transcribe_bad_metadata E w job path sid out model ms
                 v Hty Hpath Hne Hex Hsid Hcol Hv Hans).
      cbn [fst snd]. split; [reflexivity |].
      apply touched_effect. apply touched_failed_world with true.
      cbn [stepped called db]. exact H3.
  - destruct (truthy_str (Job.input_text job)) eqn:Hin.
    2:{ rewrite (Hns eq_refl eq_refl). split; [reflexivity |].
        apply touched_effect. apply touched_failed_world with false.
        exact H0. }
    destruct (truthy_str_inv _ Hin) as (text & Htext & Hne).
    rewrite (process_summarize_run E w job text Hty Htext Hne Hmeta).
    cbn [fst snd]. split; [reflexivity |]. apply touched_effect.
    destruct (summarization E text) as [e | [[out model] ms]].
    + apply touched_failed_world with false. cbn [called db].
      apply touched_announced. exact H0.
    + assert (Hc : touched true (Job.id job) (db w)
                     (complete_job_update
                        (clock E (ticks (announced E job SubSummarizing w)))
                        (Job.id job) out model ms
                        (db (announced E job SubSummarizing w)))).
      { apply touched_complete with false. apply touched_announced.
        exact H0. }
      destruct (bound_submission (Job.audio_file_id job));
        cbn [stepped called db ticks].
      * apply touched_summary. exact Hc.
      * exact Hc.
Qed.

Lemma get_job_ext (k : Z) (a b : store) :
  jobs a = jobs b -> get_job k a = get_job k b.
Proof. unfold get_job. intro H. rewrite H. reflexivity. Qed.

Lemma get_job_some (k : Z) (s : store) (r : Job.t) :
  get_job k s = Some r -> In r (jobs s) /\ Job.id r = k.
Proof.
  unfold get_job. intro H. apply find_some in H.
  destruct H as [Hin He]. apply Z.eqb_eq in He. auto.
Qed.

(** Under [job_effect], a row of another id is found as it was. *)
Lemma job_effect_frame (job : Job.t) (s s' : store) (k : Z) (r : Job.t) :
  job_effect job s s' -> k <> Job.id job ->
  get_job k s = Some r -> get_job k s' = Some r.
Proof.
  intros (g & extra & Hj & Hid & _) Hk Hr.
  rewrite (get_job_ext k s'
             {| jobs := jobs (with_jobs (update_job (Job.id job) g (jobs s)) s)
                        ++ extra;
                jobs_seq := 0; audio_submissions := [] |})
    by exact Hj.
  apply get_job_appended. rewrite get_job_update by exact Hid.
  destruct (k =? Job.id job) eqn:He; [| exact Hr].
  apply Z.eqb_eq in He. contradiction.
Qed.

(** Under [job_effect], the row of the job is found in a terminal
    status. *)
Lemma job_effect_terminal (job : Job.t) (s s' : store) :
  NoDup (map Job.id (jobs s)) -> In job (jobs s) ->
  job_effect job s s' ->
  exists r',
    get_job (Job.id job) s' = Some r'
    /\ (Job.status r' = COMPLETED \/ Job.status r' = FAILED).
Proof.
  intros Hnd Hin (g & extra & Hj & Hid & Ht & _).
  exists (g job). split; [| apply Ht].
  rewrite (get_job_ext (Job.id job) s'
             {| jobs := jobs (with_jobs (update_job (Job.id job) g (jobs s)) s)
                        ++ extra;
                jobs_seq := 0; audio_submissions := [] |})
    by exact Hj.
  apply get_job_appended. rewrite get_job_update by exact Hid.
  rewrite Z.eqb_refl, (get_job_in _ _ Hnd Hin). reflexivity.
Qed.

Lemma job_effect_ids (job : Job.t) (s s' : store) :
  job_effect job s s' ->
  exists extra,
    map Job.id (jobs s') = map Job.id (jobs s) ++ map Job.id extra
    /\ (List.length extra <= 1)%nat
    /\ (forall x r, In x extra -> In r (jobs s) -> Job.id r < Job.id x)
    /\ (forall x, In x extra ->
          Job.status x = PENDING /\ Job.job_type x = SUMMARIZE
          /\ Job.job_type job = TRANSCRIBE).
Proof.
  intros (g & extra & Hj & Hid & _ & Hx & _). exists extra.
  rewrite Hj, map_app, update_job_ids by exact Hid.
  split; [reflexivity |].
  destruct Hx as [-> | (row & -> & Hty & Hrt & Hrs & Hfresh)].
  - split; [simpl; lia |]. split; intros x; intros; contradiction.
  - split; [simpl; lia |]. split.
    + intros x r [<- | []] Hr. apply Hfresh. exact Hr.
    + intros x [<- | []]. auto.
Qed.

Lemma job_effect_wf (job : Job.t) (s s' : store) :
  store_wf s -> job_effect job s s' -> store_wf s'.
Proof.
  intros [Hnd Hsub] He.
  destruct (job_effect_ids job s s' He) as (extra & Hids & Hlen & Hfresh & _).
  destruct He as (_ & _ & _ & _ & _ & _ & Hs).
  split; [| rewrite Hs; exact Hsub].
  rewrite Hids. destruct extra as [| x [| y rest]]; simpl in Hlen; [| | lia].
  - rewrite app_nil_r. exact Hnd.
  - simpl. apply NoDup_snoc; [exact Hnd |].
    intro Hin. apply in_map_iff in Hin. destruct Hin as (r & Hr & Hin).
    specialize (Hfresh x r (or_introl eq_refl) Hin). lia.
Qed.

(** X2: a job of the table whose metadata can be parsed never leaves
    [process_job] pending or processing: its row ends completed or
    failed.  Every row with another id is found afterwards exactly as it
    was before. *)
Theorem processed_job_ends_terminal (E : Env) (w : world) (job : Job.t) :
  store_wf (db w) ->
  In job (jobs (db w)) ->
  Job.metadata job <> Some TextInvalid ->
  (exists r',
     get_job (Job.id job) (db (snd (process_job E job w))) = Some r'
     /\ (Job.status r' = COMPLETED \/ Job.status r' = FAILED))
  /\ (forall k r,
        k <> Job.id job ->
        get_job k (db w) = Some r ->
        get_job k (db (snd (process_job E job w))) = Some r).
Proof.
  intros [Hnd _] Hin Hmeta.
  destruct (process_job_effect E w job Hmeta) as [_ He]. split.
  - apply (job_effect_terminal job (db w)); assumption.
  - intros k r Hk Hr. apply (job_effect_frame job (db w) _ k r He Hk Hr).
Qed.

Lemma processed_job_ends_terminal_witness :
  let job := transcribe_job "deepgram" (Some (TextJson (JArr []))) in
  let w := world_with job (sample_submission "S") in
  store_wf (db w)
  /\ exists r',
       get_job 1 (db (snd (process_job sample_env job w))) = Some r'
       /\ (Job.status r' = COMPLETED \/ Job.status r' = FAILED).
Proof.
  intros job w. assert (Hw : store_wf (db w)) by solve_wf.
  split; [exact Hw |].
  apply (processed_job_ends_terminal sample_env w job Hw);
    [simpl; tauto | discriminate].
Defined.

Lemma process_job_wf (E : Env) (w : world) (job : Job.t) :
  store_wf (db w) -> store_wf (db (snd (process_job E job w))).
Proof.
  intro Hw.
  destruct (Job.metadata job) as [[| v |] |] eqn:Hm.
  - apply (job_effect_wf job (db w)); [exact Hw |].
    apply process_job_effect. rewrite Hm. discriminate.
  - apply (job_effect_wf job (db w)); [exact Hw |].
    apply process_job_effect. rewrite Hm. discriminate.
  - destruct (invalid_metadata_escapes E w job Hm) as (e & He & _).
    rewrite He. exact Hw.
  - apply (job_effect_wf job (db w)); [exact Hw |].
    apply process_job_effect. rewrite Hm. discriminate.
Qed.

(** The rows behind [job_effect]: those that were there, in their
    order and under their ids, every one of another id untouched, then
    at most one new row. *)
Lemma job_effect_rows (job : Job.t) (s s' : store) :
  job_effect job s s' ->
  exists kept extra,
    jobs s' = kept ++ extra
    /\ map Job.id kept = map Job.id (jobs s)
    /\ (forall r, In r (jobs s) -> Job.id r <> Job.id job -> In r kept)
    /\ (List.length extra <= 1)%nat
    /\ (forall x r, In x extra -> In r (jobs s) -> Job.id r < Job.id x)
    /\ (forall x, In x extra ->
          Job.status x = PENDING /\ Job.job_type x = SUMMARIZE
          /\ Job.job_type job = TRANSCRIBE).
Proof.
  intros (g & extra & Hj & Hid & _ & Hx & _).
  exists (update_job (Job.id job) g (jobs s)), extra.
  split; [exact Hj |].
  split; [apply update_job_ids; exact Hid |].
  split.
  { intros r Hr Hne. unfold update_job. apply in_map_iff. exists r.
    split; [| exact Hr].
    destruct (Job.id r =? Job.id job) eqn:He; [| reflexivity].
    apply Z.eqb_eq in He. contradiction. }
  destruct Hx as [-> | (row & -> & Hty & Hrt & Hrs & Hfresh)].
  - split; [simpl; lia |]. split; intros x; intros; contradiction.
  - split; [simpl; lia |]. split.
    + intros x r [<- | []] Hr. apply Hfresh. exact Hr.
    + intros x [<- | []]. auto.
Qed.

(** X3: [process_job] is append-only on the [jobs] table and keeps the
    keys of both tables unique.  Whatever the job, the table afterwards
    is the rows [kept], carrying the ids present before in the same
    order, every row of another id than the job's among them as it was,
    followed by the rows [extra]: at most one, of a larger id than all
    ids before, a pending summarize job that only a transcribe job can
    add; no submission is added or removed. *)
Theorem process_job_append_only (E : Env) (w : world) (job : Job.t) :
  store_wf (db w) ->
  store_wf (db (snd (process_job E job w)))
  /\ map Submission.id (audio_submissions (db (snd (process_job E job w))))
     = map Submission.id (audio_submissions (db w))
  /\ exists kept extra,
       jobs (db (snd (process_job E job w))) = kept ++ extra
       /\ map Job.id kept = map Job.id (jobs (db w))
       /\ (forall r, In r (jobs (db w)) -> Job.id r <> Job.id job ->
             In r kept)
       /\ (List.length extra <= 1)%nat
       /\ (forall x r, In x extra -> In r (jobs (db w)) ->
             Job.id r < Job.id x)
       /\ (forall x, In x extra ->
             Job.status x = PENDING /\ Job.job_type x = SUMMARIZE
             /\ Job.job_type job = TRANSCRIBE).
Proof.
  intro Hw. split; [apply process_job_wf; exact Hw |].
  destruct (Job.metadata job) as [[| v |] |] eqn:Hm;
    try (assert (Hv : Job.metadata job <> Some TextInvalid)
           by (rewrite Hm; discriminate);
         destruct (process_job_effect E w job Hv) as [_ He];
         split;
         [destruct He as (_ & _ & _ & _ & _ & _ & Hs); exact Hs
         | apply (job_effect_rows job (db w)); exact He]).
  destruct (invalid_metadata_escapes E w job Hm) as (e & He & _).
  rewrite He. cbn [snd]. split; [reflexivity |].
  exists (jobs (db w)), []. rewrite app_nil_r. split; [reflexivity |].
  split; [reflexivity |]. split; [intros r Hr _; exact Hr |].
  split; [simpl; lia |]. split; intros x; intros; contradiction.
Qed.

Lemma process_job_append_only_witness :
  let job := transcribe_job "local" (auto_summarize (JBool true)) in
  let w := world_with job (sample_submission "S") in
  store_wf (db w)
  /\ store_wf (db (snd (process_job sample_env job w)))
  /\ map Job.id (jobs (db (snd (process_job sample_env job w)))) = [1; 2]
  /\ exists kept extra,
       jobs (db (snd (process_job sample_env job w))) = kept ++ extra
       /\ map Job.id kept = [1]
       /\ forall x, In x extra ->
            Job.status x = PENDING /\ Job.job_type x = SUMMARIZE.
Proof.
  intros job w. assert (Hw : store_wf (db w)) by solve_wf.
  split; [exact Hw |].
  destruct (process_job_append_only sample_env w job Hw)
    as (Hwf & _ & kept & extra & Hj & Hids & _ & _ & _ & Hx).
  split; [exact Hwf |]. split; [reflexivity |].
  exists kept, extra. split; [exact Hj |]. split; [exact Hids |].
  intros x Hin. destruct (Hx x Hin) as (H1 & H2 & _). split; assumption.
Defined.

(** ** The worker loop *)

Lemma queue_work_app (a b : list Job.t) :
  queue_work (a ++ b) = (queue_work a + queue_work b)%nat.
Proof.
  unfold queue_work. induction a as [| x a IH]; simpl; [reflexivity |].
  rewrite IH. lia.
Qed.

Lemma job_work_terminal (r : Job.t) :
  Job.status r = COMPLETED \/ Job.status r = FAILED -> job_work r = O.
Proof. unfold job_work. intros [H | H]; rewrite H; reflexivity. Qed.

Lemma job_work_pending (r : Job.t) :
  is_pending r = true ->
  (1 <= job_work r)%nat /\ (Job.job_type r = TRANSCRIBE -> job_work r = 2%nat).
Proof.
  intro H. apply is_pending_true in H. unfold job_work. rewrite H.
  destruct (Job.job_type r); split; try lia; congruence.
Qed.

Lemma queue_work_update_le (job_id : Z) (g : Job.t -> Job.t)
    (rows : list Job.t) :
  (forall r, job_work (g r) = O) ->
  (queue_work (update_job job_id g rows) <= queue_work rows)%nat.
Proof.
  intro Hg. unfold queue_work, update_job.
  induction rows as [| r rest IH]; simpl; [lia |].
  destruct (Job.id r =? job_id); [rewrite Hg |]; lia.
Qed.

(** Rewriting the one row [j] to a row without work takes exactly the
    work of [j] off the queue. *)
Lemma queue_work_update_row (rows : list Job.t) (j : Job.t)
    (g : Job.t -> Job.t) :
  NoDup (map Job.id rows) -> In j rows ->
  (forall r, job_work (g r) = O) ->
  (queue_work (update_job (Job.id j) g rows) + job_work j
   = queue_work rows)%nat.
Proof.
  intros Hnd Hin Hg. induction rows as [| r rest IH]; [destruct Hin |].
  simpl in Hnd. inversion Hnd as [| x y Hnotin Hnd']; subst.
  change (update_job (Job.id j) g (r :: rest))
    with ((if Job.id r =? Job.id j then g r else r)
          :: update_job (Job.id j) g rest).
  change (queue_work (r :: rest)) with (job_work r + queue_work rest)%nat.
  change (queue_work (?a :: ?l)) with (job_work a + queue_work l)%nat.
  destruct Hin as [Hin | Hin].
  - subst r. rewrite Z.eqb_refl, Hg.
    rewrite update_job_absent by exact Hnotin. lia.
  - destruct (Job.id r =? Job.id j) eqn:He.
    + exfalso. apply Hnotin. apply Z.eqb_eq in He. rewrite He.
      apply in_map. exact Hin.
    + specialize (IH Hnd' Hin). lia.
Qed.

Lemma queue_work_zero (rows : list Job.t) :
  queue_work rows = O <-> pendings rows = [].
Proof.
  unfold queue_work, pendings. induction rows as [| r rest IH]; simpl.
  - tauto.
  - destruct (is_pending r) eqn:Hr.
    + destruct (job_work_pending r Hr) as [Hpos _].
      split; [intro H; lia | discriminate].
    + apply is_pending_false in Hr.
      assert (Hz : job_work r = O).
      { unfold job_work. destruct (Job.status r); try reflexivity.
        contradiction. }
      rewrite Hz. exact IH.
Qed.

Lemma job_effect_work (job : Job.t) (s s' : store) :
  job_effect job s s' ->
  (queue_work (jobs s')
   <= queue_work (jobs s)
      + match Job.job_type job with TRANSCRIBE => 1 | SUMMARIZE => 0 end)%nat.
Proof.
  intros (g & extra & Hj & _ & Ht & Hx & _).
  rewrite Hj, queue_work_app.
  assert (Hu : (queue_work (update_job (Job.id job) g (jobs s))
                <= queue_work (jobs s))%nat).
  { apply queue_work_update_le. intro r. apply job_work_terminal. apply Ht. }
  destruct Hx as [-> | (row & -> & Hty & Hrt & Hrs & _)].
  - simpl. lia.
  - rewrite Hty. unfold queue_work at 2. simpl. unfold job_work.
    rewrite Hrs, Hrt. lia.
Qed.

(** One pass of the loop on a well-formed database: the keys stay
    unique, and either a pending job was there and the work left has
    gone down, or nothing was pending and the tables are untouched. *)
Lemma worker_iteration_progress (E : Env) (w : world) :
  store_wf (db w) ->
  store_wf (db (worker_iteration E w))
  /\ ((queue_work (jobs (db (worker_iteration E w))) + 1
       <= queue_work (jobs (db w)))%nat
      \/ (pendings (jobs (db w)) = []
          /\ db (worker_iteration E w) = db w)).
Proof.
  intros Hw. pose proof Hw as [Hnd Hsub]. unfold worker_iteration.
  destruct (oldest_pending (jobs (db w))) as [j |] eqn:Hj.
  - rewrite (claim_some _ _ j Hnd Hj).
    destruct (oldest_pending_some _ _ Hj) as (Hin & Hpj & _).
    set (now := clock E (ticks w)).
    set (s1 := with_jobs (update_job (Job.id j) (claimed now) (jobs (db w)))
                 (db w)).
    set (w1 := {| db := s1; ticks := S (ticks w); calls := calls w |}).
    assert (Hw1 : store_wf (db w1)).
    { split; cbn [w1 db s1 with_jobs jobs audio_submissions];
        [rewrite update_job_ids by reflexivity |]; assumption. }
    assert (Hq : (queue_work (jobs (db w1)) + job_work j
                  = queue_work (jobs (db w)))%nat).
    { apply (queue_work_update_row (jobs (db w)) j (claimed now) Hnd Hin).
      intro r. reflexivity. }
    destruct (job_work_pending j Hpj) as [Hpos Htr].
    split; [apply process_job_wf; exact Hw1 |]. left.
    destruct (Job.metadata (claimed now j)) as [[| v |] |] eqn:Hm;
      try (assert (Hv : Job.metadata (claimed now j) <> Some TextInvalid)
             by (rewrite Hm; discriminate);
           destruct (process_job_effect E w1 (claimed now j) Hv) as [_ He];
           apply job_effect_work in He;
           cbn [claimed Job.job_type] in He;
           destruct (Job.job_type j);
             [rewrite (Htr eq_refl) in Hq |]; lia).
    destruct (invalid_metadata_escapes E w1 (claimed now j) Hm)
      as (e & He & _).
    rewrite He. cbn [snd]. lia.
  - assert (Hnone : pendings (jobs (db w)) = []).
    { apply no_pending_rows. intros r Hr. apply is_pending_false.
      apply (proj1 (oldest_pending_none _) Hj). exact Hr. }
    rewrite (claim_none _ _ Hnone). cbn [db].
    split; [exact Hw |]. right. split; [exact Hnone | reflexivity].
Qed.

Lemma worker_iterations_progress (E : Env) (n : nat) :
  forall w,
    store_wf (db w) ->
    store_wf (db (worker_iterations E n w))
    /\ (queue_work (jobs (db (worker_iterations E n w)))
        <= queue_work (jobs (db w)) - n)%nat.
Proof.
  induction n as [| n IH]; intros w Hw; simpl.
  - split; [exact Hw | lia].
  - destruct (worker_iteration_progress E w Hw) as [Hw1 Hstep].
    destruct (IH _ Hw1) as [Hwn Hle]. split; [exact Hwn |].
    destruct Hstep as [Hdown | [Hnone Hsame]].
    + lia.
    + rewrite Hsame in Hle. apply queue_work_zero in Hnone. lia.
Qed.

(** X4: the worker drains the queue.  On a well-formed database, after
    as many passes of the loop as two for each pending transcribe job and
    one for each pending summarize job, no job is pending, whatever the
    backends answer and whether or not jobs chain. *)
Theorem worker_drains_queue (E : Env) (n : nat) (w : world) :
  store_wf (db w) ->
  (queue_work (jobs (db w)) <= n)%nat ->
  pendings (jobs (db (worker_iterations E n w))) = []
  /\ store_wf (db (worker_iterations E n w)).
Proof.
  intros Hw Hn.
  destruct (worker_iterations_progress E n w Hw) as [Hwn Hle].
  split; [| exact Hwn]. apply queue_work_zero. lia.
Qed.

(** Two passes settle [pipeline_world]: the transcribe job and the
    summarize job it chained. *)
Lemma worker_drains_queue_witness :
  store_wf (db pipeline_world)
  /\ pendings (jobs (db (worker_iterations sample_env 2 pipeline_world))) = []
  /\ option_map Submission.summary
       (get_audio_submission "S"
          (db (worker_iterations sample_env 2 pipeline_world)))
     = Some (Some "summary").
Proof.
  assert (Hw : store_wf (db pipeline_world)) by solve_wf.
  split; [exact Hw |]. split.
  - apply (worker_drains_queue sample_env 2 pipeline_world Hw).
    vm_compute. lia.
  - vm_compute. reflexivity.
Defined.

Lemma worker_iteration_frame (E : Env) (w : world) (k : Z) (r : Job.t) :
  store_wf (db w) ->
  get_job k (db w) = Some r ->
  Job.status r <> PENDING ->
  get_job k (db (worker_iteration E w)) = Some r.
Proof.
  intros [Hnd _] Hr Hst. unfold worker_iteration.
  destruct (oldest_pending (jobs (db w))) as [j |] eqn:Hj.
  - rewrite (claim_some _ _ j Hnd Hj).
    destruct (oldest_pending_some _ _ Hj) as (Hin & Hpj & _).
    destruct (get_job_some _ _ _ Hr) as [Hrin Hrid].
    assert (Hk : k <> Job.id j).
    { intro He. apply Hst. apply is_pending_true.
      replace r with j; [exact Hpj |].
      apply (same_id_same_row (jobs (db w))); auto. congruence. }
    set (now := clock E (ticks w)).
    set (w1 := {| db := with_jobs
                          (update_job (Job.id j) (claimed now) (jobs (db w)))
                          (db w);
                  ticks := S (ticks w); calls := calls w |}).
    assert (Hr1 : get_job k (db w1) = Some r).
    { cbn [w1 db]. rewrite get_job_update by reflexivity.
      destruct (k =? Job.id j) eqn:He; [| exact Hr].
      apply Z.eqb_eq in He. contradiction. }
    destruct (Job.metadata (claimed now j)) as [[| v |] |] eqn:Hm;
      try (assert (Hv : Job.metadata (claimed now j) <> Some TextInvalid)
             by (rewrite Hm; discriminate);
           destruct (process_job_effect E w1 (claimed now j) Hv) as [_ He];
           apply (job_effect_frame (claimed now j) (db w1) _ k r He Hk Hr1)).
    destruct (invalid_metadata_escapes E w1 (claimed now j) Hm)
      as (e & He & _).
    rewrite He. exact Hr1.
  - unfold get_next_pending_job. rewrite Hj. exact Hr.
Qed.

(** X5: the loop only ever takes pending jobs.  A job that is not
    pending, be it completed, failed, or left in processing by a worker
    that died, is found exactly as it was after any number of passes: no
    pass retries, requeues or repairs it. *)
Theorem worker_leaves_settled_jobs (E : Env) (n : nat) (w : world) (k : Z)
    (r : Job.t) :
  store_wf (db w) ->
  get_job k (db w) = Some r ->
  Job.status r <> PENDING ->
  get_job k (db (worker_iterations E n w)) = Some r.
Proof.
  revert w. induction n as [| n IH]; intros w Hw Hr Hst; simpl.
  - exact Hr.
  - apply IH; [| apply worker_iteration_frame; assumption | exact Hst].
    apply (worker_iteration_progress E w Hw).
Qed.

Lemma worker_leaves_settled_jobs_witness :
  store_wf (db pipeline_world)
  /\ get_job 1 (db (worker_iterations sample_env 5 pipeline_world))
     = Some (sample_job 1 SUMMARIZE PROCESSING 5).
Proof.
  assert (Hw : store_wf (db pipeline_world)) by solve_wf.
  split; [exact Hw |].
  apply (worker_leaves_settled_jobs sample_env 5 pipeline_world 1 _ Hw);
    [reflexivity | discriminate].
Defined.

(** ** The paths of [process_job], seen from the two tables *)

Lemma failed_world_submission (E : Env) (job : Job.t) (e : exn) (w : world)
    (sid : string) :
  bound_submission (Job.audio_file_id job) = Some sid ->
  get_audio_submission sid (db (failed_world E job e w))
  = option_map
      (restated (clock E (S (ticks w))) SubFailed
         (if truthy_str (Some (exn_msg e)) then Some (exn_msg e) else None))
      (get_audio_submission sid (db w)).
Proof.
  intro Hsid. unfold failed_world. rewrite Hsid. cbn [stepped db ticks].
  rewrite get_submission_update_status. reflexivity.
Qed.

Lemma announced_submission (E : Env) (job : Job.t) (st : SubmissionStatus)
    (w : world) (sid : string) :
  bound_submission (Job.audio_file_id job) = Some sid ->
  get_audio_submission sid (db (announced E job st w))
  = option_map (restated (clock E (ticks w)) st None)
      (get_audio_submission sid (db w)).
Proof.
  intro Hsid. unfold announced. rewrite Hsid. cbn [stepped db].
  rewrite get_submission_update_status. reflexivity.
Qed.

Lemma announced_ticks (E : Env) (job : Job.t) (st : SubmissionStatus)
    (w : world) (sid : string) :
  bound_submission (Job.audio_file_id job) = Some sid ->
  ticks (announced E job st w) = S (ticks w).
Proof. intro Hsid. unfold announced. rewrite Hsid. reflexivity. Qed.

(** The two tables once a bound transcribe job has been completed and its
    transcript recorded. *)
Lemma tables_after_transcript (s : store) (job : Job.t) (sub : Submission.t)
    (t0 t1 t2 : timestamp) (out model : string) (ms : Z) :
  store_wf s -> In job (jobs s) -> In sub (audio_submissions s) ->
  let s3 :=
    update_audio_submission_transcript t2 (Submission.id sub) out (Job.id job)
      (complete_job_update t1 (Job.id job) out model ms
         (update_audio_submission_status t0 (Submission.id sub)
            SubTranscribing None s)) in
  get_job (Job.id job) s3 = Some (completed t1 out model ms job)
  /\ get_audio_submission (Submission.id sub) s3
     = Some (transcribed t2 out (Job.id job)
               (restated t0 SubTranscribing None sub))
  /\ map Job.id (jobs s3) = map Job.id (jobs s).
Proof.
  intros [Hnd Hsnd] Hjob Hsub s3. subst s3. split; [| split].
  - unfold update_audio_submission_transcript, get_job.
    cbn [with_submissions jobs].
    match goal with
    | |- find _ (jobs ?x) = _ => fold (get_job (Job.id job) x)
    end.
    unfold complete_job_update. rewrite get_job_update by reflexivity.
    rewrite Z.eqb_refl, get_job_update_status, (get_job_in _ _ Hnd Hjob).
    reflexivity.
  - unfold update_audio_submission_transcript.
    rewrite get_submission_update by reflexivity.
    rewrite String.eqb_refl.
    unfold complete_job_update, get_audio_submission.
    cbn [with_jobs audio_submissions].
    match goal with
    | |- option_map _ (find _ (audio_submissions ?x)) = _ =>
        fold (get_audio_submission (Submission.id sub) x)
    end.
    rewrite get_submission_update_status, (get_submission_in _ _ Hsnd Hsub).
    reflexivity.
  - cbn [update_audio_submission_transcript with_submissions jobs].
    unfold complete_job_update. cbn [with_jobs jobs].
    rewrite update_job_ids by reflexivity. rewrite update_status_jobs.
    reflexivity.
Qed.

(** X6: metadata that is JSON but not an object (a list, a string, a
    number, [null]) is only looked at after the transcript is stored.
    For a transcribe job bound to a submission whose backend answers, the
    job is first completed and then failed by the [AttributeError] of
    [metadata.get]: it ends failed while holding its output, the
    submission ends failed while holding the transcript, and no
    summarize job is created. *)
Theorem non_object_metadata_fails_after_completion (E : Env) (w : world)
    (job : Job.t) (sub : Submission.t) (path out model : string) (ms : Z)
    (v : json) :
  store_wf (db w) ->
  In job (jobs (db w)) ->
  In sub (audio_submissions (db w)) ->
  bound_submission (Job.audio_file_id job) = Some (Submission.id sub) ->
  Job.job_type job = TRANSCRIBE ->
  Job.input_file_path job = Some path -> path <> "" ->
  path_exists E path = true ->
  Job.metadata job = Some (TextJson v) ->
  (forall m, v <> JObj m) ->
  transcription E path (Job.provider job) = inr (out, model, ms) ->
  let msg := ("'" ++ py_type_name v ++ "' object has no attribute 'get'")
               %string in
  let final := db (snd (process_job E job w)) in
  fst (process_job E job w) = inr tt
  /\ get_job (Job.id job) final
     = Some (failed (clock E (S (S (S (ticks w))))) msg
               (completed (clock E (S (ticks w))) out model ms job))
  /\ get_audio_submission (Submission.id sub) final
     = Some (restated (clock E (S (S (S (S (ticks w)))))) SubFailed (Some msg)
               (transcribed (clock E (S (S (ticks w)))) out (Job.id job)
                  (restated (clock E (ticks w)) SubTranscribing None sub)))
  /\ map Job.id (jobs final) = map Job.id (jobs (db w)).
Proof.
  intros Hw Hjob Hsub Hsid Hty Hpath Hne Hex Hmeta Hv Hans msg final.
  subst final.
  rewrite (process_transcribe_bad_metadata E w job path (Submission.id sub)
             out model ms v Hty Hpath Hne Hex Hsid Hmeta Hv Hans).
  cbn [fst snd]. split; [reflexivity |].
  destruct (tables_after_transcript (db w) job sub (clock E (ticks w))
              (clock E (S (ticks w))) (clock E (S (S (ticks w)))) out model
              ms Hw Hjob Hsub) as (Hj3 & Hs3 & Hids3).
  split; [| split].
  - unfold failed_world. rewrite Hsid.
    cbn [stepped called db ticks calls exn_msg].
    rewrite get_job_update_status. unfold fail_job_update at 1.
    rewrite get_job_update by reflexivity.
    rewrite Z.eqb_refl, Hj3. reflexivity.
  - rewrite (failed_world_submission E job _ _ _ Hsid).
    cbn [stepped called db ticks calls exn_msg]. rewrite Hs3.
    reflexivity.
  - unfold failed_world. rewrite Hsid.
    cbn [stepped called db ticks calls exn_msg].
    rewrite update_status_jobs. unfold fail_job_update at 1. cbn [with_jobs jobs].
    rewrite update_job_ids by reflexivity. exact Hids3.
Qed.

Lemma non_object_metadata_fails_after_completion_witness :
  let job := transcribe_job "local" (Some (TextJson (JArr [JInt 1]))) in
  let final :=
    db (snd (process_job sample_env job
               (world_with job (sample_submission "S")))) in
  option_map Job.status (get_job 1 final) = Some FAILED
  /\ option_map Job.output_text (get_job 1 final) = Some (Some "hello world")
  /\ option_map Job.error_message (get_job 1 final)
     = Some (Some "'list' object has no attribute 'get'")
  /\ option_map Submission.status (get_audio_submission "S" final)
     = Some SubFailed
  /\ option_map Submission.transcript (get_audio_submission "S" final)
     = Some (Some "hello world").
Proof.
  intros job final. subst final.
  assert (Hw : store_wf (db (world_with job (sample_submission "S"))))
    by solve_wf.
  assert (Hne : "a.wav" <> "") by discriminate.
  assert (Hv : forall m, JArr [JInt 1] <> JObj m) by discriminate.
  destruct (non_object_metadata_fails_after_completion sample_env
              (world_with job (sample_submission "S")) job
              (sample_submission "S") "a.wav" "hello world"
              "whisper-large-v3" 1200 (JArr [JInt 1]) Hw
              (or_introl eq_refl) (or_introl eq_refl) eq_refl eq_refl
              eq_refl Hne eq_refl eq_refl Hv eq_refl)
    as (_ & Hj & Hs & _).
  change (Job.id job) with 1 in Hj.
  change (Submission.id (sample_submission "S")) with "S" in Hs.
  rewrite Hj, Hs. repeat split; reflexivity.
Defined.

(** X7: a summarize job of the table, with a text and a metadata column
    that parses, bound to a submission on record, whose backend answers
    [out]: exactly the summariser is invoked; the job is found with
    status completed, [out], the model name "llama3.1:8b", the duration
    and the completion time; the submission is found with status
    completed, [out] as its summary, the job's id as [summary_job_id]
    and the time of the update, keeping the transcript, its job id and
    the error text it had; and no job is created. *)
Theorem summary_completes_submission (E : Env) (w : world) (job : Job.t)
    (sub : Submission.t) (text out : string) (ms : Z) :
  store_wf (db w) ->
  In job (jobs (db w)) ->
  In sub (audio_submissions (db w)) ->
  bound_submission (Job.audio_file_id job) = Some (Submission.id sub) ->
  Job.job_type job = SUMMARIZE ->
  Job.input_text job = Some text -> text <> "" ->
  Job.metadata job <> Some TextInvalid ->
  ollama E text = inr (out, ms) ->
  let final := db (snd (process_job E job w)) in
  fst (process_job E job w) = inr tt
  /\ calls (snd (process_job E job w)) = calls w ++ [CallOllama text]
  /\ get_job (Job.id job) final
     = Some (completed (clock E (S (ticks w))) out "llama3.1:8b" ms job)
  /\ get_audio_submission (Submission.id sub) final
     = Some (summarized (clock E (S (S (ticks w)))) out (Job.id job)
               (restated (clock E (ticks w)) SubSummarizing None sub))
  /\ Submission.transcript
       (summarized (clock E (S (S (ticks w)))) out (Job.id job)
          (restated (clock E (ticks w)) SubSummarizing None sub))
     = Submission.transcript sub
  /\ map Job.id (jobs final) = map Job.id (jobs (db w))
  /\ exists (done : Job.t) (sub' : Submission.t),
       get_job (Job.id job) final = Some done
       /\ Job.status done = COMPLETED
       /\ Job.output_text done = Some out
       /\ Job.model_used done = Some "llama3.1:8b"
       /\ Job.processing_time_ms done = Some ms
       /\ Job.completed_at done = Some (clock E (S (ticks w)))
       /\ get_audio_submission (Submission.id sub) final = Some sub'
       /\ Submission.status sub' = SubCompleted
       /\ Submission.summary sub' = Some out
       /\ Submission.summary_job_id sub' = Some (Job.id job)
       /\ Submission.summarized_at sub' = Some (clock E (S (S (ticks w))))
       /\ Submission.transcript sub' = Submission.transcript sub
       /\ Submission.transcript_job_id sub' = Submission.transcript_job_id sub
       /\ Submission.error_message sub' = Submission.error_message sub.
Proof.
  intros [Hnd Hsnd] Hjob Hsub Hsid Hty Htext Hne Hmeta Ho final.
  subst final.
  rewrite (process_summarize_run E w job text Hty Htext Hne Hmeta).
  rewrite summarization_ollama, Ho, Hsid. unfold announced. rewrite Hsid.
  cbn [fst snd stepped called db ticks calls].
  split; [reflexivity |]. split; [reflexivity |].
  match goal with
  | |- ?A /\ ?B /\ ?C /\ ?D /\ ?F =>
      assert (Hjob' : A); [| assert (Hsub' : B);
        [| split; [exact Hjob' |]; split; [exact Hsub' |];
           split; [reflexivity |]; split;
           [| eexists; eexists; split; [exact Hjob' |];
              do 5 (split; [reflexivity |]); split; [exact Hsub' |];
              repeat split]]]
  end.
  - unfold update_audio_submission_summary, get_job.
    cbn [with_submissions jobs].
    match goal with
    | |- find _ (jobs ?x) = _ => fold (get_job (Job.id job) x)
    end.
    unfold complete_job_update. rewrite get_job_update by reflexivity.
    rewrite Z.eqb_refl, get_job_update_status, (get_job_in _ _ Hnd Hjob).
    reflexivity.
  - unfold update_audio_submission_summary.
    rewrite get_submission_update by reflexivity.
    rewrite String.eqb_refl.
    unfold complete_job_update, get_audio_submission.
    cbn [with_jobs audio_submissions].
    match goal with
    | |- option_map _ (find _ (audio_submissions ?x)) = _ =>
        fold (get_audio_submission (Submission.id sub) x)
    end.
    rewrite get_submission_update_status, (get_submission_in _ _ Hsnd Hsub).
    reflexivity.
  - cbn [update_audio_submission_summary with_submissions jobs].
    unfold complete_job_update. cbn [with_jobs jobs].
    rewrite update_job_ids by reflexivity. rewrite update_status_jobs.
    reflexivity.
Qed.

Lemma summary_completes_submission_witness :
  let w := world_with summarize_job transcribed_submission in
  let final := db (snd (process_job sample_env summarize_job w)) in
  option_map Submission.status (get_audio_submission "S" final)
  = Some SubCompleted
  /\ option_map Submission.summary (get_audio_submission "S" final)
     = Some (Some "summary")
  /\ option_map Submission.transcript (get_audio_submission "S" final)
     = Some (Some "hello world")
  /\ exists done sub',
       get_job (Job.id summarize_job) final = Some done
       /\ Job.status done = COMPLETED
       /\ Job.output_text done = Some "summary"
       /\ get_audio_submission "S" final = Some sub'
       /\ Submission.status sub' = SubCompleted
       /\ Submission.summary_job_id sub' = Some (Job.id summarize_job).
Proof.
  intros w final. subst final.
  assert (Hw : store_wf (db w)) by solve_wf.
  assert (Hne : "hello world" <> "") by discriminate.
  assert (Hm : Job.metadata summarize_job <> Some TextInvalid)
    by discriminate.
  destruct (summary_completes_submission sample_env w summarize_job
              transcribed_submission "hello world" "summary" 300 Hw
              (or_introl eq_refl) (or_introl eq_refl) eq_refl eq_refl
              eq_refl Hne Hm eq_refl)
    as (_ & _ & _ & Hs & _ & _ & done & sub' & Hd & Hst & Hout & _ & _ & _
        & Hs' & Hsst & _ & Hsj & _).
  change (Submission.id transcribed_submission) with "S" in Hs, Hs'.
  split; [rewrite Hs; reflexivity |].
  split; [rewrite Hs; reflexivity |].
  split; [rewrite Hs; reflexivity |].
  exists done, sub'. repeat split; assumption.
Defined.

(** X8: a transcribe job of the table whose metadata column parses and
    whose non-empty path names no file is failed before anything else
    happens: no
    backend is invoked, and the job row is found with status failed, the
    message "Audio file not found: " followed by the path, and its
    completion time.  A submission on record that the job is bound to is
    found with status failed and that message, its transcript and summary
    as they were; the two UPDATEs of the [except] block are the only
    statements run, so it was never set to transcribing. *)
Theorem missing_file_fails_before_backend (E : Env) (w : world)
    (job : Job.t) (path : string) :
  store_wf (db w) ->
  In job (jobs (db w)) ->
  Job.job_type job = TRANSCRIBE ->
  Job.input_file_path job = Some path -> path <> "" ->
  path_exists E path = false ->
  Job.metadata job <> Some TextInvalid ->
  let msg := ("Audio file not found: " ++ path)%string in
  let final := db (snd (process_job E job w)) in
  fst (process_job E job w) = inr tt
  /\ calls (snd (process_job E job w)) = calls w
  /\ get_job (Job.id job) final = Some (failed (clock E (ticks w)) msg job)
  /\ (exists lost,
        get_job (Job.id job) final = Some lost
        /\ Job.status lost = FAILED
        /\ Job.error_message lost = Some msg
        /\ Job.completed_at lost = Some (clock E (ticks w))
        /\ Job.output_text lost = Job.output_text job)
  /\ (forall sub,
        In sub (audio_submissions (db w)) ->
        bound_submission (Job.audio_file_id job) = Some (Submission.id sub) ->
        get_audio_submission (Submission.id sub) final
        = Some (restated (clock E (S (ticks w))) SubFailed (Some msg) sub)
        /\ ticks (snd (process_job E job w)) = S (S (ticks w))
        /\ exists sub',
             get_audio_submission (Submission.id sub) final = Some sub'
             /\ Submission.status sub' = SubFailed
             /\ Submission.error_message sub' = Some msg
             /\ Submission.updated_at sub' = clock E (S (ticks w))
             /\ Submission.transcript sub' = Submission.transcript sub
             /\ Submission.summary sub' = Submission.summary sub).
Proof.
  intros Hw Hjob Hty Hpath Hne Hex Hmeta msg final. subst final.
  rewrite (process_transcribe_missing_file E w job path Hty Hpath Hne Hex
             Hmeta).
  cbn [fst snd]. split; [reflexivity |].
  split; [apply failed_world_calls |].
  assert (Hrow :
    get_job (Job.id job)
      (db (failed_world E job (mkExn FileNotFoundError msg) w))
    = Some (failed (clock E (ticks w)) msg job)).
  { destruct Hw as [Hnd _].
    apply (failed_world_job E job (mkExn FileNotFoundError msg) w Hnd Hjob). }
  split; [exact Hrow |]. split.
  - eexists. split; [exact Hrow |]. repeat split.
  - intros sub Hsub Hsid.
    assert (Hs :
      get_audio_submission (Submission.id sub)
        (db (failed_world E job (mkExn FileNotFoundError msg) w))
      = Some (restated (clock E (S (ticks w))) SubFailed (Some msg) sub)).
    { apply (failure_reaches_submission E w job sub
               (mkExn FileNotFoundError msg) Hw Hsub Hsid).
      subst msg. simpl. discriminate. }
    split; [exact Hs |]. split.
    + unfold failed_world. rewrite Hsid. reflexivity.
    + eexists. split; [exact Hs |]. repeat split.
Qed.

Lemma missing_file_fails_before_backend_witness :
  let lost :=
    Job.mk 1 TRANSCRIBE PROCESSING "local" (Some "gone.wav") None None None
      (Some "S") None 10 (Some 20) None None None in
  let w := world_with lost (sample_submission "S") in
  let final := db (snd (process_job sample_env lost w)) in
  calls (snd (process_job sample_env lost w)) = []
  /\ option_map Job.error_message (get_job 1 final)
     = Some (Some "Audio file not found: gone.wav")
  /\ (exists row,
        get_job 1 final = Some row
        /\ Job.status row = FAILED
        /\ Job.error_message row = Some "Audio file not found: gone.wav")
  /\ exists sub',
       get_audio_submission "S" final = Some sub'
       /\ Submission.status sub' = SubFailed
       /\ Submission.error_message sub'
          = Some "Audio file not found: gone.wav".
Proof.
  intros lost w final. subst final.
  assert (Hw : store_wf (db w)) by solve_wf.
  assert (Hne : "gone.wav" <> "") by discriminate.
  assert (Hm : Job.metadata lost <> Some TextInvalid) by discriminate.
  destruct (missing_file_fails_before_backend sample_env w lost "gone.wav"
              Hw (or_introl eq_refl) eq_refl eq_refl Hne eq_refl Hm)
    as (_ & Hc & Hj & (row & Hr & Hst & Hmsg & _) & Hsub).
  split; [exact Hc |]. change (Job.id lost) with 1 in Hj, Hr.
  split; [rewrite Hj; reflexivity |].
  split; [exists row; repeat split; assumption |].
  destruct (Hsub (sample_submission "S") (or_introl eq_refl) eq_refl)
    as (_ & _ & sub' & Hs & Hsst & Hse & _).
  exists sub'. repeat split; assumption.
Defined.

(** X9: a job of the table whose metadata column parses, bound to a
    submission on record, whose input is there (a non-empty text, or a
    non-empty path of a file that exists) and whose backend raises an
    error with a non-empty
    message: the job is found with status failed, that message and its
    completion time, and the submission, which had been moved to
    transcribing or summarizing, is found with status failed and the same
    message; the transcript and the summary it may hold are kept. *)
Theorem backend_error_fails_submission (E : Env) (w : world) (job : Job.t)
    (sub : Submission.t) (e : exn) :
  store_wf (db w) ->
  In job (jobs (db w)) ->
  In sub (audio_submissions (db w)) ->
  bound_submission (Job.audio_file_id job) = Some (Submission.id sub) ->
  Job.metadata job <> Some TextInvalid ->
  exn_msg e <> "" ->
  let final := db (snd (process_job E job w)) in
  let outcome := fun st =>
    get_job (Job.id job) final
    = Some (failed (clock E (S (ticks w))) (exn_msg e) job)
    /\ get_audio_submission (Submission.id sub) final
       = Some (restated (clock E (S (S (ticks w)))) SubFailed
                 (Some (exn_msg e))
                 (restated (clock E (ticks w)) st None sub))
    /\ Submission.transcript
         (restated (clock E (S (S (ticks w)))) SubFailed (Some (exn_msg e))
            (restated (clock E (ticks w)) st None sub))
       = Submission.transcript sub
    /\ Submission.summary
         (restated (clock E (S (S (ticks w)))) SubFailed (Some (exn_msg e))
            (restated (clock E (ticks w)) st None sub))
       = Submission.summary sub
    /\ exists lost sub',
         get_job (Job.id job) final = Some lost
         /\ Job.status lost = FAILED
         /\ Job.error_message lost = Some (exn_msg e)
         /\ Job.completed_at lost = Some (clock E (S (ticks w)))
         /\ Job.output_text lost = Job.output_text job
         /\ get_audio_submission (Submission.id sub) final = Some sub'
         /\ Submission.status sub' = SubFailed
         /\ Submission.error_message sub' = Some (exn_msg e)
         /\ Submission.updated_at sub' = clock E (S (S (ticks w)))
         /\ Submission.transcript sub' = Submission.transcript sub
         /\ Submission.summary sub' = Submission.summary sub in
  (forall path,
     Job.job_type job = TRANSCRIBE ->
     Job.input_file_path job = Some path -> path <> "" ->
     path_exists E path = true ->
     transcription E path (Job.provider job) = inl e ->
     outcome SubTranscribing)
  /\ (forall text,
        Job.job_type job = SUMMARIZE ->
        Job.input_text job = Some text -> text <> "" ->
        summarization E text = inl e ->
        outcome SubSummarizing).
Proof.
  intros Hw Hjob Hsub Hsid Hmeta Hmsg final outcome. subst final outcome.
  pose proof Hw as [Hnd Hsnd].
  assert (Hgen : forall st c,
    get_job (Job.id job)
      (db (failed_world E job e (called c (announced E job st w))))
    = Some (failed (clock E (S (ticks w))) (exn_msg e) job)
    /\ get_audio_submission (Submission.id sub)
         (db (failed_world E job e (called c (announced E job st w))))
       = Some (restated (clock E (S (S (ticks w)))) SubFailed
                 (Some (exn_msg e))
                 (restated (clock E (ticks w)) st None sub))).
  { intros st c. split.
    - rewrite failed_world_job;
        cbn [called db ticks]; rewrite ?announced_jobs; try assumption.
      rewrite (announced_ticks E job st w _ Hsid). reflexivity.
    - rewrite (failed_world_submission E job e _ _ Hsid).
      cbn [called db ticks].
      rewrite (announced_submission E job st w _ Hsid),
        (announced_ticks E job st w _ Hsid),
        (get_submission_in _ _ Hsnd Hsub), (truthy_str_some _ Hmsg).
      reflexivity. }
  split.
  - intros path Hty Hpath Hne Hex Hans.
    rewrite (process_transcribe_raises E w job path e Hty Hpath Hne Hex
               Hmeta Hans).
    cbn [snd]. destruct (Hgen SubTranscribing
                           (transcribe_call path (Job.provider job)))
      as [Hj Hs].
    split; [exact Hj |]. split; [exact Hs |].
    split; [reflexivity |]. split; [reflexivity |].
    eexists. eexists. split; [exact Hj |].
    do 4 (split; [reflexivity |]). split; [exact Hs |]. repeat split.
  - intros text Hty Htext Hne Hans.
    rewrite (process_summarize_run E w job text Hty Htext Hne Hmeta), Hans.
    cbn [snd]. destruct (Hgen SubSummarizing (CallOllama text)) as [Hj Hs].
    split; [exact Hj |]. split; [exact Hs |].
    split; [reflexivity |]. split; [reflexivity |].
    eexists. eexists. split; [exact Hj |].
    do 4 (split; [reflexivity |]). split; [exact Hs |]. repeat split.
Qed.

Lemma backend_error_fails_submission_witness :
  let env := failing_summary_env (mkExn OtherException "timeout") in
  let w := world_with summarize_job transcribed_submission in
  let final := db (snd (process_job env summarize_job w)) in
  option_map Submission.error_message (get_audio_submission "S" final)
  = Some (Some "timeout")
  /\ option_map Submission.status (get_audio_submission "S" final)
     = Some SubFailed
  /\ option_map Submission.transcript (get_audio_submission "S" final)
     = Some (Some "hello world")
  /\ exists lost,
       get_job (Job.id summarize_job) final = Some lost
       /\ Job.status lost = FAILED
       /\ Job.error_message lost = Some "timeout".
Proof.
  intros env w final. subst final.
  assert (Hw : store_wf (db w)) by solve_wf.
  assert (Hm : Job.metadata summarize_job <> Some TextInvalid)
    by discriminate.
  assert (Hmsg : exn_msg (mkExn OtherException "timeout") <> "")
    by discriminate.
  assert (Hne : "hello world" <> "") by discriminate.
  destruct (backend_error_fails_submission env w summarize_job
              transcribed_submission (mkExn OtherException "timeout") Hw
              (or_introl eq_refl) (or_introl eq_refl) eq_refl Hm Hmsg)
    as [_ Hs].
  destruct (Hs "hello world" eq_refl eq_refl Hne eq_refl)
    as (_ & Hsub & _ & _ & lost & sub' & Hl & Hst & Hmg & _).
  change (Submission.id transcribed_submission) with "S" in Hsub.
  split; [rewrite Hsub; reflexivity |].
  split; [rewrite Hsub; reflexivity |].
  split; [rewrite Hsub; reflexivity |].
  exists lost. repeat split; assumption.
Defined.

(** ** Backend selection *)

Lemma transcription_deepgram (E : Env) (path : string) :
  transcribe_call path "deepgram" = CallDeepgram path
  /\ transcription E path "deepgram"
     = match deepgram E path with
       | inl e => inl e
       | inr (text, ms) =>
           if (text =? "")%string
           then inl (mkExn OtherException
                       "No transcript returned from Deepgram")
           else inr (text, "deepgram-nova-2", ms)
       end.
Proof.
  split; [reflexivity |].
  unfold transcription, transcribe_audio, transcribe_audio_deepgram,
    invoke, bind.
  cbn [String.eqb Ascii.eqb Bool.eqb].
  destruct (deepgram E path) as [e | [t ms]]; cbn [fst]; [reflexivity |].
  destruct (t =? "")%string; reflexivity.
Qed.

(** A transcribe job with a file that exists and metadata that denotes a
    dict: the one backend call it makes, and the row it leaves. *)
Lemma transcribe_outcome (E : Env) (w : world) (job : Job.t)
    (path : string) (m : list (string * json)) :
  store_wf (db w) ->
  In job (jobs (db w)) ->
  Job.job_type job = TRANSCRIBE ->
  Job.input_file_path job = Some path -> path <> "" ->
  path_exists E path = true ->
  metadata_dict (Job.metadata job) = Some m ->
  calls (snd (process_job E job w))
  = calls w ++ [transcribe_call path (Job.provider job)]
  /\ match transcription E path (Job.provider job) with
     | inl e =>
         exists t,
           get_job (Job.id job) (db (snd (process_job E job w)))
           = Some (failed t (exn_msg e) job)
     | inr (out, model, ms) =>
         exists t,
           get_job (Job.id job) (db (snd (process_job E job w)))
           = Some (completed t out model ms job)
     end.
Proof.
  intros [Hnd _] Hin Hty Hpath Hne Hex Hmeta.
  pose proof (metadata_dict_valid _ _ Hmeta) as Hvalid.
  destruct (transcription E path (Job.provider job))
    as [e | [[out model] ms]] eqn:Hans.
  - rewrite (process_transcribe_raises E w job path e Hty Hpath Hne Hex
               Hvalid Hans).
    cbn [snd]. rewrite failed_world_calls. cbn [called calls].
    rewrite announced_calls. split; [reflexivity |].
    eexists. apply failed_world_job; cbn [called db];
      rewrite announced_jobs; assumption.
  - destruct (bound_submission (Job.audio_file_id job)) as [sid |] eqn:Hsid.
    + rewrite (process_transcribe_bound E w job path sid out model ms m Hty
                 Hpath Hne Hex Hsid Hmeta Hans).
      assert (Hrow :
        get_job (Job.id job)
          (update_audio_submission_transcript (clock E (S (S (ticks w)))) sid
             out (Job.id job)
             (complete_job_update (clock E (S (ticks w))) (Job.id job) out model ms
                (update_audio_submission_status (clock E (ticks w)) sid
                   SubTranscribing None (db w))))
        = Some (completed (clock E (S (ticks w))) out model ms job)).
      { unfold update_audio_submission_transcript, get_job.
        cbn [with_submissions jobs].
        match goal with
        | |- find _ (jobs ?s) = _ => fold (get_job (Job.id job) s)
        end.
        unfold complete_job_update. rewrite get_job_update by reflexivity.
        rewrite Z.eqb_refl, get_job_update_status, (get_job_in _ _ Hnd Hin).
        reflexivity. }
      destruct (py_truthy (dict_get "autoSummarize" m (JBool false))).
      * unfold create_job.
        cbn [provider_allowed String.eqb Ascii.eqb Bool.eqb orb
             fst snd db stepped called ticks calls].
        split; [reflexivity |]. eexists. apply get_job_appended. exact Hrow.
      * cbn [fst snd db stepped called ticks calls].
        split; [reflexivity |]. eexists. exact Hrow.
    + rewrite (process_transcribe_unbound E w job path out model ms Hty
                 Hpath Hne Hex Hvalid Hsid Hans).
      cbn [fst snd db stepped called ticks calls].
      split; [reflexivity |]. eexists. apply get_job_completed; assumption.
Qed.

(** X10: a transcribe job of the table whose provider is "deepgram",
    whose non-empty path names a file that exists and whose metadata
    column is NULL, empty or a JSON
    object, invokes Deepgram, once, and never the local model.  It is
    found with status completed, the transcript, the model name
    "deepgram-nova-2" and the duration when a non-empty transcript comes
    back; with status failed and "No transcript returned from Deepgram"
    when the transcript is empty; and with status failed and Deepgram's
    own error message when it raises. *)
Theorem deepgram_provider_uses_deepgram (E : Env) (w : world) (job : Job.t)
    (path : string) (m : list (string * json)) :
  store_wf (db w) ->
  In job (jobs (db w)) ->
  Job.job_type job = TRANSCRIBE ->
  Job.provider job = "deepgram" ->
  Job.input_file_path job = Some path -> path <> "" ->
  path_exists E path = true ->
  metadata_dict (Job.metadata job) = Some m ->
  let final := db (snd (process_job E job w)) in
  calls (snd (process_job E job w)) = calls w ++ [CallDeepgram path]
  /\ (forall text ms,
        deepgram E path = inr (text, ms) -> text <> "" ->
        exists t done,
          get_job (Job.id job) final = Some done
          /\ done = completed t text "deepgram-nova-2" ms job
          /\ Job.status done = COMPLETED
          /\ Job.output_text done = Some text
          /\ Job.model_used done = Some "deepgram-nova-2"
          /\ Job.processing_time_ms done = Some ms
          /\ Job.error_message done = Job.error_message job)
  /\ (forall ms,
        deepgram E path = inr ("", ms) ->
        exists t lost,
          get_job (Job.id job) final = Some lost
          /\ lost = failed t "No transcript returned from Deepgram" job
          /\ Job.status lost = FAILED
          /\ Job.error_message lost
             = Some "No transcript returned from Deepgram"
          /\ Job.output_text lost = Job.output_text job
          /\ Job.model_used lost = Job.model_used job)
  /\ (forall e,
        deepgram E path = inl e ->
        exists t lost,
          get_job (Job.id job) final = Some lost
          /\ lost = failed t (exn_msg e) job
          /\ Job.status lost = FAILED
          /\ Job.error_message lost = Some (exn_msg e)
          /\ Job.output_text lost = Job.output_text job
          /\ Job.model_used lost = Job.model_used job).
Proof.
  intros Hw Hin Hty Hprov Hpath Hne Hex Hmeta final. subst final.
  destruct (transcribe_outcome E w job path m Hw Hin Hty Hpath Hne Hex Hmeta)
    as [Hcalls Hrow].
  rewrite Hprov in Hcalls, Hrow.
  destruct (transcription_deepgram E path) as [Hcall Htr].
  rewrite Hcall in Hcalls. rewrite Htr in Hrow.
  split; [exact Hcalls |]. split; [| split].
  - intros text ms Hd Htext. rewrite Hd in Hrow.
    destruct (text =? "")%string eqn:He.
    + apply String.eqb_eq in He. contradiction.
    + destruct Hrow as [t Hrow]. exists t. eexists.
      split; [exact Hrow |]. repeat split.
  - intros ms Hd. rewrite Hd in Hrow. cbn [String.eqb] in Hrow.
    destruct Hrow as [t Hrow]. exists t. eexists.
    split; [exact Hrow |]. repeat split.
  - intros e Hd. rewrite Hd in Hrow.
    destruct Hrow as [t Hrow]. exists t. eexists.
    split; [exact Hrow |]. repeat split.
Qed.

Lemma deepgram_provider_uses_deepgram_witness :
  let job := transcribe_job "deepgram" None in
  let w := world_with job (sample_submission "S") in
  calls (snd (process_job (deepgram_env "") job w)) = [CallDeepgram "a.wav"]
  /\ exists lost,
       get_job 1 (db (snd (process_job (deepgram_env "") job w))) = Some lost
       /\ Job.status lost = FAILED
       /\ Job.error_message lost
          = Some "No transcript returned from Deepgram".
Proof.
  intros job w.
  assert (Hw : store_wf (db w)) by solve_wf.
  assert (Hne : "a.wav" <> "") by discriminate.
  destruct (deepgram_provider_uses_deepgram (deepgram_env "") w job "a.wav"
              [] Hw (or_introl eq_refl) eq_refl eq_refl eq_refl Hne eq_refl
              eq_refl)
    as (Hc & _ & Hempty & _).
  split; [exact Hc |].
  destruct (Hempty 800 eq_refl) as (t & lost & Hl & _ & Hst & Hmsg & _).
  exists lost. repeat split; assumption.
Defined.

(** X11: [autoSummarize] is read only for a job bound to a submission.
    A transcribe job whose [audio_file_id] is NULL or the empty string,
    and whose backend answers, runs a single statement: the job is
    completed, no summarize job is created whatever the metadata says,
    and the submissions table is not written.  The final database is the
    one the UPDATE of [complete_job] leaves, which is what [complete_job]
    returns for integers that SQLite can hold. *)
Theorem unbound_transcribe_never_chains (E : Env) (w : world) (job : Job.t)
    (path out model : string) (ms : Z) :
  Job.job_type job = TRANSCRIBE ->
  Job.input_file_path job = Some path -> path <> "" ->
  path_exists E path = true ->
  Job.metadata job <> Some TextInvalid ->
  Job.audio_file_id job = None \/ Job.audio_file_id job = Some "" ->
  transcription E path (Job.provider job) = inr (out, model, ms) ->
  fst (process_job E job w) = inr tt
  /\ db (snd (process_job E job w))
     = complete_job_update (clock E (ticks w)) (Job.id job) out model ms (db w)
  /\ audio_submissions (db (snd (process_job E job w)))
     = audio_submissions (db w)
  /\ List.length (jobs (db (snd (process_job E job w))))
     = List.length (jobs (db w))
  /\ ticks (snd (process_job E job w)) = S (ticks w)
  /\ (sqlite_int ms && sqlite_int (Job.id job) = true ->
      complete_job (clock E (ticks w)) (Job.id job) out model ms (db w)
      = inr (db (snd (process_job E job w)))).
Proof.
  intros Hty Hpath Hne Hex Hmeta Hnull Hans.
  assert (Hsid : bound_submission (Job.audio_file_id job) = None)
    by (destruct Hnull as [H | H]; rewrite H; reflexivity).
  rewrite (process_transcribe_unbound E w job path out model ms Hty Hpath
             Hne Hex Hmeta Hsid Hans).
  cbn [fst snd stepped called db ticks].
  split; [reflexivity |]. split; [reflexivity |]. split; [reflexivity |].
  split; [| split; [reflexivity |]].
  - unfold complete_job_update. cbn [with_jobs jobs].
    apply update_job_length.
  - intro Hb. apply complete_job_bound. exact Hb.
Qed.

Lemma unbound_transcribe_never_chains_witness :
  let job :=
    Job.mk 1 TRANSCRIBE PROCESSING "local" (Some "a.wav") None None None
      (Some "") (auto_summarize (JBool true)) 10 (Some 20) None None None in
  let w := world_with job (sample_submission "S") in
  map Job.id (jobs (db (snd (process_job sample_env job w)))) = [1]
  /\ audio_submissions (db (snd (process_job sample_env job w)))
     = [sample_submission "S"].
Proof.
  intros job w.
  assert (Hne : "a.wav" <> "") by discriminate.
  assert (Hm : Job.metadata job <> Some TextInvalid) by discriminate.
  destruct (unbound_transcribe_never_chains sample_env w job "a.wav"
              "hello world" "whisper-large-v3" 1200 eq_refl eq_refl Hne
              eq_refl Hm (or_intror eq_refl) eq_refl)
    as (_ & Hdb & Hsubs & _).
  split; [rewrite Hdb; reflexivity | exact Hsubs].
Defined.

(** ** Insert and look up *)

Lemma find_snoc {A : Type} (p : A -> bool) (l : list A) (x : A) :
  find p (l ++ [x])
  = match find p l with
    | Some y => Some y
    | None => if p x then Some x else None
    end.
Proof.
  induction l as [| a l IH]; simpl; [reflexivity |].
  destruct (p a); [reflexivity | exact IH].
Qed.

(** X12: [create_job] and [get_job] round-trip.  The id that an accepted
    [create_job] returns was not in use; looking it up afterwards gives
    the new row, pending, with the arguments as given, the metadata
    among them (a dict with a member as its JSON text, an empty or
    absent one as NULL, either way read back by [process_job] as the
    dict given), and no output, error, start or completion time,
    duration or model; and every job that could be looked up before is
    looked up unchanged. *)
Theorem create_job_then_get_job (now : timestamp) (job_type : JobType)
    (input_file_path input_text audio_file_id : option string)
    (metadata : option (list (string * json))) (provider : string)
    (s s' : store) (job_id : Z) :
  create_job now job_type input_file_path input_text audio_file_id
    metadata provider s = inr (job_id, s') ->
  get_job job_id s = None
  /\ (exists row,
        get_job job_id s' = Some row
        /\ Job.id row = job_id
        /\ Job.status row = PENDING
        /\ Job.job_type row = job_type
        /\ Job.provider row = provider
        /\ Job.input_file_path row = input_file_path
        /\ Job.input_text row = input_text
        /\ Job.audio_file_id row = audio_file_id
        /\ Job.created_at row = now
        /\ Job.output_text row = None
        /\ Job.error_message row = None
        /\ Job.started_at row = None
        /\ Job.metadata row
           = match metadata with
             | Some (m :: ms) => Some (TextJson (JObj (m :: ms)))
             | _ => None
             end
        /\ metadata_dict (Job.metadata row)
           = Some (match metadata with Some m => m | None => [] end)
        /\ Job.completed_at row = None
        /\ Job.processing_time_ms row = None
        /\ Job.model_used row = None)
  /\ (forall k r, get_job k s = Some r -> get_job k s' = Some r)
  /\ (store_wf s -> store_wf s').
Proof.
  intro Hc.
  assert (Hnone : get_job (next_job_id s) s = None).
  { destruct (get_job (next_job_id s) s) as [r |] eqn:Hr; [| reflexivity].
    apply get_job_some in Hr. destruct Hr as [Hin Hid].
    apply next_job_id_fresh in Hin. lia. }
  assert (Hwf : store_wf s -> store_wf s')
    by (intro Hw; exact (create_job_keeps_wf _ _ _ _ _ _ _ _ _ _ Hw Hc)).
  unfold create_job in Hc.
  destruct (provider_allowed provider); [| discriminate].
  inversion Hc; subst job_id s'; clear Hc.
  split; [exact Hnone |]. split; [| split; [| exact Hwf]].
  - eexists. split.
    + unfold get_job in *. cbn [jobs]. rewrite find_snoc, Hnone.
      cbn [Job.id]. rewrite Z.eqb_refl. reflexivity.
    + do 12 (split; [reflexivity |]).
      split; [destruct metadata as [[| m ms] |]; reflexivity |].
      repeat split; reflexivity.
  - intros k r Hr. apply get_job_appended. exact Hr.
Qed.

Lemma create_job_then_get_job_witness :
  exists s',
    create_job 50 TRANSCRIBE (Some "a.wav") None (Some "S")
      (Some [("autoSummarize", JBool true)]) "deepgram" mixed_queue
    = inr (5, s')
    /\ get_job 5 mixed_queue = None
    /\ option_map Job.status (get_job 5 s') = Some PENDING
    /\ option_map Job.metadata (get_job 5 s')
       = Some (Some (TextJson (JObj [("autoSummarize", JBool true)])))
    /\ get_job 3 s' = Some (sample_job 3 SUMMARIZE PENDING 20).
Proof.
  eexists. split; [vm_compute; reflexivity |].
  match goal with
  | |- context [get_job 5 ?s'] =>
      destruct (create_job_then_get_job 50 TRANSCRIBE (Some "a.wav") None
                  (Some "S") (Some [("autoSummarize", JBool true)])
                  "deepgram" mixed_queue s' 5 eq_refl)
        as (Hnone & (row & Hrow & _ & Hst & _ & _ & _ & _ & _ & _ & _ & _
                     & _ & Hmd & _) & Hold & _)
  end.
  split; [exact Hnone |].
  split; [rewrite Hrow; cbn [option_map]; rewrite Hst; reflexivity |].
  split; [rewrite Hrow; cbn [option_map]; rewrite Hmd; reflexivity |].
  apply Hold. reflexivity.
Defined.

Lemma existsb_find {A : Type} (p : A -> bool) (l : list A) :
  existsb p l = match find p l with Some _ => true | None => false end.
Proof.
  induction l as [| a l IH]; simpl; [reflexivity |].
  destruct (p a); [reflexivity | exact IH].
Qed.

(** X13: [create_audio_submission] and [get_audio_submission]
    round-trip.  A file size that is no SQLite integer is refused with
    an [OverflowError].  Otherwise, for an id not on record, the insert
    is accepted and the lookup then gives the new row: pending, without
    transcript, summary, their job ids and times, or error, carrying the
    file name, path, original name, MIME type and size as given, the
    duration as given but for a NaN, which SQLite stores as NULL, the
    metadata as its JSON text (NULL for an empty or absent dict) and
    both timestamps; the other submissions and all jobs are as before.
    For an id already on record the insert is refused with an integrity
    error. *)
Theorem create_submission_then_get (now : timestamp)
    (submission_id filename file_path : string)
    (original_filename mime_type : option string) (file_size : option Z)
    (duration_seconds : option spec_float)
    (metadata : option (list (string * json))) (s : store) :
  (bindable file_size = true ->
   get_audio_submission submission_id s = None ->
   exists s' row,
     create_audio_submission now submission_id filename file_path
       original_filename mime_type file_size duration_seconds metadata s
     = inr (submission_id, s')
     /\ get_audio_submission submission_id s' = Some row
     /\ Submission.id row = submission_id
     /\ Submission.status row = SubPending
     /\ Submission.filename row = filename
     /\ Submission.file_path row = file_path
     /\ Submission.transcript row = None
     /\ Submission.summary row = None
     /\ Submission.error_message row = None
     /\ Submission.original_filename row = original_filename
     /\ Submission.mime_type row = mime_type
     /\ Submission.file_size row = file_size
     /\ Submission.duration_seconds row
        = match duration_seconds with
          | Some S754_nan => None
          | d => d
          end
     /\ Submission.metadata row
        = match metadata with
          | Some (m :: ms) => Some (TextJson (JObj (m :: ms)))
          | _ => None
          end
     /\ Submission.transcript_job_id row = None
     /\ Submission.transcribed_at row = None
     /\ Submission.summary_job_id row = None
     /\ Submission.summarized_at row = None
     /\ Submission.created_at row = now
     /\ Submission.updated_at row = now
     /\ (forall k r,
           get_audio_submission k s = Some r ->
           get_audio_submission k s' = Some r)
     /\ jobs s' = jobs s
     /\ (store_wf s -> store_wf s'))
  /\ (bindable file_size = true ->
      forall r,
        get_audio_submission submission_id s = Some r ->
        exists e,
          create_audio_submission now submission_id filename file_path
            original_filename mime_type file_size duration_seconds metadata s
          = inl e
          /\ exn_cls e = IntegrityError)
  /\ (bindable file_size = false ->
      create_audio_submission now submission_id filename file_path
        original_filename mime_type file_size duration_seconds metadata s
      = inl int_too_large).
Proof.
  unfold create_audio_submission. rewrite existsb_find.
  fold (get_audio_submission submission_id s). split; [| split].
  - intros Hb Hnone. rewrite Hb, Hnone. eexists. eexists.
    split; [reflexivity |]. split.
    { unfold get_audio_submission in *.
      cbn [with_submissions audio_submissions].
      rewrite find_snoc, Hnone. cbn [Submission.id].
      rewrite String.eqb_refl. reflexivity. }
    do 18 (split; [reflexivity |]). split; [| split; [reflexivity |]].
    + intros k r Hr. unfold get_audio_submission in *.
      cbn [with_submissions audio_submissions].
      rewrite find_snoc, Hr. reflexivity.
    + intros [Hj Hs]. split; [exact Hj |].
      cbn [with_submissions audio_submissions]. rewrite map_app.
      apply NoDup_snoc; [exact Hs |]. cbn [map Submission.id].
      intro Hin. apply in_map_iff in Hin. destruct Hin as (r & Hr & Hin).
      unfold get_audio_submission in Hnone.
      apply (find_none _ _ Hnone) in Hin. rewrite Hr in Hin.
      rewrite String.eqb_refl in Hin. discriminate.
  - intros Hb r Hr. rewrite Hb, Hr. eexists. split; reflexivity.
  - intro Hb. rewrite Hb. reflexivity.
Qed.

Lemma create_submission_then_get_witness :
  (exists s' row,
     create_audio_submission 7 "T" "b.wav" "/uploads/b.wav" (Some "talk.wav")
       (Some "audio/wav") (Some 2048) None None (db pipeline_world)
     = inr ("T", s')
     /\ get_audio_submission "T" s' = Some row
     /\ Submission.status row = SubPending
     /\ Submission.original_filename row = Some "talk.wav"
     /\ Submission.mime_type row = Some "audio/wav"
     /\ Submission.file_size row = Some 2048)
  /\ (exists e,
        create_audio_submission 7 "S" "b.wav" "/uploads/b.wav" None None None
          None None (db pipeline_world) = inl e
        /\ exn_cls e = IntegrityError)
  /\ create_audio_submission 7 "T" "b.wav" "/uploads/b.wav" None None
       (Some (2 ^ 63)) None None (db pipeline_world)
     = inl int_too_large.
Proof.
  split; [| split].
  - destruct (create_submission_then_get 7 "T" "b.wav" "/uploads/b.wav"
                (Some "talk.wav") (Some "audio/wav") (Some 2048) None None
                (db pipeline_world)) as [Hnew _].
    destruct (Hnew eq_refl eq_refl)
      as (s' & row & Hc & Hg & _ & Hst & _ & _ & _ & _ & _ & Ho & Hm & Hf
          & _).
    exists s', row. repeat split; assumption.
  - destruct (create_submission_then_get 7 "S" "b.wav" "/uploads/b.wav" None
                None None None None (db pipeline_world)) as (_ & Hdup & _).
    apply (Hdup eq_refl (sample_submission "S")). reflexivity.
  - destruct (create_submission_then_get 7 "T" "b.wav" "/uploads/b.wav" None
                None (Some (2 ^ 63)) None None (db pipeline_world))
      as (_ & _ & Hover).
    exact (Hover eq_refl).
Defined.





(** ** Queue statistics along the life of a job *)

Lemma filter_length_update_row (p : Job.t -> bool) (rows : list Job.t)
    (j : Job.t) (f : Job.t -> Job.t) :
  NoDup (map Job.id rows) -> In j rows ->
  (List.length (filter p (update_job (Job.id j) f rows))
   + (if p j then 1 else 0)
   = List.length (filter p rows) + (if p (f j) then 1 else 0))%nat.
Proof.
  intros Hnd Hin. induction rows as [| r rest IH]; [destruct Hin |].
  simpl in Hnd. inversion Hnd as [| x y Hnotin Hnd']; subst.
  change (update_job (Job.id j) f (r :: rest))
    with ((if Job.id r =? Job.id j then f r else r)
          :: update_job (Job.id j) f rest).
  destruct Hin as [Hin | Hin].
  - subst r. rewrite Z.eqb_refl.
    rewrite update_job_absent by exact Hnotin. simpl.
    destruct (p j), (p (f j)); simpl; lia.
  - destruct (Job.id r =? Job.id j) eqn:He.
    + exfalso. apply Hnotin. apply Z.eqb_eq in He. rewrite He.
      apply in_map. exact Hin.
    + specialize (IH Hnd' Hin). simpl. destruct (p r); simpl; lia.
Qed.

Lemma count_status_update (st : JobStatus) (rows : list Job.t) (j : Job.t)
    (f : Job.t -> Job.t) :
  NoDup (map Job.id rows) -> In j rows ->
  count_status st (update_job (Job.id j) f rows)
  = count_status st rows
    - (if JobStatus_eqb (Job.status j) st then 1 else 0)
    + (if JobStatus_eqb (Job.status (f j)) st then 1 else 0).
Proof.
  intros Hnd Hin. unfold count_status.
  pose proof (filter_length_update_row
                (fun r => JobStatus_eqb (Job.status r) st) rows j f Hnd Hin)
    as H.
  cbv beta in H.
  destruct (JobStatus_eqb (Job.status j) st),
    (JobStatus_eqb (Job.status (f j)) st); lia.
Qed.

Lemma count_status_snoc (st : JobStatus) (rows : list Job.t) (r : Job.t) :
  count_status st (rows ++ [r])
  = count_status st rows
    + (if JobStatus_eqb (Job.status r) st then 1 else 0).
Proof.
  unfold count_status. rewrite filter_app, length_app. simpl.
  destruct (JobStatus_eqb (Job.status r) st); simpl; lia.
Qed.

(** X15: the counts of [get_queue_status] follow the life of a job.  On
    a well-formed queue, an accepted [create_job] adds one to the total
    and to pending; a claim that returns a job moves one from pending to
    processing; [complete_job] and [fail_job] on a processing job, that
    is their UPDATE and with it every call that returns, move one from
    processing to completed, respectively to failed; and in each case
    every other count is unchanged. *)
Theorem queue_counts_follow_lifecycle (s : store) :
  store_wf s ->
  let q := fst (get_queue_status s) in
  (forall now job_type input_file_path input_text audio_file_id metadata
          provider job_id s',
     create_job now job_type input_file_path input_text audio_file_id
       metadata provider s = inr (job_id, s') ->
     let q' := fst (get_queue_status s') in
     total_jobs q' = total_jobs q + 1
     /\ pending q' = pending q + 1
     /\ processing q' = processing q
     /\ completed_count q' = completed_count q
     /\ failed_count q' = failed_count q)
  /\ (forall now j,
        fst (get_next_pending_job now s) = Some j ->
        let q' := fst (get_queue_status (snd (get_next_pending_job now s))) in
        total_jobs q' = total_jobs q
        /\ pending q' = pending q - 1
        /\ processing q' = processing q + 1
        /\ completed_count q' = completed_count q
        /\ failed_count q' = failed_count q)
  /\ (forall now j out model ms,
        In j (jobs s) -> Job.status j = PROCESSING ->
        let q' :=
          fst (get_queue_status (complete_job_update now (Job.id j) out model ms s)) in
        total_jobs q' = total_jobs q
        /\ pending q' = pending q
        /\ processing q' = processing q - 1
        /\ completed_count q' = completed_count q + 1
        /\ failed_count q' = failed_count q)
  /\ (forall now j msg,
        In j (jobs s) -> Job.status j = PROCESSING ->
        let q' := fst (get_queue_status (fail_job_update now (Job.id j) msg s)) in
        total_jobs q' = total_jobs q
        /\ pending q' = pending q
        /\ processing q' = processing q - 1
        /\ completed_count q' = completed_count q
        /\ failed_count q' = failed_count q + 1)
  /\ (forall now j out model ms s',
        In j (jobs s) -> Job.status j = PROCESSING ->
        complete_job now (Job.id j) out model ms s = inr s' ->
        let q' := fst (get_queue_status s') in
        total_jobs q' = total_jobs q
        /\ pending q' = pending q
        /\ processing q' = processing q - 1
        /\ completed_count q' = completed_count q + 1
        /\ failed_count q' = failed_count q)
  /\ (forall now j msg s',
        In j (jobs s) -> Job.status j = PROCESSING ->
        fail_job now (Job.id j) msg s = inr s' ->
        let q' := fst (get_queue_status s') in
        total_jobs q' = total_jobs q
        /\ pending q' = pending q
        /\ processing q' = processing q - 1
        /\ completed_count q' = completed_count q
        /\ failed_count q' = failed_count q + 1).
Proof.
  intros [Hnd _] q. subst q.
  unfold get_queue_status.
  cbn [fst total_jobs pending processing completed_count failed_count].
  assert (Hdone : forall now j out model ms,
    In j (jobs s) -> Job.status j = PROCESSING ->
    let s' := complete_job_update now (Job.id j) out model ms s in
    Z.of_nat (List.length (jobs s')) = Z.of_nat (List.length (jobs s))
    /\ count_status PENDING (jobs s') = count_status PENDING (jobs s)
    /\ count_status PROCESSING (jobs s')
       = count_status PROCESSING (jobs s) - 1
    /\ count_status COMPLETED (jobs s')
       = count_status COMPLETED (jobs s) + 1
    /\ count_status FAILED (jobs s') = count_status FAILED (jobs s)).
  { intros now j out model ms Hin Hst. unfold complete_job_update.
    cbn [with_jobs jobs]. rewrite update_job_length.
    rewrite !(count_status_update _ _ _ _ Hnd Hin).
    cbn [completed Job.status]. rewrite Hst. cbn [JobStatus_eqb].
    repeat split; lia. }
  assert (Hlost : forall now j msg,
    In j (jobs s) -> Job.status j = PROCESSING ->
    let s' := fail_job_update now (Job.id j) msg s in
    Z.of_nat (List.length (jobs s')) = Z.of_nat (List.length (jobs s))
    /\ count_status PENDING (jobs s') = count_status PENDING (jobs s)
    /\ count_status PROCESSING (jobs s')
       = count_status PROCESSING (jobs s) - 1
    /\ count_status COMPLETED (jobs s') = count_status COMPLETED (jobs s)
    /\ count_status FAILED (jobs s') = count_status FAILED (jobs s) + 1).
  { intros now j msg Hin Hst. unfold fail_job_update.
    cbn [with_jobs jobs]. rewrite update_job_length.
    rewrite !(count_status_update _ _ _ _ Hnd Hin).
    cbn [failed Job.status]. rewrite Hst. cbn [JobStatus_eqb].
    repeat split; lia. }
  split; [| split; [| split; [| split; [| split]]]].
  - intros now jt ifp it afid md prov job_id s' Hc.
    unfold create_job in Hc.
    destruct (provider_allowed prov); [| discriminate].
    inversion Hc; subst; clear Hc. cbn [jobs].
    rewrite !count_status_snoc, length_app. cbn [Job.status JobStatus_eqb].
    simpl List.length. repeat split; lia.
  - intros now j Hj.
    destruct (oldest_pending (jobs s)) as [j0 |] eqn:Ho.
    + rewrite (claim_some now s j0 Hnd Ho) in *. cbn [fst snd] in *.
      destruct (oldest_pending_some _ _ Ho) as (Hin & Hp & _).
      apply is_pending_true in Hp.
      cbn [with_jobs jobs]. rewrite update_job_length.
      rewrite !(count_status_update _ _ _ _ Hnd Hin).
      cbn [claimed Job.status]. rewrite Hp. cbn [JobStatus_eqb].
      repeat split; lia.
    + unfold get_next_pending_job in Hj. rewrite Ho in Hj. discriminate.
  - intros now j out model ms Hin Hst.
    exact (Hdone now j out model ms Hin Hst).
  - intros now j msg Hin Hst. exact (Hlost now j msg Hin Hst).
  - intros now j out model ms s' Hin Hst Hc. unfold complete_job in Hc.
    destruct (sqlite_int ms && sqlite_int (Job.id j)); [| discriminate Hc].
    injection Hc as <-. exact (Hdone now j out model ms Hin Hst).
  - intros now j msg s' Hin Hst Hc. unfold fail_job in Hc.
    destruct (sqlite_int (Job.id j)); [| discriminate Hc].
    injection Hc as <-. exact (Hlost now j msg Hin Hst).
Qed.

Lemma queue_counts_follow_lifecycle_witness :
  store_wf mixed_queue
  /\ pending (fst (get_queue_status mixed_queue)) = 3
  /\ pending (fst (get_queue_status
                     (snd (get_next_pending_job 100 mixed_queue)))) = 2
  /\ processing (fst (get_queue_status
                        (snd (get_next_pending_job 100 mixed_queue)))) = 1.
Proof.
  assert (Hw : store_wf mixed_queue) by solve_wf.
  split; [exact Hw |]. split; [reflexivity |].
  destruct (queue_counts_follow_lifecycle mixed_queue Hw) as (_ & Hclaim & _).
  destruct (Hclaim 100 (claimed 100 (sample_job 3 SUMMARIZE PENDING 20))
              eq_refl) as (_ & Hp & Hr & _).
  split; [rewrite Hp | rewrite Hr]; reflexivity.
Defined.

(** ** The reported average *)

Lemma round_half_even_between (num den lo hi : Z) :
  0 < den -> lo * den <= num <= hi * den ->
  lo <= round_half_even num den <= hi.
Proof.
  intros Hden [Hlo Hhi]. unfold round_half_even.
  pose proof (Z.div_mod num den ltac:(lia)) as Hdm.
  pose proof (Z.mod_pos_bound num den Hden) as Hr.
  set (q := num / den) in *. set (r := num mod den) in *.
  assert (Hq1 : lo <= q) by nia.
  assert (Hq2 : q <= hi) by nia.
  assert (Hq3 : 0 < r -> q + 1 <= hi) by (intro; nia).
  destruct (2 * r <? den) eqn:H1; [lia |].
  apply Z.ltb_ge in H1.
  destruct (den <? 2 * r); [lia |].
  destruct (Z.even q); lia.
Qed.

Lemma round_half_even_tie (num den k : Z) :
  0 < den -> 2 * num = (2 * k + 1) * den ->
  round_half_even num den = if Z.even k then k else k + 1.
Proof.
  intros Hden Htie. unfold round_half_even.
  pose proof (Z.div_mod num den ltac:(lia)) as Hdm.
  pose proof (Z.mod_pos_bound num den Hden) as Hr.
  set (q := num / den) in *. set (r := num mod den) in *.
  assert (Hd : den * (2 * (k - q) + 1) = 2 * r) by nia.
  assert (Hk : k = q) by nia.
  subst k. assert (H2 : 2 * r = den) by nia.
  rewrite (proj2 (Z.ltb_ge (2 * r) den)) by lia.
  rewrite (proj2 (Z.ltb_ge den (2 * r))) by lia.
  reflexivity.
Qed.

(** The reported average on samples: 2.5 is rounded to the even 2 and
    1.5 to the even 2, a zero average is not reported, and a duration
    that no double holds is reported as the double next to it. *)
Lemma average_time_samples :
  avg_processing_time_ms (fst (get_queue_status timed_queue)) = Some 2
  /\ average_time [1; 2] = Some 2
  /\ average_time [7; 8; 10] = Some 8
  /\ average_time [0; 0] = None
  /\ average_time [] = None
  /\ average_time [2 ^ 53 + 1] = Some (2 ^ 53).
Proof. repeat split; vm_compute; reflexivity. Qed.

(** ** From upload to summary: two passes of the loop *)

(** A pass of the loop on a queue whose next job is [j]: the world in
    which [process_job] then runs, and what it holds. *)
Lemma worker_iteration_claims (E : Env) (w : world) (j : Job.t) :
  store_wf (db w) ->
  oldest_pending (jobs (db w)) = Some j ->
  let now := clock E (ticks w) in
  let wc :=
    {| db := with_jobs (update_job (Job.id j) (claimed now) (jobs (db w)))
               (db w);
       ticks := S (ticks w);
       calls := calls w |} in
  worker_iteration E w = snd (process_job E (claimed now j) wc)
  /\ store_wf (db wc)
  /\ In (claimed now j) (jobs (db wc))
  /\ pendings (jobs (db wc))
     = filter (fun r => negb (Job.id r =? Job.id j)) (pendings (jobs (db w)))
  /\ audio_submissions (db wc) = audio_submissions (db w).
Proof.
  intros [Hnd Hsnd] Hj now wc.
  destruct (oldest_pending_some _ _ Hj) as (Hin & _ & _).
  split; [| split; [| split; [| split]]].
  - unfold worker_iteration. rewrite (claim_some _ _ j Hnd Hj). reflexivity.
  - split; cbn [wc db with_jobs jobs audio_submissions];
      [rewrite update_job_ids by reflexivity |]; assumption.
  - cbn [wc db with_jobs jobs].
    pose proof (update_job_in (Job.id j) (claimed now) _ _ Hin) as H.
    rewrite Z.eqb_refl in H. exact H.
  - cbn [wc db with_jobs jobs]. apply pendings_after_claim.
  - reflexivity.
Qed.

Lemma pendings_update_none (job_id : Z) (g : Job.t -> Job.t)
    (rows : list Job.t) :
  pendings rows = [] ->
  (forall r, is_pending (g r) = false) ->
  pendings (update_job job_id g rows) = [].
Proof.
  intros Hnone Hg. apply no_pending_rows. intros x Hx.
  apply update_job_inv in Hx. destruct Hx as (r & Hr & ->).
  destruct (Job.id r =? job_id).
  - apply is_pending_false. apply Hg.
  - apply (proj2 (no_pending_rows rows) Hnone). exact Hr.
Qed.

Lemma oldest_pending_single (rows : list Job.t) (j : Job.t) :
  pendings rows = [j] -> oldest_pending rows = Some j.
Proof.
  intro H. rewrite oldest_pending_head; rewrite H;
    [reflexivity | constructor; constructor].
Qed.

Lemma get_submission_found (k : string) (s : store) (r : Submission.t) :
  get_audio_submission k s = Some r ->
  In r (audio_submissions s) /\ Submission.id r = k.
Proof.
  unfold get_audio_submission. intro H. apply find_some in H.
  destruct H as [Hin He]. apply String.eqb_eq in He. auto.
Qed.

(** The two tables once a bound summarize job has been completed and its
    summary recorded. *)
Lemma tables_after_summary (s : store) (job : Job.t) (sub : Submission.t)
    (t0 t1 t2 : timestamp) (out model : string) (ms : Z) :
  store_wf s -> In job (jobs s) -> In sub (audio_submissions s) ->
  let s3 :=
    update_audio_submission_summary t2 (Submission.id sub) out (Job.id job)
      (complete_job_update t1 (Job.id job) out model ms
         (update_audio_submission_status t0 (Submission.id sub)
            SubSummarizing None s)) in
  get_job (Job.id job) s3 = Some (completed t1 out model ms job)
  /\ get_audio_submission (Submission.id sub) s3
     = Some (summarized t2 out (Job.id job)
               (restated t0 SubSummarizing None sub)).
Proof.
  intros [Hnd Hsnd] Hjob Hsub s3. subst s3. split.
  - unfold update_audio_submission_summary, get_job.
    cbn [with_submissions jobs].
    match goal with
    | |- find _ (jobs ?x) = _ => fold (get_job (Job.id job) x)
    end.
    unfold complete_job_update. rewrite get_job_update by reflexivity.
    rewrite Z.eqb_refl, get_job_update_status, (get_job_in _ _ Hnd Hjob).
    reflexivity.
  - unfold update_audio_submission_summary.
    rewrite get_submission_update by reflexivity.
    rewrite String.eqb_refl.
    unfold complete_job_update, get_audio_submission.
    cbn [with_jobs audio_submissions].
    match goal with
    | |- option_map _ (find _ (audio_submissions ?x)) = _ =>
        fold (get_audio_submission (Submission.id sub) x)
    end.
    rewrite get_submission_update_status, (get_submission_in _ _ Hsnd Hsub).
    reflexivity.
Qed.

(** The first pass on a queue whose only pending job is a transcribe job
    that asks for a summary: what it leaves for the second pass. *)
Lemma pipeline_first_pass (E : Env) (w : world) (j : Job.t)
    (sub : Submission.t) (path out model : string) (ms : Z)
    (m : list (string * json)) :
  store_wf (db w) ->
  pendings (jobs (db w)) = [j] ->
  In sub (audio_submissions (db w)) ->
  bound_submission (Job.audio_file_id j) = Some (Submission.id sub) ->
  Job.job_type j = TRANSCRIBE ->
  Job.input_file_path j = Some path -> path <> "" ->
  path_exists E path = true ->
  metadata_dict (Job.metadata j) = Some m ->
  py_truthy (dict_get "autoSummarize" m (JBool false)) = true ->
  transcription E path (Job.provider j) = inr (out, model, ms) ->
  exists (row : Job.t) (sub1 : Submission.t),
    store_wf (db (worker_iteration E w))
    /\ pendings (jobs (db (worker_iteration E w))) = [row]
    /\ Job.job_type row = SUMMARIZE
    /\ Job.input_text row = Some out
    /\ Job.audio_file_id row = Some (Submission.id sub)
    /\ Job.metadata row = Some (TextJson (JObj (chain_metadata (Job.id j))))
    /\ Job.id row <> Job.id j
    /\ (exists t,
          get_job (Job.id j) (db (worker_iteration E w))
          = Some (completed t out model ms (claimed (clock E (ticks w)) j)))
    /\ get_audio_submission (Submission.id sub) (db (worker_iteration E w))
       = Some sub1
    /\ Submission.id sub1 = Submission.id sub
    /\ Submission.status sub1 = SubSummarizing
    /\ Submission.transcript sub1 = Some out
    /\ Submission.transcript_job_id sub1 = Some (Job.id j)
    /\ Submission.error_message sub1 = Submission.error_message sub
    /\ Submission.summary sub1 = Submission.summary sub
    /\ calls (worker_iteration E w)
       = calls w ++ [transcribe_call path (Job.provider j)].
Proof.
  intros Hw Hone Hsub Hsid Hty Hpath Hne Hex Hmeta Hauto Hans.
  pose proof (oldest_pending_single _ _ Hone) as Hj.
  destruct (worker_iteration_claims E w j Hw Hj)
    as (Hrun & Hwc & Hinc & Hpc & Hsc).
  set (now := clock E (ticks w)) in *.
  set (wc := {| db := with_jobs
                        (update_job (Job.id j) (claimed now) (jobs (db w)))
                        (db w);
                ticks := S (ticks w); calls := calls w |}) in *.
  assert (Hpc0 : pendings (jobs (db wc)) = []).
  { rewrite Hpc, Hone. simpl. rewrite Z.eqb_refl. reflexivity. }
  assert (Hsubc : In sub (audio_submissions (db wc)))
    by (rewrite Hsc; exact Hsub).
  rewrite Hrun.
  rewrite (process_transcribe_bound E wc (claimed now j) path
             (Submission.id sub) out model ms m Hty Hpath Hne Hex Hsid Hmeta
             Hans).
  rewrite Hauto.
  destruct (tables_after_transcript (db wc) (claimed now j) sub
              (clock E (ticks wc)) (clock E (S (ticks wc)))
              (clock E (S (S (ticks wc)))) out model ms Hwc Hinc Hsubc)
    as (Hj3 & Hs3 & Hids3).
  cbn [stepped called db ticks calls].
  set (s3 := update_audio_submission_transcript _ _ _ _ _) in *.
  assert (Hp3 : pendings (jobs s3) = []).
  { subst s3.
    cbn [update_audio_submission_transcript with_submissions jobs].
    unfold complete_job_update. cbn [with_jobs jobs].
    apply pendings_update_none; [| reflexivity].
    rewrite update_status_jobs. exact Hpc0. }
  unfold create_job. cbn [provider_allowed String.eqb Ascii.eqb Bool.eqb orb].
  cbn [snd db calls jobs audio_submissions].
  eexists. exists (transcribed (clock E (S (S (ticks wc)))) out
                     (Job.id (claimed now j))
                     (restated (clock E (ticks wc)) SubTranscribing None sub)).
  split.
  { destruct Hwc as [Hndc Hsndc]. split; cbn [jobs audio_submissions].
    - rewrite map_app. apply NoDup_snoc.
      + rewrite Hids3. exact Hndc.
      + cbn [map Job.id]. intro Hin.
        apply in_map_iff in Hin. destruct Hin as (r & Hr & Hrin).
        apply next_job_id_fresh in Hrin. lia.
    - subst s3.
      cbn [update_audio_submission_transcript with_submissions
           audio_submissions].
      rewrite update_submission_ids by reflexivity.
      unfold complete_job_update. cbn [with_jobs audio_submissions].
      rewrite update_status_submission_ids. exact Hsndc. }
  split; [rewrite pendings_app, Hp3; reflexivity |].
  do 4 (split; [reflexivity |]).
  split.
  { cbn [Job.id]. intro He.
    apply get_job_some in Hj3. destruct Hj3 as [Hin3 _].
    apply next_job_id_fresh in Hin3. cbn [completed claimed Job.id] in Hin3.
    cbn [claimed Job.id] in He. lia. }
  split.
  { eexists. apply get_job_appended. exact Hj3. }
  split; [exact Hs3 |].
  repeat split; reflexivity.
Qed.

Lemma bound_submission_some (o : option string) (sid : string) :
  bound_submission o = Some sid ->
  o = Some sid /\ bound_submission (Some sid) = Some sid.
Proof.
  destruct o as [x |]; simpl; [| discriminate].
  destruct (x =? "")%string eqn:He; [discriminate |].
  intro H. inversion H; subst x. rewrite He. auto.
Qed.

Lemma queue_work_of_pendings (rows : list Job.t) :
  queue_work rows = queue_work (pendings rows).
Proof.
  unfold queue_work, pendings. induction rows as [| r rest IH]; simpl;
    [reflexivity |].
  destruct (is_pending r) eqn:Hr; simpl; rewrite IH; [reflexivity |].
  apply is_pending_false in Hr. unfold job_work.
  destruct (Job.status r); try reflexivity. contradiction.
Qed.

(** The pass that takes the last pending job, a summarize job, leaves
    nothing pending. *)
Lemma last_summarize_pass (E : Env) (w : world) (row : Job.t) :
  store_wf (db w) ->
  pendings (jobs (db w)) = [row] ->
  Job.job_type row = SUMMARIZE ->
  pendings (jobs (db (worker_iteration E w))) = [].
Proof.
  intros Hw Hone Hty.
  destruct (worker_iteration_progress E w Hw) as [_ [Hdown | [Hnone _]]].
  - apply queue_work_zero.
    rewrite (queue_work_of_pendings (jobs (db w))), Hone in Hdown.
    assert (Hp : Job.status row = PENDING).
    { assert (Hin : In row (pendings (jobs (db w))))
        by (rewrite Hone; left; reflexivity).
      apply pendings_in in Hin. tauto. }
    unfold queue_work in Hdown at 2. simpl in Hdown.
    unfold job_work in Hdown at 1. rewrite Hp, Hty in Hdown. lia.
  - rewrite Hnone in Hone. discriminate.
Qed.

(** X17: from upload to summary.  On a well-formed queue whose only
    pending job is a transcribe job bound to a submission and asking for
    a summary, if the file exists, the transcription backend answers a
    non-empty transcript and the summariser answers, then two passes of
    the loop leave the submission completed with that transcript and
    that summary, each attributed to its job; both jobs are completed,
    nothing is pending, and exactly the two backends were invoked, in
    that order. *)
Theorem two_passes_complete_submission (E : Env) (w : world) (j : Job.t)
    (sub : Submission.t) (path out model summ : string) (ms ms' : Z)
    (m : list (string * json)) :
  store_wf (db w) ->
  pendings (jobs (db w)) = [j] ->
  In sub (audio_submissions (db w)) ->
  bound_submission (Job.audio_file_id j) = Some (Submission.id sub) ->
  Job.job_type j = TRANSCRIBE ->
  Job.input_file_path j = Some path -> path <> "" ->
  path_exists E path = true ->
  metadata_dict (Job.metadata j) = Some m ->
  py_truthy (dict_get "autoSummarize" m (JBool false)) = true ->
  transcription E path (Job.provider j) = inr (out, model, ms) ->
  out <> "" ->
  ollama E out = inr (summ, ms') ->
  let final := worker_iterations E 2 w in
  exists (sub2 : Submission.t) (new_id : Z) (done chained : Job.t),
    get_audio_submission (Submission.id sub) (db final) = Some sub2
    /\ Submission.status sub2 = SubCompleted
    /\ Submission.transcript sub2 = Some out
    /\ Submission.transcript_job_id sub2 = Some (Job.id j)
    /\ Submission.summary sub2 = Some summ
    /\ Submission.summary_job_id sub2 = Some new_id
    /\ new_id <> Job.id j
    /\ get_job (Job.id j) (db final) = Some done
    /\ Job.status done = COMPLETED
    /\ Job.output_text done = Some out
    /\ get_job new_id (db final) = Some chained
    /\ Job.job_type chained = SUMMARIZE
    /\ Job.status chained = COMPLETED
    /\ Job.input_text chained = Some out
    /\ Job.output_text chained = Some summ
    /\ pendings (jobs (db final)) = []
    /\ calls final
       = calls w ++ [transcribe_call path (Job.provider j); CallOllama out].
Proof.
  intros Hw Hone Hsub Hsid Hty Hpath Hne Hex Hmeta Hauto Hans Hout Ho final.
  subst final. cbn [worker_iterations].
  destruct (pipeline_first_pass E w j sub path out model ms m Hw Hone Hsub
              Hsid Hty Hpath Hne Hex Hmeta Hauto Hans)
    as (row & sub1 & Hw1 & Hone1 & Hrty & Hrin & Hraf & Hrmeta & Hrid
        & (t & Hjdone) & Hs1 & Hs1id & Hs1st & Hs1tr & Hs1tj & _ & Hs1sum
        & Hcalls1).
  set (w1 := worker_iteration E w) in *.
  pose proof (oldest_pending_single _ _ Hone1) as Hj1.
  destruct (worker_iteration_claims E w1 row Hw1 Hj1)
    as (Hrun & Hwc & Hinc & _ & Hsc).
  pose proof (last_summarize_pass E w1 row Hw1 Hone1 Hrty) as Hnone.
  assert (Hframe : get_job (Job.id j) (db (worker_iteration E w1))
                   = Some (completed t out model ms
                             (claimed (clock E (ticks w)) j))).
  { apply worker_iteration_frame; [exact Hw1 | exact Hjdone | discriminate]. }
  set (now := clock E (ticks w1)) in *.
  set (wc := {| db := with_jobs
                        (update_job (Job.id row) (claimed now) (jobs (db w1)))
                        (db w1);
                ticks := S (ticks w1); calls := calls w1 |}) in *.
  destruct (bound_submission_some _ _ Hsid) as [_ Hbound].
  destruct (get_submission_found _ _ _ Hs1) as [Hs1in _].
  assert (Hsid' : bound_submission (Job.audio_file_id (claimed now row))
                  = Some (Submission.id sub1)).
  { cbn [claimed Job.audio_file_id]. rewrite Hraf, Hs1id. exact Hbound. }
  assert (Hvalid : Job.metadata (claimed now row) <> Some TextInvalid).
  { cbn [claimed Job.metadata]. rewrite Hrmeta. discriminate. }
  assert (Hs1c : In sub1 (audio_submissions (db wc)))
    by (rewrite Hsc; exact Hs1in).
  destruct (tables_after_summary (db wc) (claimed now row) sub1
              (clock E (ticks wc)) (clock E (S (ticks wc)))
              (clock E (S (S (ticks wc)))) summ "llama3.1:8b" ms' Hwc Hinc
              Hs1c) as [Hjob2 Hsub2].
  assert (Hfinal :
    worker_iteration E w1
    = stepped (fun now0 =>
                 update_audio_submission_summary now0 (Submission.id sub1)
                   summ (Job.id (claimed now row))) E
        (stepped (fun now0 =>
                    complete_job_update now0 (Job.id (claimed now row)) summ
                      "llama3.1:8b" ms') E
           (called (CallOllama out)
              (stepped (fun now0 =>
                          update_audio_submission_status now0
                            (Submission.id sub1) SubSummarizing None) E wc)))).
  { rewrite Hrun.
    rewrite (process_summarize_run E wc (claimed now row) out Hrty Hrin Hout
               Hvalid).
    rewrite summarization_ollama, Ho, Hsid'. unfold announced.
    rewrite Hsid'. reflexivity. }
  rewrite Hfinal in Hnone, Hframe. rewrite Hfinal.
  cbn [stepped called db ticks calls] in *.
  exists (summarized (clock E (S (S (ticks wc)))) summ
            (Job.id (claimed now row))
            (restated (clock E (ticks wc)) SubSummarizing None sub1)),
    (Job.id row),
    (completed t out model ms (claimed (clock E (ticks w)) j)),
    (completed (clock E (S (ticks wc))) summ "llama3.1:8b" ms'
       (claimed now row)).
  rewrite <- Hs1id.
  split; [exact Hsub2 |].
  split; [reflexivity |].
  split; [cbn [summarized restated Submission.transcript]; exact Hs1tr |].
  split; [cbn [summarized restated Submission.transcript_job_id];
          exact Hs1tj |].
  split; [reflexivity |]. split; [reflexivity |].
  split; [exact Hrid |].
  split; [exact Hframe |]. split; [reflexivity |]. split; [reflexivity |].
  split; [exact Hjob2 |]. split; [exact Hrty |]. split; [reflexivity |].
  split; [exact Hrin |]. split; [reflexivity |].
  split; [exact Hnone |].
  subst wc. cbn [calls]. rewrite Hcalls1, <- app_assoc. reflexivity.
Qed.

Lemma two_passes_complete_submission_witness :
  exists sub2,
    get_audio_submission "S" (db (worker_iterations sample_env 2 pipeline_world))
    = Some sub2
    /\ Submission.status sub2 = SubCompleted
    /\ Submission.transcript sub2 = Some "hello world"
    /\ Submission.summary sub2 = Some "summary"
    /\ calls (worker_iterations sample_env 2 pipeline_world)
       = [CallWhisper "a.wav"; CallOllama "hello world"].
Proof.
  assert (Hw : store_wf (db pipeline_world)) by solve_wf.
  assert (Hne : "a.wav" <> "") by discriminate.
  assert (Hout : "hello world" <> "") by discriminate.
  destruct (two_passes_complete_submission sample_env pipeline_world
              pipeline_job (sample_submission "S") "a.wav" "hello world"
              "whisper-large-v3" "summary" 1200 300
              [("autoSummarize", JBool true)] Hw eq_refl (or_introl eq_refl)
              eq_refl eq_refl eq_refl Hne eq_refl eq_refl eq_refl eq_refl
              Hout eq_refl)
    as (sub2 & new_id & done & chained & Hs & Hst & Htr & _ & Hsum & _ & _
        & _ & _ & _ & _ & _ & _ & _ & _ & _ & Hcalls).
  exists sub2. repeat split; assumption.
Defined.

(** X18: a transcription that succeeds with an empty transcript still
    chains.  Under the conditions of X17 but with an empty transcript,
    the first pass completes the transcribe job and creates a summarize
    job with empty input; the second pass fails that job for want of
    input, without invoking the summariser, and the submission ends
    failed with "No input text for summarize job" although its transcribe
    job is completed. *)
Theorem empty_transcript_fails_submission (E : Env) (w : world) (j : Job.t)
    (sub : Submission.t) (path model : string) (ms : Z)
    (m : list (string * json)) :
  store_wf (db w) ->
  pendings (jobs (db w)) = [j] ->
  In sub (audio_submissions (db w)) ->
  bound_submission (Job.audio_file_id j) = Some (Submission.id sub) ->
  Job.job_type j = TRANSCRIBE ->
  Job.input_file_path j = Some path -> path <> "" ->
  path_exists E path = true ->
  metadata_dict (Job.metadata j) = Some m ->
  py_truthy (dict_get "autoSummarize" m (JBool false)) = true ->
  transcription E path (Job.provider j) = inr ("", model, ms) ->
  let final := worker_iterations E 2 w in
  exists (sub2 : Submission.t) (new_id : Z) (done chained : Job.t),
    get_audio_submission (Submission.id sub) (db final) = Some sub2
    /\ Submission.status sub2 = SubFailed
    /\ Submission.error_message sub2
       = Some "No input text for summarize job"
    /\ Submission.transcript sub2 = Some ""
    /\ Submission.summary sub2 = Submission.summary sub
    /\ get_job (Job.id j) (db final) = Some done
    /\ Job.status done = COMPLETED
    /\ new_id <> Job.id j
    /\ get_job new_id (db final) = Some chained
    /\ Job.job_type chained = SUMMARIZE
    /\ Job.status chained = FAILED
    /\ Job.error_message chained = Some "No input text for summarize job"
    /\ calls final = calls w ++ [transcribe_call path (Job.provider j)].
Proof.
  intros Hw Hone Hsub Hsid Hty Hpath Hne Hex Hmeta Hauto Hans final.
  subst final. cbn [worker_iterations].
  destruct (pipeline_first_pass E w j sub path "" model ms m Hw Hone Hsub
              Hsid Hty Hpath Hne Hex Hmeta Hauto Hans)
    as (row & sub1 & Hw1 & Hone1 & Hrty & Hrin & Hraf & Hrmeta & Hrid
        & (t & Hjdone) & Hs1 & Hs1id & Hs1st & Hs1tr & Hs1tj & _ & Hs1sum
        & Hcalls1).
  set (w1 := worker_iteration E w) in *.
  pose proof (oldest_pending_single _ _ Hone1) as Hj1.
  destruct (worker_iteration_claims E w1 row Hw1 Hj1)
    as (Hrun & Hwc & Hinc & _ & Hsc).
  assert (Hframe : get_job (Job.id j) (db (worker_iteration E w1))
                   = Some (completed t "" model ms
                             (claimed (clock E (ticks w)) j))).
  { apply worker_iteration_frame; [exact Hw1 | exact Hjdone | discriminate]. }
  set (now := clock E (ticks w1)) in *.
  set (wc := {| db := with_jobs
                        (update_job (Job.id row) (claimed now) (jobs (db w1)))
                        (db w1);
                ticks := S (ticks w1); calls := calls w1 |}) in *.
  destruct (bound_submission_some _ _ Hsid) as [_ Hbound].
  assert (Hsid' : bound_submission (Job.audio_file_id (claimed now row))
                  = Some (Submission.id sub)).
  { cbn [claimed Job.audio_file_id]. rewrite Hraf. exact Hbound. }
  assert (Hvalid : Job.metadata (claimed now row) <> Some TextInvalid).
  { cbn [claimed Job.metadata]. rewrite Hrmeta. discriminate. }
  destruct (process_without_input E wc (claimed now row) Hvalid) as [_ Hns].
  assert (Hfinal :
    worker_iteration E w1
    = failed_world E (claimed now row)
        (mkExn ValueError "No input text for summarize job") wc).
  { rewrite Hrun, Hns; [reflexivity | exact Hrty |].
    cbn [claimed Job.input_text]. rewrite Hrin. reflexivity. }
  rewrite Hfinal in Hframe. rewrite Hfinal.
  exists (restated (clock E (S (ticks wc))) SubFailed
            (Some "No input text for summarize job") sub1),
    (Job.id row),
    (completed t "" model ms (claimed (clock E (ticks w)) j)),
    (failed (clock E (ticks wc)) "No input text for summarize job"
       (claimed now row)).
  split.
  { rewrite (failed_world_submission E _ _ wc _ Hsid').
    assert (Hg : get_audio_submission (Submission.id sub) (db wc) = Some sub1)
      by exact Hs1.
    rewrite Hg. reflexivity. }
  split; [reflexivity |]. split; [reflexivity |].
  split; [exact Hs1tr |]. split; [exact Hs1sum |].
  split; [exact Hframe |]. split; [reflexivity |].
  split; [exact Hrid |].
  split.
  { destruct Hwc as [Hndc _].
    exact (failed_world_job E (claimed now row)
             (mkExn ValueError "No input text for summarize job") wc Hndc
             Hinc). }
  split; [exact Hrty |]. split; [reflexivity |]. split; [reflexivity |].
  rewrite failed_world_calls. subst wc. cbn [calls]. exact Hcalls1.
Qed.

Lemma empty_transcript_fails_submission_witness :
  exists sub2,
    get_audio_submission "S" (db (worker_iterations silent_env 2 pipeline_world))
    = Some sub2
    /\ Submission.status sub2 = SubFailed
    /\ Submission.error_message sub2
       = Some "No input text for summarize job"
    /\ calls (worker_iterations silent_env 2 pipeline_world)
       = [CallWhisper "a.wav"].
Proof.
  assert (Hw : store_wf (db pipeline_world)) by solve_wf.
  assert (Hne : "a.wav" <> "") by discriminate.
  destruct (empty_transcript_fails_submission silent_env pipeline_world
              pipeline_job (sample_submission "S") "a.wav"
              "whisper-large-v3" 900 [("autoSummarize", JBool true)] Hw
              eq_refl (or_introl eq_refl) eq_refl eq_refl eq_refl Hne eq_refl
              eq_refl eq_refl eq_refl)
    as (sub2 & new_id & done & chained & Hs & Hst & Herr & _ & _ & _ & _ & _
        & _ & _ & _ & _ & Hcalls).
  exists sub2. repeat split; assumption.
Defined.
